(** * Tableview: grid state model, selection / merge / blank handlers and
      snapshot codec of [src/Tableview.tsx], embedded in Rocq.

    Conventions of the embedding.
    - A TypeScript [number] that holds a row or column index, a span or a
      counter is an integer [Z] ([nat] for lengths).  [rowCount] and
      [columnCount] only ever receive [Number] of a host decimal, a decoded
      number that passed [> 0], or a count plus one: they are never [NaN],
      and the [isNaN] guard of [applyDimensions] is never taken.
    - Cell identifiers are the strings [`cell_${r}_${c}`]; the source only
      builds them with that template and only reads them back with
      [id.replace], [split("_")] and [parseInt].  They are modelled
      by the constructor [cell_ r c], whose two projections are what the
      parse returns.  Row identifiers [`row_${r}`] are [row_ r].
    - A JavaScript [Set<string>] iterates in insertion order; it is a
      duplicate-free list, elements appended at the end.
    - React state is a record; an event handler is a function from the state
      it closes over to the next state together with the calls it makes on
      the host (alert, counters, persistence, notifications), in order.
    - [array.find(p)] returns a reference to the first matching object, which
      the handlers then mutate in place.  A reference is a position
      [(i, j)] in the row list, a mutation is [alter] at that position.
    - The [setTimeout] callbacks that later clear [isSaving], [isUserInputRef]
      and [isInitialLoad] are separate, later events and are left out, and so
      are the two effects on [tableRows] that repeat, after the render, the
      statistics and auto-save calls the handlers already made.
    - Where two interfaces share a field name the row's fields are [row_id]
      and [row_rowIndex], and the decoded snapshot's row list is
      [tableRows_]. *)

From stdpp Require Import base tactics option list strings numbers pretty.
From Stdlib Require Import ZArith Lia.

Local Open Scope string_scope.
Local Open Scope list_scope.
Local Open Scope Z_scope.

(** ** Data model (interfaces CellObject, TableRow, TableData) *)

Inductive CellId := cell_ (r c : Z).
Inductive RowId := row_ (r : Z).

Definition id_row (i : CellId) : Z := let 'cell_ r _ := i in r.
Definition id_col (i : CellId) : Z := let 'cell_ _ c := i in c.

Global Instance CellId_eq_dec : EqDecision CellId.
Proof. solve_decision. Defined.
Global Instance RowId_eq_dec : EqDecision RowId.
Proof. solve_decision. Defined.

Record CellObject := mkCell {
  id : CellId;
  sequenceNumber : string;
  isBlocked : bool;
  isMerged : bool;
  mergeId : string;
  isBlank : bool;
  rowIndex : Z;
  columnIndex : Z;
  checked : bool;
  isSelected : bool;
  rowSpan : Z;
  colSpan : Z;
  isHidden : bool
}.

Record TableRow := mkRow {
  row_id : RowId;
  row_rowIndex : Z;
  cells : list CellObject
}.

Global Instance CellObject_eq_dec : EqDecision CellObject.
Proof. solve_decision. Defined.
Global Instance TableRow_eq_dec : EqDecision TableRow.
Proof. solve_decision. Defined.

(** Field assignments [cell.f = v]. *)
Definition set_sequenceNumber (v : string) (c : CellObject) : CellObject :=
  mkCell (id c) v (isBlocked c) (isMerged c) (mergeId c) (isBlank c) (rowIndex c)
         (columnIndex c) (checked c) (isSelected c) (rowSpan c) (colSpan c) (isHidden c).
Definition set_isBlocked (v : bool) (c : CellObject) : CellObject :=
  mkCell (id c) (sequenceNumber c) v (isMerged c) (mergeId c) (isBlank c) (rowIndex c)
         (columnIndex c) (checked c) (isSelected c) (rowSpan c) (colSpan c) (isHidden c).
Definition set_isMerged (v : bool) (c : CellObject) : CellObject :=
  mkCell (id c) (sequenceNumber c) (isBlocked c) v (mergeId c) (isBlank c) (rowIndex c)
         (columnIndex c) (checked c) (isSelected c) (rowSpan c) (colSpan c) (isHidden c).
Definition set_mergeId (v : string) (c : CellObject) : CellObject :=
  mkCell (id c) (sequenceNumber c) (isBlocked c) (isMerged c) v (isBlank c) (rowIndex c)
         (columnIndex c) (checked c) (isSelected c) (rowSpan c) (colSpan c) (isHidden c).
Definition set_isBlank (v : bool) (c : CellObject) : CellObject :=
  mkCell (id c) (sequenceNumber c) (isBlocked c) (isMerged c) (mergeId c) v (rowIndex c)
         (columnIndex c) (checked c) (isSelected c) (rowSpan c) (colSpan c) (isHidden c).
Definition set_checked (v : bool) (c : CellObject) : CellObject :=
  mkCell (id c) (sequenceNumber c) (isBlocked c) (isMerged c) (mergeId c) (isBlank c) (rowIndex c)
         (columnIndex c) v (isSelected c) (rowSpan c) (colSpan c) (isHidden c).
Definition set_isSelected (v : bool) (c : CellObject) : CellObject :=
  mkCell (id c) (sequenceNumber c) (isBlocked c) (isMerged c) (mergeId c) (isBlank c) (rowIndex c)
         (columnIndex c) (checked c) v (rowSpan c) (colSpan c) (isHidden c).
Definition set_rowSpan (v : Z) (c : CellObject) : CellObject :=
  mkCell (id c) (sequenceNumber c) (isBlocked c) (isMerged c) (mergeId c) (isBlank c) (rowIndex c)
         (columnIndex c) (checked c) (isSelected c) v (colSpan c) (isHidden c).
Definition set_colSpan (v : Z) (c : CellObject) : CellObject :=
  mkCell (id c) (sequenceNumber c) (isBlocked c) (isMerged c) (mergeId c) (isBlank c) (rowIndex c)
         (columnIndex c) (checked c) (isSelected c) (rowSpan c) v (isHidden c).
Definition set_isHidden (v : bool) (c : CellObject) : CellObject :=
  mkCell (id c) (sequenceNumber c) (isBlocked c) (isMerged c) (mergeId c) (isBlank c) (rowIndex c)
         (columnIndex c) (checked c) (isSelected c) (rowSpan c) (colSpan c) v.

Definition set_cells (cs : list CellObject) (row : TableRow) : TableRow :=
  mkRow (row_id row) (row_rowIndex row) cs.

(** The cell literal that [createNewTable], [addRow] and [addColumn] write
    out: value "-", every flag false, spans 1. *)
Definition default_cell (r c : Z) : CellObject :=
  mkCell (cell_ r c) "-" false false EmptyString false r c false false 1 1 false.

(** JavaScript truthiness of a string, as in [s && ...] and [s || d]: only
    the empty string is falsy. *)
Definition truthy_string (s : string) : bool :=
  match s with EmptyString => false | _ => true end.

(** ** References into the row list *)

Definition CellRef : Type := nat * nat.

(** [rows.find(r => r.rowIndex === rowIndex)?.cells.find(c => c.columnIndex === colIndex)]:
    the reference to the first match and the object it points to. *)
Definition find_cell (rows : list TableRow) (r c : Z) : option (CellRef * CellObject) :=
  match list_find (λ row, row_rowIndex row = r) rows with
  | Some (i, row) =>
      match list_find (λ cell, columnIndex cell = c) (cells row) with
      | Some (j, cell) => Some ((i, j), cell)
      | None => None
      end
  | None => None
  end.

(** Dereference. *)
Definition cell_at (rows : list TableRow) (p : CellRef) : option CellObject :=
  match rows !! p.1 with
  | Some row => cells row !! p.2
  | None => None
  end.

(** Mutation through a reference. *)
Definition alter_cell (f : CellObject → CellObject) (p : CellRef)
    (rows : list TableRow) : list TableRow :=
  alter (λ row, set_cells (alter f p.2 (cells row)) row) p.1 rows.

(** [rows.forEach(row => row.cells.forEach(cell => ...))] with a body that
    mutates [cell]. *)
Definition forEach_cell (f : CellObject → CellObject) (rows : list TableRow)
    : list TableRow :=
  (λ row, set_cells (f <$> cells row) row) <$> rows.

(** Every cell of the grid, row by row. *)
Definition all_cells (rows : list TableRow) : list CellObject :=
  concat (cells <$> rows).

(** ** Statistics (updateCellStatistics) *)

Record Statistics := mkStats {
  totalCells : nat;
  blockedCells : nat;
  mergedCells : nat;
  blankCells : nat
}.

Definition updateCellStatistics (rows : list TableRow) : Statistics :=
  let totalCells := fold_left (λ sum row, sum + length (cells row))%nat rows 0%nat in
  let blockedCells :=
    fold_left (λ sum row, sum + length (List.filter (λ c, isBlocked c) (cells row)))%nat
              rows 0%nat in
  let mergedCells :=
    fold_left (λ sum row,
                 sum + length (List.filter (λ c, isMerged c && negb (isHidden c)) (cells row)))%nat
              rows 0%nat in
  let blankCells :=
    fold_left (λ sum row,
                 sum + length (List.filter (λ c, isBlank c && negb (isHidden c)) (cells row)))%nat
              rows 0%nat in
  mkStats totalCells blockedCells mergedCells blankCells.

(** ** Snapshot (interface TableData as it travels through JSON)

    [JSON.stringify] writes every own property of the objects it is given and
    [JSON.parse] reads them back, so the persisted text is modelled by the
    document it denotes.  A document that arrives from outside may lack any
    property: each field is an [option], [None] standing for [undefined]. *)

Record RawCell := mkRawCell {
  raw_id : option CellId;
  raw_sequenceNumber : option string;
  raw_isBlocked : option bool;
  raw_isMerged : option bool;
  raw_mergeId : option string;
  raw_isBlank : option bool;
  raw_rowIndex : option Z;
  raw_columnIndex : option Z;
  raw_checked : option bool;
  raw_isSelected : option bool;
  raw_rowSpan : option Z;
  raw_colSpan : option Z;
  raw_isHidden : option bool
}.

Record RawRow := mkRawRow {
  raw_row_id : option RowId;
  raw_row_rowIndex : option Z;
  raw_cells : option (list RawCell)
}.

Record RawTableData := mkRawTableData {
  raw_rows : option Z;
  raw_columns : option Z;
  raw_tableRows : option (list RawRow);
  raw_updatedAt : option string
}.

Global Instance RawCell_eq_dec : EqDecision RawCell.
Proof. solve_decision. Defined.
Global Instance RawRow_eq_dec : EqDecision RawRow.
Proof. solve_decision. Defined.
Global Instance RawTableData_eq_dec : EqDecision RawTableData.
Proof. solve_decision. Defined.

(** The value of the [useAttributeData] string attribute. *)
Inductive AttributeText :=
  | text_empty                       (* the empty string, or no value *)
  | text_malformed                   (* JSON.parse throws *)
  | text_json (d : RawTableData).

Global Instance AttributeText_eq_dec : EqDecision AttributeText.
Proof. solve_decision. Defined.

(** [v || d] on a possibly missing value. *)
Definition js_or {A} (truthy : A → bool) (v : option A) (d : A) : A :=
  match v with
  | Some x => if truthy x then x else d
  | None => d
  end.

Definition truthy_bool (b : bool) : bool := b.
Definition truthy_number (n : Z) : bool := negb (n =? 0)%Z.

(** *** encode: the object literal of [saveToBackend] *)

Definition encode_cell (c : CellObject) : RawCell :=
  mkRawCell (Some (id c)) (Some (sequenceNumber c)) (Some (isBlocked c))
            (Some (isMerged c)) (Some (mergeId c)) (Some (isBlank c))
            (Some (rowIndex c)) (Some (columnIndex c)) (Some (checked c))
            (Some (isSelected c)) (Some (rowSpan c)) (Some (colSpan c))
            (Some (isHidden c)).

Definition encode_row (row : TableRow) : RawRow :=
  mkRawRow (Some (row_id row)) (Some (row_rowIndex row))
           (Some (encode_cell <$> cells row)).

Definition encode (now : string) (rows : list TableRow) (rowCnt colCnt : Z)
    : RawTableData :=
  mkRawTableData (Some rowCnt) (Some colCnt) (Some (encode_row <$> rows)) (Some now).

(** *** decode: the validation of the load effect *)

Definition decode_cell (rowIndex : Z) (cIdx : nat) (cell : RawCell) : CellObject :=
  let colIndex := Z.of_nat cIdx + 1 in
  let seqNum := js_or truthy_string (raw_sequenceNumber cell) "-" in
  let checkedState := js_or truthy_bool (raw_checked cell) false in
  mkCell (cell_ rowIndex colIndex)
         seqNum
         (match raw_isBlocked cell with Some b => b | None => checkedState end)
         (js_or truthy_bool (raw_isMerged cell) false)
         (js_or truthy_string (raw_mergeId cell) EmptyString)
         (js_or truthy_bool (raw_isBlank cell) false)
         rowIndex
         colIndex
         checkedState
         false
         (js_or truthy_number (raw_rowSpan cell) 1)
         (js_or truthy_number (raw_colSpan cell) 1)
         (js_or truthy_bool (raw_isHidden cell) false).

(** [row.cells.map(...)] throws when [cells] is missing; the [catch] of the
    effect then abandons the load. *)
Definition decode_row (idx : nat) (row : RawRow) : option TableRow :=
  let rowIndex := Z.of_nat idx + 1 in
  match raw_cells row with
  | Some cs => Some (mkRow (row_ rowIndex) rowIndex (imap (decode_cell rowIndex) cs))
  | None => None
  end.

Fixpoint decode_rows (idx : nat) (rows : list RawRow) : option (list TableRow) :=
  match rows with
  | [] => Some []
  | row :: rest =>
      match decode_row idx row with
      | Some r =>
          match decode_rows (S idx) rest with
          | Some rs => Some (r :: rs)
          | None => None
          end
      | None => None
      end
  end.

Record TableData := mkTableData {
  rows : Z;
  columns : Z;
  tableRows_ : list TableRow
}.

(** The guard [tableData.tableRows && tableData.rows > 0 && tableData.columns > 0]
    followed by the validation of every row. *)
Definition decode (d : RawTableData) : option TableData :=
  match raw_tableRows d, raw_rows d, raw_columns d with
  | Some trs, Some r, Some c =>
      if (0 <? r)%Z && (0 <? c)%Z then
        match decode_rows 0 trs with
        | Some validatedRows => Some (mkTableData r c validatedRows)
        | None => None
        end
      else None
  | _, _, _ => None
  end.

(** ** Component state and host calls *)

Record State := mkState {
  rowCount : Z;
  columnCount : Z;
  tableRows : list TableRow;
  selectedCells : list CellId;
  isSelectionMode : bool;
  isDragging : bool;
  dragStartCell : option (Z * Z);
  dragSelectionRef : list CellId;
  preSelectionRef : list CellId;
  isSaving : bool;
  dataLoaded : bool;
  lastSavedDataRef : AttributeText;
  isUserInputRef : bool;
  ignoreAttributeUpdateRef : bool
}.

Definition setRowCount (v : Z) (st : State) : State :=
  mkState v (columnCount st) (tableRows st) (selectedCells st) (isSelectionMode st)
          (isDragging st) (dragStartCell st) (dragSelectionRef st) (preSelectionRef st)
          (isSaving st) (dataLoaded st) (lastSavedDataRef st) (isUserInputRef st)
          (ignoreAttributeUpdateRef st).
Definition setColumnCount (v : Z) (st : State) : State :=
  mkState (rowCount st) v (tableRows st) (selectedCells st) (isSelectionMode st)
          (isDragging st) (dragStartCell st) (dragSelectionRef st) (preSelectionRef st)
          (isSaving st) (dataLoaded st) (lastSavedDataRef st) (isUserInputRef st)
          (ignoreAttributeUpdateRef st).
Definition setTableRows (v : list TableRow) (st : State) : State :=
  mkState (rowCount st) (columnCount st) v (selectedCells st) (isSelectionMode st)
          (isDragging st) (dragStartCell st) (dragSelectionRef st) (preSelectionRef st)
          (isSaving st) (dataLoaded st) (lastSavedDataRef st) (isUserInputRef st)
          (ignoreAttributeUpdateRef st).
Definition setSelectedCells (v : list CellId) (st : State) : State :=
  mkState (rowCount st) (columnCount st) (tableRows st) v (isSelectionMode st)
          (isDragging st) (dragStartCell st) (dragSelectionRef st) (preSelectionRef st)
          (isSaving st) (dataLoaded st) (lastSavedDataRef st) (isUserInputRef st)
          (ignoreAttributeUpdateRef st).
Definition setIsSelectionMode (v : bool) (st : State) : State :=
  mkState (rowCount st) (columnCount st) (tableRows st) (selectedCells st) v
          (isDragging st) (dragStartCell st) (dragSelectionRef st) (preSelectionRef st)
          (isSaving st) (dataLoaded st) (lastSavedDataRef st) (isUserInputRef st)
          (ignoreAttributeUpdateRef st).
Definition setIsDragging (v : bool) (st : State) : State :=
  mkState (rowCount st) (columnCount st) (tableRows st) (selectedCells st) (isSelectionMode st)
          v (dragStartCell st) (dragSelectionRef st) (preSelectionRef st)
          (isSaving st) (dataLoaded st) (lastSavedDataRef st) (isUserInputRef st)
          (ignoreAttributeUpdateRef st).
Definition setDragStartCell (v : option (Z * Z)) (st : State) : State :=
  mkState (rowCount st) (columnCount st) (tableRows st) (selectedCells st) (isSelectionMode st)
          (isDragging st) v (dragSelectionRef st) (preSelectionRef st)
          (isSaving st) (dataLoaded st) (lastSavedDataRef st) (isUserInputRef st)
          (ignoreAttributeUpdateRef st).
Definition set_dragSelectionRef (v : list CellId) (st : State) : State :=
  mkState (rowCount st) (columnCount st) (tableRows st) (selectedCells st) (isSelectionMode st)
          (isDragging st) (dragStartCell st) v (preSelectionRef st)
          (isSaving st) (dataLoaded st) (lastSavedDataRef st) (isUserInputRef st)
          (ignoreAttributeUpdateRef st).
Definition set_preSelectionRef (v : list CellId) (st : State) : State :=
  mkState (rowCount st) (columnCount st) (tableRows st) (selectedCells st) (isSelectionMode st)
          (isDragging st) (dragStartCell st) (dragSelectionRef st) v
          (isSaving st) (dataLoaded st) (lastSavedDataRef st) (isUserInputRef st)
          (ignoreAttributeUpdateRef st).
Definition setIsSaving (v : bool) (st : State) : State :=
  mkState (rowCount st) (columnCount st) (tableRows st) (selectedCells st) (isSelectionMode st)
          (isDragging st) (dragStartCell st) (dragSelectionRef st) (preSelectionRef st)
          v (dataLoaded st) (lastSavedDataRef st) (isUserInputRef st)
          (ignoreAttributeUpdateRef st).
Definition setDataLoaded (v : bool) (st : State) : State :=
  mkState (rowCount st) (columnCount st) (tableRows st) (selectedCells st) (isSelectionMode st)
          (isDragging st) (dragStartCell st) (dragSelectionRef st) (preSelectionRef st)
          (isSaving st) v (lastSavedDataRef st) (isUserInputRef st)
          (ignoreAttributeUpdateRef st).
Definition set_lastSavedDataRef (v : AttributeText) (st : State) : State :=
  mkState (rowCount st) (columnCount st) (tableRows st) (selectedCells st) (isSelectionMode st)
          (isDragging st) (dragStartCell st) (dragSelectionRef st) (preSelectionRef st)
          (isSaving st) (dataLoaded st) v (isUserInputRef st)
          (ignoreAttributeUpdateRef st).
Definition set_isUserInputRef (v : bool) (st : State) : State :=
  mkState (rowCount st) (columnCount st) (tableRows st) (selectedCells st) (isSelectionMode st)
          (isDragging st) (dragStartCell st) (dragSelectionRef st) (preSelectionRef st)
          (isSaving st) (dataLoaded st) (lastSavedDataRef st) v
          (ignoreAttributeUpdateRef st).
Definition set_ignoreAttributeUpdateRef (v : bool) (st : State) : State :=
  mkState (rowCount st) (columnCount st) (tableRows st) (selectedCells st) (isSelectionMode st)
          (isDragging st) (dragStartCell st) (dragSelectionRef st) (preSelectionRef st)
          (isSaving st) (dataLoaded st) (lastSavedDataRef st) (isUserInputRef st) v.

(** What the component asks of its host.  The four counters of
    [updateCellStatistics] travel together; [setTableData] stands for the two
    [setValue(jsonData)] calls of [saveToBackend]. *)
Inductive HostCall :=
  | alert (msg : string)
  | setStatistics (s : Statistics)
  | setTableData (jsonData : RawTableData)
  | setRowCountAttribute (n : Z)
  | setColumnCountAttribute (n : Z)
  | onTableChange
  | onCellClick.

(** A handler: next state and the host calls made, oldest first. *)
Definition Action : Type := State → State * list HostCall.

Definition skip : Action := λ st, (st, []).
Definition call (h : HostCall) : Action := λ st, (st, [h]).
Definition modify (f : State → State) : Action := λ st, (f st, []).
Definition andThen (a b : Action) : Action :=
  λ st, let '(st1, calls1) := a st in
        let '(st2, calls2) := b st1 in
        (st2, calls1 ++ calls2).
Notation "a ⨾ b" := (andThen a b) (at level 61, left associativity).

(** ** Sets of cell ids and counted loops *)

(** [s.add(x)] *)
Definition set_add (x : CellId) (s : list CellId) : list CellId :=
  if decide (x ∈ s) then s else s ++ [x].

(** [for (let k = lo; k <= hi; k++) body] over a loop-carried value. *)
Definition for_range {S : Type} (lo hi : Z) (body : Z → S → S) (s : S) : S :=
  fold_left (λ acc k, body k acc) (seqZ lo (hi - lo + 1)) s.

(** [Math.min(...l)] and [Math.max(...l)] of a non-empty list (the callers
    spread at least two elements). *)
Definition Math_min (l : list Z) : Z :=
  match l with [] => 0 | x :: xs => fold_left Z.min xs x end.
Definition Math_max (l : list Z) : Z :=
  match l with [] => 0 | x :: xs => fold_left Z.max xs x end.

Definition createMergeId (r1 c1 r2 c2 : Z) : string :=
  pretty r1 +:+ pretty c1 +:+ pretty r2 +:+ pretty c2.

(** ** Handlers *)

Record Props := mkProps {
  autoSave : bool;
  enableCellMerging : bool;
  enableCellBlanking : bool
}.

Record MouseEvent := mkMouseEvent {
  target_is_input : bool;      (* event.target.tagName === "INPUT" *)
  shiftKey : bool;
  ctrlKey : bool;
  metaKey : bool
}.

Section Handlers.
(** The widget properties and the clock reading [new Date().toISOString()]. *)
Variable props : Props.
Variable now : string.

Definition isSelectionAllowed : bool :=
  enableCellMerging props || enableCellBlanking props.

(** *** saveToBackend *)
Definition saveToBackend (rows : list TableRow) (rowCnt colCnt : Z) : Action :=
  let jsonData := encode now rows rowCnt colCnt in
  modify (setIsSaving true)
  ⨾ modify (set_lastSavedDataRef (text_json jsonData))
  ⨾ call (setTableData jsonData)
  ⨾ modify (set_ignoreAttributeUpdateRef true)
  ⨾ call (setRowCountAttribute rowCnt)
  ⨾ call (setColumnCountAttribute colCnt)
  ⨾ call (setStatistics (updateCellStatistics rows))
  ⨾ call onTableChange.

(** *** The load effect on [props.useAttributeData.value] *)
Definition loadData (incomingData : AttributeText) : Action := λ st,
  if isSaving st then skip st
  else if decide (incomingData = lastSavedDataRef st ∧ lastSavedDataRef st ≠ text_empty)
  then skip st
  else
    match incomingData with
    | text_json d =>
        match decode d with
        | Some tableData =>
            ( modify (setRowCount (rows tableData))
            ⨾ modify (setColumnCount (columns tableData))
            ⨾ modify (set_ignoreAttributeUpdateRef true)
            ⨾ call (setRowCountAttribute (rows tableData))
            ⨾ call (setColumnCountAttribute (columns tableData))
            ⨾ modify (setTableRows (tableRows_ tableData))
            ⨾ modify (setSelectedCells [])
            ⨾ modify (setIsSelectionMode false)
            ⨾ modify (setDataLoaded true)
            ⨾ call (setStatistics (updateCellStatistics (tableRows_ tableData)))
            ⨾ modify (set_lastSavedDataRef incomingData) ) st
        | None => skip st
        end
    | text_malformed => skip st
    | text_empty => skip st
    end.

(** *** The two effects on the host's row and column count attributes;
    [value] is [None] when the attribute is unavailable or null. *)
Definition syncRowCountAttribute (value : option Z) : Action := λ st,
  if ignoreAttributeUpdateRef st then modify (set_ignoreAttributeUpdateRef false) st
  else
    match value with
    | Some v =>
        if (0 <? v)%Z && (v <=? 100)%Z && negb (v =? rowCount st)%Z
           && negb (isUserInputRef st)
        then modify (setRowCount v) st
        else skip st
    | None => skip st
    end.

Definition syncColumnCountAttribute (value : option Z) : Action := λ st,
  if ignoreAttributeUpdateRef st then modify (set_ignoreAttributeUpdateRef false) st
  else
    match value with
    | Some v =>
        if (0 <? v)%Z && (v <=? 100)%Z && negb (v =? columnCount st)%Z
           && negb (isUserInputRef st)
        then modify (setColumnCount v) st
        else skip st
    | None => skip st
    end.

(** *** createNewTable; [Array.from({ length: n }, f)] maps [f] over the
    indices [0 .. n-1]. *)
Definition new_row (rowIndex cols : Z) : TableRow :=
  mkRow (row_ rowIndex) rowIndex
        ((λ cIdx, default_cell rowIndex (Z.of_nat cIdx + 1)) <$> seq 0 (Z.to_nat cols)).

Definition createNewTable (rows cols : Z) : Action :=
  if (rows <=? 0)%Z || (cols <=? 0)%Z then skip
  else
    let newTableRows :=
      (λ idx, new_row (Z.of_nat idx + 1) cols) <$> seq 0 (Z.to_nat rows) in
    modify (setTableRows newTableRows)
    ⨾ modify (setSelectedCells [])
    ⨾ modify (setIsSelectionMode false)
    ⨾ modify (setDataLoaded true)
    ⨾ saveToBackend newTableRows rows cols.

(** *** applyDimensions (the Generate Table button).  Its first guard,
    [isNaN(rowCount) || isNaN(columnCount)], cannot fire on integer counts
    and has no counterpart here. *)
Definition applyDimensions : Action := λ st,
  if (rowCount st <=? 0)%Z || (columnCount st <=? 0)%Z
  then call (alert "Rows and columns must be positive numbers") st
  else if (100 <? rowCount st)%Z || (100 <? columnCount st)%Z
  then call (alert "Maximum 100 rows and 100 columns") st
  else
    ( modify (set_ignoreAttributeUpdateRef true)
    ⨾ call (setRowCountAttribute (rowCount st))
    ⨾ call (setColumnCountAttribute (columnCount st))
    ⨾ createNewTable (rowCount st) (columnCount st) ) st.

(** *** addRow *)
Definition addRow : Action := λ st,
  let newRowCount := rowCount st + 1 in
  if (100 <? newRowCount)%Z then call (alert "Maximum 100 rows") st
  else
    let newRows := tableRows st ++ [new_row newRowCount (columnCount st)] in
    ( modify (set_isUserInputRef true)
    ⨾ modify (setRowCount newRowCount)
    ⨾ modify (set_ignoreAttributeUpdateRef true)
    ⨾ call (setRowCountAttribute newRowCount)
    ⨾ saveToBackend newRows newRowCount (columnCount st)
    ⨾ modify (setTableRows newRows) ) st.

(** *** addColumn *)
Definition addColumn : Action := λ st,
  let newColCount := columnCount st + 1 in
  if (100 <? newColCount)%Z then call (alert "Maximum 100 columns") st
  else
    let newRows :=
      (λ row, set_cells (cells row ++ [default_cell (row_rowIndex row) newColCount]) row)
        <$> tableRows st in
    ( modify (set_isUserInputRef true)
    ⨾ modify (setColumnCount newColCount)
    ⨾ modify (set_ignoreAttributeUpdateRef true)
    ⨾ call (setColumnCountAttribute newColCount)
    ⨾ saveToBackend newRows (rowCount st) newColCount
    ⨾ modify (setTableRows newRows) ) st.

(** *** handleCellValueChange *)
Definition handleCellValueChange (rowIndex colIndex : Z) (newValue : string) : Action :=
  λ st,
  let prevRows := tableRows st in
  match find_cell prevRows rowIndex colIndex with
  | None => call onCellClick st
  | Some (targetCell, target) =>
      let newRows := alter_cell (set_sequenceNumber newValue) targetCell prevRows in
      let newRows :=
        if truthy_string (mergeId target) then
          forEach_cell (λ cell, if decide (mergeId cell = mergeId target)
                                then set_sequenceNumber newValue cell else cell) newRows
        else newRows in
      ( call (setStatistics (updateCellStatistics newRows))
      ⨾ (if autoSave props then saveToBackend newRows (rowCount st) (columnCount st)
         else skip)
      ⨾ modify (setTableRows newRows)
      ⨾ call onCellClick ) st
  end.

(** *** handleCheckboxChange *)
Definition handleCheckboxChange (rowIndex colIndex : Z) : Action := λ st,
  let prevRows := tableRows st in
  match find_cell prevRows rowIndex colIndex with
  | None => call onCellClick st
  | Some (targetCell, target) =>
      let newChecked := negb (checked target) in
      let toggle (cell : CellObject) :=
        set_isSelected newChecked (set_isBlocked newChecked (set_checked newChecked cell)) in
      let newRows := alter_cell toggle targetCell prevRows in
      let newRows :=
        if truthy_string (mergeId target) then
          forEach_cell (λ cell, if decide (mergeId cell = mergeId target)
                                then toggle cell else cell) newRows
        else newRows in
      ( call (setStatistics (updateCellStatistics newRows))
      ⨾ (if autoSave props then saveToBackend newRows (rowCount st) (columnCount st)
         else skip)
      ⨾ modify (setTableRows newRows)
      ⨾ call onCellClick ) st
  end.

(** *** getRectangularSelection *)
Definition getRectangularSelection (startRow startCol endRow endCol : Z) : list CellId :=
  let minRow := Z.min startRow endRow in
  let maxRow := Z.max startRow endRow in
  let minCol := Z.min startCol endCol in
  let maxCol := Z.max startCol endCol in
  for_range minRow maxRow (λ r,
    for_range minCol maxCol (λ c, set_add (cell_ r c))) [].

(** *** Drag selection *)
Definition handleCellMouseDown (rowIndex colIndex : Z) (event : MouseEvent) : Action :=
  λ st,
  if negb isSelectionAllowed then skip st
  else if target_is_input event then skip st
  else
    let cellId := cell_ rowIndex colIndex in
    ( modify (set_preSelectionRef (selectedCells st))
    ⨾ modify (setIsDragging true)
    ⨾ modify (setDragStartCell (Some (rowIndex, colIndex)))
    ⨾ modify (setIsSelectionMode true)
    ⨾ modify (set_dragSelectionRef [cellId])
    ⨾ (if shiftKey event
       then modify (λ s, setSelectedCells (set_add cellId (selectedCells s)) s)
       else modify (setSelectedCells [cellId])) ) st.

Definition handleCellMouseEnter (rowIndex colIndex : Z) : Action := λ st,
  match isDragging st, dragStartCell st with
  | true, Some (startRow, startCol) =>
      let dragged := getRectangularSelection startRow startCol rowIndex colIndex in
      let final := fold_left (λ s c, set_add c s) dragged (preSelectionRef st) in
      ( modify (set_dragSelectionRef dragged)
      ⨾ modify (setSelectedCells final) ) st
  | _, _ => skip st
  end.

(** The document-level mouseup listener. *)
Definition onUp : Action := λ st,
  if isDragging st then
    ( modify (setIsDragging false)
    ⨾ modify (setDragStartCell None)
    ⨾ modify (set_preSelectionRef []) ) st
  else skip st.

(** *** handleCellClick *)
Definition handleCellClick (rowIndex colIndex : Z) (event : MouseEvent) : Action := λ st,
  if negb isSelectionAllowed then call onCellClick st
  else if isDragging st then skip st
  else
    let cellId := cell_ rowIndex colIndex in
    let isCtrlOrCmd := ctrlKey event || metaKey event in
    ( call onCellClick
    ⨾ (if isSelectionMode st then
         modify (λ s,
           let prev := selectedCells s in
           if isCtrlOrCmd then
             if bool_decide (cellId ∈ prev) && (1 <? length prev)%nat
             then setSelectedCells (List.filter (λ i, negb (bool_decide (i = cellId))) prev) s
             else setSelectedCells (set_add cellId prev) s
           else
             if bool_decide (cellId ∈ prev) && (length prev =? 1)%nat
             then s
             else setSelectedCells (set_add cellId prev) s)
       else
         modify (setSelectedCells [cellId]) ⨾ modify (setIsSelectionMode true)) ) st.

(** *** selectAllCells: the ids of the cells that are not hidden, in
    row order. *)
Definition selectAllCells : Action := λ st,
  if negb isSelectionAllowed then skip st
  else
    let all :=
      fold_left (λ acc row,
                   fold_left (λ acc cell, if isHidden cell then acc
                                          else set_add (id cell) acc)
                             (cells row) acc)
                (tableRows st) [] in
    ( modify (setSelectedCells all) ⨾ modify (setIsSelectionMode true) ) st.

Definition clearSelection : Action :=
  modify (setSelectedCells []) ⨾ modify (setIsSelectionMode false).

End Handlers.

Section MergeAndBlank.
Variable now : string.

(** The reset that both [mergeCells] (on a group the new rectangle touches)
    and [unmergeCells] apply to every cell carrying a given merge id. *)
Definition unmerge_group (oldId : string) (c2 : CellObject) : CellObject :=
  if decide (mergeId c2 = oldId)
  then set_mergeId EmptyString
         (set_isHidden false (set_colSpan 1 (set_rowSpan 1 (set_isMerged false c2))))
  else c2.

(** [dst.f = src.g], both objects living in [rows]: the source object is
    read at the time of the assignment, so writes through an alias of it
    are seen. *)
Definition assign_from {A : Type} (src : CellRef) (get : CellObject → A)
    (set : A → CellObject → CellObject) (dst : CellRef)
    (rows : list TableRow) : list TableRow :=
  match cell_at rows src with
  | Some o => alter_cell (set (get o)) dst rows
  | None => rows
  end.

(** Body of the first pair of loops of [mergeCells]. *)
Definition dissolve_at (r c : Z) (rows : list TableRow) : list TableRow :=
  match find_cell rows r c with
  | Some (_, cell) =>
      if isMerged cell && truthy_string (mergeId cell)
      then forEach_cell (unmerge_group (mergeId cell)) rows
      else rows
  | None => rows
  end.

(** Body of the second pair of loops of [mergeCells], statement by
    statement. *)
Definition merge_at (topLeft : CellRef) (mergeId : string)
    (minRow maxRow minCol maxCol r c : Z) (rows : list TableRow) : list TableRow :=
  match find_cell rows r c with
  | None => rows
  | Some (cell, _) =>
      let rows := assign_from topLeft sequenceNumber set_sequenceNumber cell rows in
      let rows := assign_from topLeft checked set_checked cell rows in
      let rows := assign_from topLeft isBlocked set_isBlocked cell rows in
      let rows := assign_from topLeft isBlocked set_isSelected cell rows in
      let rows := assign_from topLeft isBlank set_isBlank cell rows in
      let rows := alter_cell (set_isMerged true) cell rows in
      let rows := alter_cell (set_mergeId mergeId) cell rows in
      if (r =? minRow)%Z && (c =? minCol)%Z then
        let rows := alter_cell (set_rowSpan (maxRow - minRow + 1)) cell rows in
        let rows := alter_cell (set_colSpan (maxCol - minCol + 1)) cell rows in
        alter_cell (set_isHidden false) cell rows
      else
        let rows := alter_cell (set_rowSpan 1) cell rows in
        let rows := alter_cell (set_colSpan 1) cell rows in
        alter_cell (set_isHidden true) cell rows
  end.

(** *** mergeCells *)
Definition mergeCells : Action := λ st,
  let sel := selectedCells st in
  if decide (length sel < 2)%nat then skip st
  else
    let positions := (λ i, (id_row i, id_col i)) <$> sel in
    let minRow := Math_min (fst <$> positions) in
    let maxRow := Math_max (fst <$> positions) in
    let minCol := Math_min (snd <$> positions) in
    let maxCol := Math_max (snd <$> positions) in
    if decide (Z.of_nat (length sel) ≠ (maxRow - minRow + 1) * (maxCol - minCol + 1))
    then call (alert "Please select a rectangular area to merge") st
    else
      let prevRows := tableRows st in
      let newRows :=
        for_range minRow maxRow (λ r, for_range minCol maxCol (λ c, dissolve_at r c))
                  prevRows in
      let mergeId := createMergeId minRow minCol maxRow maxCol in
      let collapse := modify (setSelectedCells [cell_ minRow minCol]) in
      match find_cell newRows minRow minCol with
      | None => collapse st
      | Some (topLeft, _) =>
          let newRows :=
            for_range minRow maxRow (λ r,
              for_range minCol maxCol (λ c,
                merge_at topLeft mergeId minRow maxRow minCol maxCol r c)) newRows in
          ( call (setStatistics (updateCellStatistics newRows))
          ⨾ saveToBackend now newRows (rowCount st) (columnCount st)
          ⨾ modify (setTableRows newRows)
          ⨾ collapse ) st
      end.

(** *** unmergeCells: acts on [Array.from(selectedCells)[0]]. *)
Definition unmergeCells : Action := λ st,
  match selectedCells st with
  | [] => skip st
  | cellId :: _ =>
      let prevRows := tableRows st in
      match find_cell prevRows (id_row cellId) (id_col cellId) with
      | None => skip st
      | Some (_, target) =>
          if negb (isMerged target) then skip st
          else
            let newRows := forEach_cell (unmerge_group (mergeId target)) prevRows in
            ( call (setStatistics (updateCellStatistics newRows))
            ⨾ saveToBackend now newRows (rowCount st) (columnCount st)
            ⨾ modify (setTableRows newRows) ) st
      end
  end.

(** *** blankSelectedCells / unblankSelectedCells: the two handlers are the
    same text up to the literal written to [isBlank]. *)
Definition blank_at (v : bool) (rows : list TableRow) (cellId : CellId)
    : list TableRow :=
  match find_cell rows (id_row cellId) (id_col cellId) with
  | None => rows
  | Some (cell, o) =>
      if isHidden o then rows
      else
        let rows := alter_cell (set_isBlank v) cell rows in
        if truthy_string (mergeId o) then
          forEach_cell (λ c, if decide (mergeId c = mergeId o)
                             then set_isBlank v c else c) rows
        else rows
  end.

Definition write_blank (v : bool) : Action := λ st,
  match selectedCells st with
  | [] => skip st
  | _ :: _ =>
      let newRows := fold_left (blank_at v) (selectedCells st) (tableRows st) in
      ( call (setStatistics (updateCellStatistics newRows))
      ⨾ saveToBackend now newRows (rowCount st) (columnCount st)
      ⨾ modify (setTableRows newRows)
      ⨾ modify (setSelectedCells [])
      ⨾ modify (setIsSelectionMode false) ) st
  end.

Definition blankSelectedCells : Action := write_blank true.
Definition unblankSelectedCells : Action := write_blank false.

End MergeAndBlank.

(** ** The component as a state machine *)

Inductive Event :=
  | AttributeDataChanged (incomingData : AttributeText)
  | RowCountAttributeChanged (value : option Z)
  | ColumnCountAttributeChanged (value : option Z)
  | InitTimer
  | GenerateTable
  | AddRow
  | AddColumn
  | CellValueChange (rowIndex colIndex : Z) (newValue : string)
  | CheckboxChange (rowIndex colIndex : Z)
  | CellClick (rowIndex colIndex : Z) (event : MouseEvent)
  | CellMouseDown (rowIndex colIndex : Z) (event : MouseEvent)
  | CellMouseEnter (rowIndex colIndex : Z)
  | MouseUp
  | SelectAll
  | ClearSelection
  | MergeSelected
  | Unmerge
  | Blank
  | Unblank.

(** The initialisation timer firing in a state that has not changed since
    its effect ran: the values its callback captured are those of the state
    it fires in.  The callback for any captured values is
    [initTimerCallback] below. *)
Definition initTable (now : string) : Action := λ st,
  if negb (dataLoaded st) && bool_decide (tableRows st = [])
  then createNewTable now (rowCount st) (columnCount st) st
  else skip st.

Definition handle (props : Props) (now : string) (e : Event) : Action :=
  match e with
  | AttributeDataChanged incomingData => loadData incomingData
  | RowCountAttributeChanged value => syncRowCountAttribute value
  | ColumnCountAttributeChanged value => syncColumnCountAttribute value
  | InitTimer => initTable now
  | GenerateTable => applyDimensions now
  | AddRow => addRow now
  | AddColumn => addColumn now
  | CellValueChange r c v => handleCellValueChange props now r c v
  | CheckboxChange r c => handleCheckboxChange props now r c
  | CellClick r c ev => handleCellClick props r c ev
  | CellMouseDown r c ev => handleCellMouseDown props r c ev
  | CellMouseEnter r c => handleCellMouseEnter r c
  | MouseUp => onUp
  | SelectAll => selectAllCells props
  | ClearSelection => clearSelection
  | MergeSelected => mergeCells now
  | Unmerge => unmergeCells now
  | Blank => blankSelectedCells now
  | Unblank => unblankSelectedCells now
  end.

(** ** Initial state and effects outside the event handlers *)

(** [getInitialRows] and [getInitialColumns]: the value of the host
    attribute when it is available and set ([None] otherwise).  The value is
    a [Big] object, which is truthy whatever number it holds, so every value
    that is present is taken as it is. *)
Definition getInitialRows (rowCountAttribute : option Z) : Z :=
  match rowCountAttribute with Some v => v | None => 3 end.

Definition getInitialColumns (columnCountAttribute : option Z) : Z :=
  match columnCountAttribute with Some v => v | None => 3 end.

(** The state of the component when it mounts. *)
Definition initial_state (rowCountAttribute columnCountAttribute : option Z) : State :=
  mkState (getInitialRows rowCountAttribute) (getInitialColumns columnCountAttribute)
          [] [] false false None [] [] false false text_empty false false.

(** The initialisation timer.  Its effect depends on [dataLoaded] only, so
    the callback works with the [dataLoaded], [tableRows], [rowCount] and
    [columnCount] of the render in which the effect ran, while the setters it
    calls through [createNewTable] act on the state it fires in. *)
Record TimerClosure := mkTimerClosure {
  captured_dataLoaded : bool;
  captured_tableRows : list TableRow;
  captured_rowCount : Z;
  captured_columnCount : Z
}.

(** The values a callback created in state [st] captures. *)
Definition capture (st : State) : TimerClosure :=
  mkTimerClosure (dataLoaded st) (tableRows st) (rowCount st) (columnCount st).

Definition initTimerCallback (now : string) (k : TimerClosure) : Action := λ st,
  if negb (captured_dataLoaded k) && bool_decide (captured_tableRows k = [])
  then createNewTable now (captured_rowCount k) (captured_columnCount k) st
  else skip st.

(** The effect on [tableRows], [isSaving], [rowCount] and [columnCount]. *)
Definition autoSaveEffect (props : Props) (now : string) : Action := λ st,
  if autoSave props && (0 <? length (tableRows st))%nat && negb (isSaving st)
  then saveToBackend now (tableRows st) (rowCount st) (columnCount st) st
  else skip st.

(** The effect on [tableRows] that refreshes the statistics. *)
Definition statisticsEffect : Action := λ st,
  if (0 <? length (tableRows st))%nat
  then call (setStatistics (updateCellStatistics (tableRows st))) st
  else skip st.

(** The timer that [saveToBackend] starts: [setIsSaving(false)] after 100 ms. *)
Definition savingTimer : Action := modify (setIsSaving false).

(** * Vocabulary of the properties, and concrete inputs *)

Definition map_at (F : CellRef → CellObject → CellObject) (rows : list TableRow)
    : list TableRow :=
  imap (λ i row, set_cells (imap (λ j, F (i, j)) (cells row)) row) rows.

(** Number of cells of the grid that satisfy [P]. *)
Definition count_where (P : CellObject → Prop) `{!∀ c, Decision (P c)}
    (rows : list TableRow) : nat :=
  length (filter P (all_cells rows)).

(** Is the cell [x] stored at [q] the target stored at [p], or a cell sharing
    the target's non-empty merge id? *)
Definition in_group_of (p : CellRef) (t : CellObject) (q : CellRef) (x : CellObject) : bool :=
  bool_decide (q = p) || (truthy_string (mergeId t) && bool_decide (mergeId x = mergeId t)).

(** [l.forEach(c => s.add(c))] *)
Definition add_all (l s : list CellId) : list CellId :=
  fold_left (λ acc c, set_add c acc) l s.

(** The cells of a rectangle, row by row. *)
Definition rect_ids (minRow maxRow minCol maxCol : Z) : list CellId :=
  r ← seqZ minRow (maxRow - minRow + 1);
  c ← seqZ minCol (maxCol - minCol + 1);
  [cell_ r c].

(** The bounds [mergeCells] computes from the selected ids. *)
Definition bounding_minRow (sel : list CellId) : Z := Math_min (id_row <$> sel).
Definition bounding_maxRow (sel : list CellId) : Z := Math_max (id_row <$> sel).
Definition bounding_minCol (sel : list CellId) : Z := Math_min (id_col <$> sel).
Definition bounding_maxCol (sel : list CellId) : Z := Math_max (id_col <$> sel).

(** Number of cells of the bounding rectangle. *)
Definition bounding_count (sel : list CellId) : Z :=
  (bounding_maxRow sel - bounding_minRow sel + 1)
  * (bounding_maxCol sel - bounding_minCol sel + 1).

(** Does processing the selected id [i] write the cell [x] stored at [q]? *)
Definition blank_hits (rows : list TableRow) (i : CellId) (q : CellRef) (x : CellObject)
    : bool :=
  match find_cell rows (id_row i) (id_col i) with
  | Some (p, o) => negb (isHidden o) && in_group_of p o q x
  | None => false
  end.

Definition blank_reaches (rows : list TableRow) (sel : list CellId) (q : CellRef)
    (x : CellObject) : bool :=
  existsb (λ i, blank_hits rows i q x) sel.

(** What one iteration of the merge loop leaves in the cell it visits, given
    the top-left cell [t] as it stands when the iteration starts. *)
Definition merge_write (t : CellObject) (mergeId : string) (anchor : bool) (h w : Z)
    (x : CellObject) : CellObject :=
  mkCell (id x) (sequenceNumber t) (isBlocked t) true mergeId (isBlank t)
         (rowIndex x) (columnIndex x) (checked t) (isBlocked t)
         (if anchor then h else 1) (if anchor then w else 1) (negb anchor).

(** A cell map that can only change the merge shape of a cell. *)
Definition keeps_content (D : CellObject → CellObject) : Prop :=
  ∀ x, id (D x) = id x ∧ sequenceNumber (D x) = sequenceNumber x
       ∧ isBlocked (D x) = isBlocked x ∧ isBlank (D x) = isBlank x
       ∧ rowIndex (D x) = rowIndex x ∧ columnIndex (D x) = columnIndex x
       ∧ checked (D x) = checked x ∧ isSelected (D x) = isSelected x.

(** The content the merge loop copies from the top-left cell [t]. *)
Definition merged_from (t : CellObject) (mergeId' : string) (y : CellObject) : Prop :=
  sequenceNumber y = sequenceNumber t ∧ checked y = checked t
  ∧ isBlocked y = isBlocked t ∧ isSelected y = isBlocked t
  ∧ isBlank y = isBlank t ∧ isMerged y = true ∧ mergeId y = mergeId'.

(** The four fields the merge loop reads from the top-left cell. *)
Definition same_source (t y : CellObject) : Prop :=
  sequenceNumber y = sequenceNumber t ∧ checked y = checked t
  ∧ isBlocked y = isBlocked t ∧ isBlank y = isBlank t.

(** The shape of a cell that belongs to no merge. *)
Definition unmerged_shape (x : CellObject) : Prop :=
  isMerged x = false ∧ isHidden x = false ∧ rowSpan x = 1 ∧ colSpan x = 1.

(** What decoding makes of an encoded cell [x]. *)
Definition decoded_from (x y : CellObject) : Prop :=
  checked y = checked x ∧ isBlocked y = isBlocked x ∧ isMerged y = isMerged x
  ∧ mergeId y = mergeId x ∧ isBlank y = isBlank x ∧ isHidden y = isHidden x
  ∧ isSelected y = false
  ∧ sequenceNumber y = (if decide (sequenceNumber x = EmptyString) then "-" else sequenceNumber x)
  ∧ rowSpan y = (if decide (rowSpan x = 0) then 1 else rowSpan x)
  ∧ colSpan y = (if decide (colSpan x = 0) then 1 else colSpan x).

(** Equality on the persisted fields. *)
Definition same_persisted (x y : CellObject) : Prop :=
  sequenceNumber y = sequenceNumber x ∧ checked y = checked x
  ∧ isBlocked y = isBlocked x ∧ isMerged y = isMerged x ∧ mergeId y = mergeId x
  ∧ isBlank y = isBlank x ∧ rowSpan y = rowSpan x ∧ colSpan y = colSpan x
  ∧ isHidden y = isHidden x.

(** The round trip property of a grid, for a relation on cells. *)
Definition round_trip (R : CellObject → CellObject → Prop) (now : string) (G : TableData)
    : Prop :=
  ∃ G', decode (encode now (tableRows_ G) (rows G) (columns G)) = Some G'
        ∧ rows G' = rows G ∧ columns G' = columns G
        ∧ Forall2 (λ row row', Forall2 R (cells row) (cells row'))
                  (tableRows_ G) (tableRows_ G').

(** The state before any table exists: default 3 x 3 dimensions. *)
Definition st_initial : State :=
  mkState 3 3 [] [] false false None [] [] false false text_empty false false.

(** A clock reading. *)
Definition clock : string := "2026-01-01T00:00:00.000Z".

(** A freshly generated 2 x 2 table. *)
Definition st_2x2 : State := (createNewTable clock 2 2 st_initial).1.

(** One row holding the values "a" and "b", both cells selected. *)
Definition st_a_b : State :=
  setSelectedCells [cell_ 1 1; cell_ 1 2]
    (setTableRows [mkRow (row_ 1) 1 [set_sequenceNumber "a" (default_cell 1 1);
                                     set_sequenceNumber "b" (default_cell 1 2)]]
       (setColumnCount 2 (setRowCount 1 st_initial))).

(** A 1 x 1 grid whose only cell had its text cleared by the user. *)
Definition grid_cleared_cell : TableData :=
  mkTableData 1 1 [mkRow (row_ 1) 1 [set_sequenceNumber EmptyString (default_cell 1 1)]].

(** A well-formed snapshot of 101 rows of one cell each. *)
Definition snapshot_101_rows : RawTableData :=
  encode clock ((λ idx, new_row (Z.of_nat idx + 1) 1) <$> seq 0 101) 101 1.

(** Every optional feature switched on. *)
Definition props_all : Props := mkProps true true true.

(** The values and checked states held by the cells a selection refers to. *)
Definition region_values (rows : list TableRow) (sel : list CellId)
    : list (string * bool) :=
  omap (λ i, (λ qx, (sequenceNumber qx.2, checked qx.2))
               <$> find_cell rows (id_row i) (id_col i)) sel.

(** The L-shaped selection (1,1), (1,2), (2,2) on the 2 x 2 table. *)
Definition st_L_shape : State :=
  setSelectedCells [cell_ 1 1; cell_ 1 2; cell_ 2 2] st_2x2.

(** The first row of the 2 x 2 table selected. *)
Definition st_row_pair : State := setSelectedCells [cell_ 1 1; cell_ 1 2] st_2x2.

(** A mouse event on a cell, no modifier key held. *)
Definition plain_mouse_down : MouseEvent := mkMouseEvent false false false false.

(** Both dimensions within 1..100. *)
Definition in_bounds (st : State) : Prop :=
  1 ≤ rowCount st ≤ 100 ∧ 1 ≤ columnCount st ≤ 100.

(** Rows and cells carry the ids and indices of the positions they are
    stored at (1-based). *)
Definition positioned (rows : list TableRow) : Prop :=
  ∀ i row, rows !! i = Some row →
    row_rowIndex row = Z.of_nat i + 1 ∧ row_id row = row_ (Z.of_nat i + 1)
    ∧ ∀ j x, cells row !! j = Some x →
        rowIndex x = Z.of_nat i + 1 ∧ columnIndex x = Z.of_nat j + 1
        ∧ id x = cell_ (Z.of_nat i + 1) (Z.of_nat j + 1).

(** [r] rows of [c] cells each. *)
Definition rectangular (rows : list TableRow) (r c : Z) : Prop :=
  Z.of_nat (length rows) = r ∧ 0 ≤ c
  ∧ ∀ i row, rows !! i = Some row → Z.of_nat (length (cells row)) = c.

Definition well_formed (rows : list TableRow) (r c : Z) : Prop :=
  positioned rows ∧ rectangular rows r c.

(** The grid agrees with the two dimension counters. *)
Definition wf_state (st : State) : Prop :=
  well_formed (tableRows st) (rowCount st) (columnCount st).

(** A cell map that leaves the identity of a cell alone. *)
Definition keeps_position (F : CellRef → CellObject → CellObject) : Prop :=
  ∀ q x, id (F q x) = id x ∧ rowIndex (F q x) = rowIndex x
         ∧ columnIndex (F q x) = columnIndex x.

(** The events raised by the user, as opposed to values pushed by the host. *)
Definition user_event (e : Event) : Prop :=
  match e with
  | AttributeDataChanged _ | RowCountAttributeChanged _ | ColumnCountAttributeChanged _ => False
  | _ => True
  end.

(** The 3 x 3 table the init timer builds from the initial state. *)
Definition st_3x3 : State := (handle props_all clock InitTimer st_initial).1.

(** A cell as the load effect leaves it: a non-empty value, non-zero spans,
    not selected. *)
Definition normal_cell (x : CellObject) : Prop :=
  sequenceNumber x ≠ EmptyString ∧ rowSpan x ≠ 0 ∧ colSpan x ≠ 0 ∧ isSelected x = false.

(** [positioned], for a list of rows that starts at row offset [k]. *)
Definition positioned_from (k : nat) (rows : list TableRow) : Prop :=
  ∀ i row, rows !! i = Some row →
    row_rowIndex row = Z.of_nat (k + i) + 1 ∧ row_id row = row_ (Z.of_nat (k + i) + 1)
    ∧ ∀ j x, cells row !! j = Some x →
        rowIndex x = Z.of_nat (k + i) + 1 ∧ columnIndex x = Z.of_nat j + 1
        ∧ id x = cell_ (Z.of_nat (k + i) + 1) (Z.of_nat j + 1).

(** A grid in the form every successful load produces. *)
Definition loadable (G : TableData) : Prop :=
  0 < rows G ∧ 0 < columns G ∧ positioned (tableRows_ G)
  ∧ ∀ q x, cell_at (tableRows_ G) q = Some x → normal_cell x.

(** The state in which the host has raised the row count to 7 before the
    initialisation timer of the 3 x 3 mount state fires. *)
Definition st_count_raised : State :=
  (handle props_all clock (RowCountAttributeChanged (Some 7)) st_initial).1.

(** A drag gesture after the button went down: the pointer enters the cells
    of [path] one after the other. *)
Definition enter_path (path : list (Z * Z)) (st : State) : State :=
  fold_left (λ s p, (handleCellMouseEnter p.1 p.2 s).1) path st.

(** The three sets of cell ids hold no id twice, and a drag is in progress
    exactly when its anchor is recorded. *)
Definition selection_inv (st : State) : Prop :=
  NoDup (selectedCells st) ∧ NoDup (preSelectionRef st) ∧ NoDup (dragSelectionRef st)
  ∧ (isDragging st = true ↔ is_Some (dragStartCell st)).

(** The state after a sequence of events. *)
Definition run (props : Props) (now : string) (es : list Event) (st : State) : State :=
  fold_left (λ s e, (handle props now e s).1) es st.

(** The events that act on the selection or on the drag state only. *)
Definition needs_selection (e : Event) : Prop :=
  match e with
  | CellMouseDown _ _ _ | CellMouseEnter _ _ | MouseUp | SelectAll
  | MergeSelected | Unmerge | Blank | Unblank => True
  | _ => False
  end.

(** The 3 x 3 table after the host's echo of the save was swallowed. *)
Definition st_3x3_settled : State := (syncRowCountAttribute None st_3x3).1.

(** * Properties *)

Lemma list_find_imap {A} (P : A → Prop) `{!∀ x, Decision (P x)}
    (g : nat → A → A) (l : list A) :
  (∀ i x, P (g i x) ↔ P x) →
  list_find P (imap g l) = (λ ix, (ix.1, g ix.1 ix.2)) <$> list_find P l.
Proof.
  revert g. induction l as [|a l IH]; intros g Hg; [done|].
  rewrite imap_cons. cbn [list_find].
  destruct (decide (P (g 0%nat a))) as [H1|H1], (decide (P a)) as [H2|H2].
  - done.
  - by apply Hg in H1.
  - by apply (Hg 0%nat) in H2.
  - cbn. rewrite IH by (intros; apply Hg).
    destruct (list_find P l) as [[i x]|]; done.
Qed.

Lemma cell_at_map_at F rows q :
  cell_at (map_at F rows) q = F q <$> cell_at rows q.
Proof.
  destruct q as [i j]. unfold cell_at, map_at; cbn.
  rewrite list_lookup_imap. destruct (rows !! i) as [row|]; cbn; [|done].
  by rewrite list_lookup_imap.
Qed.

Lemma find_cell_map_at F rows r c :
  (∀ q x, columnIndex (F q x) = columnIndex x) →
  find_cell (map_at F rows) r c = (λ qx, (qx.1, F qx.1 qx.2)) <$> find_cell rows r c.
Proof.
  intros HF. unfold find_cell, map_at.
  rewrite list_find_imap by done.
  destruct (list_find _ rows) as [[i row]|]; cbn; [|done].
  rewrite list_find_imap by (intros; by rewrite HF).
  destruct (list_find _ (cells row)) as [[j x]|]; done.
Qed.

Lemma find_cell_Some rows r c q x :
  find_cell rows r c = Some (q, x) → cell_at rows q = Some x ∧ columnIndex x = c.
Proof.
  unfold find_cell, cell_at.
  destruct (list_find _ rows) as [[i row]|] eqn:Hr; [|done].
  destruct (list_find _ (cells row)) as [[j y]|] eqn:Hc; [|done].
  intros [= <- <-]. cbn.
  apply list_find_Some in Hr as (-> & _ & _).
  apply list_find_Some in Hc as (-> & ? & _). done.
Qed.

Lemma alter_cell_map_at f p rows :
  alter_cell f p rows = map_at (λ q x, if decide (q = p) then f x else x) rows.
Proof.
  destruct p as [i j]. unfold alter_cell, map_at; cbn.
  apply list_eq; intros i'. rewrite list_lookup_imap, list_lookup_alter.
  destruct (decide (i = i')) as [<-|Hi]; destruct (rows !! _) as [row|] eqn:E; cbn; try done.
  - rewrite ?E. cbn. f_equal. unfold set_cells. f_equal.
    apply list_eq; intros j'. rewrite list_lookup_imap, list_lookup_alter.
    destruct (decide (j = j')) as [<-|Hj]; destruct (cells row !! _) eqn:E'; rewrite ?E'; cbn; try done.
    + by rewrite decide_True.
    + rewrite decide_False; [done|congruence].
  - f_equal. destruct row; unfold set_cells; cbn. f_equal.
    apply list_eq; intros j'. rewrite list_lookup_imap.
    destruct (_ !! j') eqn:E'; cbn; [|done].
    rewrite decide_False; [done|congruence].
Qed.

Lemma forEach_cell_map_at f rows : forEach_cell f rows = map_at (λ _, f) rows.
Proof.
  unfold forEach_cell, map_at. apply list_eq; intros i.
  rewrite list_lookup_fmap, list_lookup_imap.
  destruct (rows !! i) as [row|]; cbn; [|done]. do 2 f_equal.
  apply list_eq; intros j. by rewrite list_lookup_fmap, list_lookup_imap.
Qed.

Lemma map_at_map_at F G rows :
  map_at F (map_at G rows) = map_at (λ q x, F q (G q x)) rows.
Proof.
  unfold map_at. apply list_eq; intros i. rewrite !list_lookup_imap.
  destruct (rows !! i) as [row|]; cbn; [|done]. f_equal. unfold set_cells; cbn. f_equal.
  apply list_eq; intros j. rewrite !list_lookup_imap. by destruct (cells row !! j).
Qed.

Lemma map_at_ext F G rows :
  (∀ q x, cell_at rows q = Some x → F q x = G q x) → map_at F rows = map_at G rows.
Proof.
  intros H. unfold map_at. apply imap_ext; intros i row Hi. cbn. f_equal.
  apply imap_ext; intros j x Hj. apply H. unfold cell_at; cbn. by rewrite Hi.
Qed.

Lemma map_at_id rows : map_at (λ _ x, x) rows = rows.
Proof.
  unfold map_at. apply list_eq; intros i. rewrite list_lookup_imap.
  destruct (rows !! i) as [row|]; cbn; [|done]. f_equal. destruct row; unfold set_cells; cbn.
  f_equal. apply list_eq; intros j. rewrite list_lookup_imap. by destruct (_ !! j).
Qed.

(** ** Statistics *)

Lemma all_cells_cons row rows : all_cells (row :: rows) = cells row ++ all_cells rows.
Proof. done. Qed.

Lemma length_bool_filter (f : CellObject → bool) (P : CellObject → Prop)
    `{!∀ c, Decision (P c)} (l : list CellObject) :
  (∀ c, f c = true ↔ P c) →
  length (List.filter f l) = length (filter P l).
Proof.
  intros Hf. induction l as [|c l IH]; [done|].
  rewrite filter_cons. cbn [List.filter].
  destruct (f c) eqn:E, (decide (P c)) as [HP|HP]; cbn [length].
  - by rewrite IH.
  - by apply Hf in E.
  - apply Hf in HP. congruence.
  - done.
Qed.

Lemma fold_left_count (g : TableRow → nat) (rows : list TableRow) (a : nat) :
  fold_left (λ sum row, sum + g row)%nat rows a = (a + sum_list (g <$> rows))%nat.
Proof.
  revert a. induction rows as [|row rows IH]; intros a; cbn; [lia|].
  rewrite IH. lia.
Qed.

Lemma sum_filter_rows (P : CellObject → Prop) `{!∀ c, Decision (P c)} rows :
  sum_list ((λ row, length (filter P (cells row))) <$> rows) = count_where P rows.
Proof.
  unfold count_where. induction rows as [|row rows IH]; [done|].
  rewrite all_cells_cons, filter_app, length_app, <-IH. done.
Qed.

Lemma sum_length_rows rows :
  sum_list ((λ row, length (cells row)) <$> rows) = length (all_cells rows).
Proof.
  induction rows as [|row rows IH]; [done|].
  rewrite all_cells_cons, length_app, <-IH. done.
Qed.

Lemma statistics_counts rows :
  updateCellStatistics rows =
  mkStats (length (all_cells rows))
          (count_where (λ c, isBlocked c = true) rows)
          (count_where (λ c, isMerged c = true ∧ isHidden c = false) rows)
          (count_where (λ c, isBlank c = true ∧ isHidden c = false) rows).
Proof.
  unfold updateCellStatistics. rewrite !fold_left_count. cbn [Nat.add]. f_equal.
  - apply sum_length_rows.
  - rewrite <-sum_filter_rows. f_equal. apply list_fmap_ext; intros _ row _.
    apply length_bool_filter. intros c. done.
  - rewrite <-sum_filter_rows. f_equal. apply list_fmap_ext; intros _ row _.
    apply length_bool_filter. intros c. destruct (isMerged c), (isHidden c); cbn; intuition congruence.
  - rewrite <-sum_filter_rows. f_equal. apply list_fmap_ext; intros _ row _.
    apply length_bool_filter. intros c. destruct (isBlank c), (isHidden c); cbn; intuition congruence.
Qed.

Lemma mutation_reports_statistics props now e st :
  tableRows (handle props now e st).1 ≠ tableRows st →
  setStatistics (updateCellStatistics (tableRows (handle props now e st).1))
    ∈ (handle props now e st).2.
Proof.
  destruct e; cbn [handle].
  - unfold loadData. repeat case_match; cbn; try done. intros _. repeat constructor.
  - unfold syncRowCountAttribute. repeat case_match; cbn; done.
  - unfold syncColumnCountAttribute. repeat case_match; cbn; done.
  - unfold initTable, createNewTable. repeat case_match; cbn; try done. intros _. repeat constructor.
  - unfold applyDimensions, createNewTable. repeat case_match; cbn; try done. intros _. repeat constructor.
  - unfold addRow. repeat case_match; cbn; try done. intros _. repeat constructor.
  - unfold addColumn. repeat case_match; cbn; try done. intros _. repeat constructor.
  - unfold handleCellValueChange.
    destruct (find_cell _ _ _) as [[p t]|]; [|done].
    destruct (autoSave props); cbn; intros _; repeat constructor.
  - unfold handleCheckboxChange.
    destruct (find_cell _ _ _) as [[p t]|]; [|done].
    destruct (autoSave props); cbn; intros _; repeat constructor.
  - unfold handleCellClick. repeat case_match; cbn; try done.
    all: repeat case_match; done.
  - unfold handleCellMouseDown. repeat case_match; cbn; done.
  - unfold handleCellMouseEnter. repeat case_match; cbn; done.
  - unfold onUp. repeat case_match; cbn; done.
  - unfold selectAllCells. repeat case_match; done.
  - done.
  - unfold mergeCells. repeat case_match; cbn; try done. intros _. repeat constructor.
  - unfold unmergeCells. repeat case_match; cbn; try done. intros _. repeat constructor.
  - unfold blankSelectedCells, write_blank. repeat case_match; cbn; try done. intros _. repeat constructor.
  - unfold unblankSelectedCells, write_blank. repeat case_match; cbn; try done. intros _. repeat constructor.
Qed.

Lemma cell_at_alter_cell f p rows q :
  cell_at (alter_cell f p rows) q = (λ x, if decide (q = p) then f x else x) <$> cell_at rows q.
Proof. by rewrite alter_cell_map_at, cell_at_map_at. Qed.

Lemma cell_at_forEach_cell f rows q :
  cell_at (forEach_cell f rows) q = f <$> cell_at rows q.
Proof. by rewrite forEach_cell_map_at, cell_at_map_at. Qed.

Lemma truthy_string_spec s : truthy_string s = true ↔ s ≠ EmptyString.
Proof. destruct s; cbn; split; congruence. Qed.

(** ** Checkbox and value edits *)

(** C4.  When the cell at (r, c) exists, toggling its checkbox writes the
    negated [checked] into [checked], [isBlocked] and [isSelected] of that
    cell and of every cell sharing its non-empty [mergeId], and touches
    nothing else; editing its text writes the new value into
    [sequenceNumber] of the same cells, changes no other field, and in
    particular leaves [isBlocked] of every cell as it was. *)
Theorem checkbox_sets_blocked_edit_keeps_it props now r c st p t :
  find_cell (tableRows st) r c = Some (p, t) →
  (∀ q x, cell_at (tableRows st) q = Some x →
     ∃ x', cell_at (tableRows (handleCheckboxChange props now r c st).1) q = Some x'
       ∧ if in_group_of p t q x
         then checked x' = negb (checked t) ∧ isBlocked x' = negb (checked t)
              ∧ isSelected x' = negb (checked t)
              ∧ x' = set_isSelected (isSelected x')
                       (set_isBlocked (isBlocked x') (set_checked (checked x') x))
         else x' = x)
  ∧ (∀ v q x, cell_at (tableRows st) q = Some x →
     ∃ x', cell_at (tableRows (handleCellValueChange props now r c v st).1) q = Some x'
       ∧ isBlocked x' = isBlocked x
       ∧ x' = set_sequenceNumber (sequenceNumber x') x
       ∧ sequenceNumber x' = if in_group_of p t q x then v else sequenceNumber x).
Proof.
  intros Hfind.
  assert (∀ rows', tableRows
    (( call (setStatistics (updateCellStatistics rows'))
      ⨾ (if autoSave props then saveToBackend now rows' (rowCount st) (columnCount st)
         else skip)
      ⨾ modify (setTableRows rows') ⨾ call onCellClick ) st).1 = rows') as Hrows.
  { intros rows'. by destruct (autoSave props). }
  split.
  - intros q x Hx. unfold handleCheckboxChange. rewrite Hfind, Hrows.
    unfold in_group_of.
    destruct (truthy_string (mergeId t)); cbn [andb orb];
      rewrite ?cell_at_forEach_cell, cell_at_alter_cell, Hx; cbn;
      (eexists; split; [done|]); rewrite ?orb_false_r;
      repeat (case_decide || case_bool_decide); subst; cbn in *;
      try done; destruct x; cbn in *; done.
  - intros v q x Hx. unfold handleCellValueChange. rewrite Hfind, Hrows.
    unfold in_group_of.
    destruct (truthy_string (mergeId t)); cbn [andb orb];
      rewrite ?cell_at_forEach_cell, cell_at_alter_cell, Hx; cbn;
      (eexists; split; [done|]); rewrite ?orb_false_r;
      repeat (case_decide || case_bool_decide); subst; cbn in *;
      try done; destruct x; cbn in *; done.
Qed.

(** ** Selection sets *)

Lemma elem_of_set_add x y s : y ∈ set_add x s ↔ y = x ∨ y ∈ s.
Proof.
  unfold set_add. case_decide.
  - split; [by right|]. by intros [->|?].
  - rewrite elem_of_app, list_elem_of_singleton. tauto.
Qed.

Lemma NoDup_set_add x s : NoDup s → NoDup (set_add x s).
Proof.
  intros Hs. unfold set_add. case_decide; [done|].
  apply NoDup_app. split_and!; [done| |apply NoDup_singleton].
  intros y Hy ->%list_elem_of_singleton. done.
Qed.

Lemma elem_of_add_all l s y : y ∈ add_all l s ↔ y ∈ s ∨ y ∈ l.
Proof.
  unfold add_all. revert s. induction l as [|x l IH]; intros s; cbn.
  - rewrite elem_of_nil. tauto.
  - rewrite IH, elem_of_set_add, elem_of_cons. tauto.
Qed.

Lemma NoDup_add_all l s : NoDup s → NoDup (add_all l s).
Proof.
  unfold add_all. revert s. induction l as [|x l IH]; intros s Hs; cbn; [done|].
  apply IH. by apply NoDup_set_add.
Qed.

Lemma add_all_fresh l s : NoDup (s ++ l) → add_all l s = s ++ l.
Proof.
  unfold add_all. revert s. induction l as [|x l IH]; intros s Hs; cbn.
  - by rewrite app_nil_r.
  - assert (set_add x s = s ++ [x]) as ->.
    { unfold set_add. rewrite decide_False; [done|].
      apply NoDup_app in Hs as (_ & Hs & _). intros Hx. apply (Hs x Hx). by left. }
    rewrite IH; rewrite <-app_assoc; done.
Qed.

Lemma elem_of_rect_ids minRow maxRow minCol maxCol r c :
  cell_ r c ∈ rect_ids minRow maxRow minCol maxCol
  ↔ minRow ≤ r ≤ maxRow ∧ minCol ≤ c ≤ maxCol.
Proof.
  unfold rect_ids. rewrite list_elem_of_bind. split.
  - intros (r' & (c' & [= -> ->]%list_elem_of_singleton & Hc%elem_of_seqZ)%list_elem_of_bind
              & Hr%elem_of_seqZ). lia.
  - intros [Hr Hc]. exists r. rewrite list_elem_of_bind. split.
    + exists c. rewrite list_elem_of_singleton, elem_of_seqZ. split; [done|lia].
    + rewrite elem_of_seqZ. lia.
Qed.

Lemma NoDup_rect_ids minRow maxRow minCol maxCol :
  NoDup (rect_ids minRow maxRow minCol maxCol).
Proof.
  unfold rect_ids. apply NoDup_bind; [| |apply NoDup_seqZ].
  - intros r1 r2 y _ _
      (c1 & [= -> ]%list_elem_of_singleton & _)%list_elem_of_bind
      (c2 & [= ? ? ]%list_elem_of_singleton & _)%list_elem_of_bind. done.
  - intros r _. apply NoDup_bind; [| |apply NoDup_seqZ].
    + intros c1 c2 y _ _ [= -> ]%list_elem_of_singleton [= ? ]%list_elem_of_singleton. done.
    + intros c _. apply NoDup_singleton.
Qed.

Lemma fold_left_ext {A B : Type} (f g : A → B → A) (l : list B) (a : A) :
  (∀ acc x, x ∈ l → f acc x = g acc x) → fold_left f l a = fold_left g l a.
Proof.
  revert a. induction l as [|x l IH]; intros a H; [done|]. cbn.
  rewrite H by left. apply IH. intros acc y Hy. apply H. by right.
Qed.

Lemma for_range_nested {S : Type} (body : Z → Z → S → S) minRow maxRow minCol maxCol s :
  for_range minRow maxRow (λ r, for_range minCol maxCol (λ c, body r c)) s
  = fold_left (λ acc i, body (id_row i) (id_col i) acc)
              (rect_ids minRow maxRow minCol maxCol) s.
Proof.
  unfold for_range, rect_ids.
  generalize (seqZ minRow (maxRow - minRow + 1)) as lr.
  generalize (seqZ minCol (maxCol - minCol + 1)) as lc.
  intros lc lr. revert s. induction lr as [|r lr IH]; intros s; [done|].
  cbn [fold_left]. rewrite IH. cbn [mbind list_bind]. rewrite fold_left_app. f_equal.
  generalize s. clear. induction lc as [|c lc IH]; intros s; [done|].
  cbn. by rewrite IH.
Qed.

Lemma for_range_nested_add minRow maxRow minCol maxCol s :
  for_range minRow maxRow (λ r, for_range minCol maxCol (λ c, set_add (cell_ r c))) s
  = add_all (rect_ids minRow maxRow minCol maxCol) s.
Proof.
  rewrite (for_range_nested (λ r c, set_add (cell_ r c))). unfold add_all.
  apply fold_left_ext. by intros acc [r c] _.
Qed.

Lemma getRectangularSelection_rect_ids r0 c0 r1 c1 :
  getRectangularSelection r0 c0 r1 c1
  = rect_ids (Z.min r0 r1) (Z.max r0 r1) (Z.min c0 c1) (Z.max c0 c1).
Proof.
  unfold getRectangularSelection. rewrite for_range_nested_add.
  apply (add_all_fresh _ []). apply NoDup_rect_ids.
Qed.

(** ** Drag selection *)

(** C7.  [getRectangularSelection] returns, without duplicates, exactly the
    ids of the inclusive rectangle between the two corners; it never looks at
    the grid.  A mouse-down that starts a drag records the selection of that
    moment as the restore point, and entering a cell while dragging makes the
    selection the union of that restore point and the rectangle.  Dragging
    from (2,2) to (4,1) with nothing selected before selects the six cells of
    rows 2-4, columns 1-2. *)
Theorem drag_selects_rectangle_over_restore_point :
  (∀ r0 c0 r1 c1,
     NoDup (getRectangularSelection r0 c0 r1 c1)
     ∧ ∀ r c, cell_ r c ∈ getRectangularSelection r0 c0 r1 c1
              ↔ Z.min r0 r1 ≤ r ≤ Z.max r0 r1 ∧ Z.min c0 c1 ≤ c ≤ Z.max c0 c1)
  ∧ (∀ props st r0 c0 ev,
       isSelectionAllowed props = true → target_is_input ev = false →
       let st1 := (handleCellMouseDown props r0 c0 ev st).1 in
       isDragging st1 = true ∧ dragStartCell st1 = Some (r0, c0)
       ∧ preSelectionRef st1 = selectedCells st
       ∧ tableRows st1 = tableRows st
       ∧ ∀ r1 c1 i,
           i ∈ selectedCells (handleCellMouseEnter r1 c1 st1).1
           ↔ i ∈ selectedCells st ∨ i ∈ getRectangularSelection r0 c0 r1 c1)
  ∧ (∀ props st ev,
       isSelectionAllowed props = true → target_is_input ev = false →
       selectedCells st = [] →
       selectedCells (handleCellMouseEnter 4 1 (handleCellMouseDown props 2 2 ev st).1).1
       = [cell_ 2 1; cell_ 2 2; cell_ 3 1; cell_ 3 2; cell_ 4 1; cell_ 4 2]).
Proof.
  split_and!.
  - intros r0 c0 r1 c1. rewrite getRectangularSelection_rect_ids. split.
    + apply NoDup_rect_ids.
    + intros r c. apply elem_of_rect_ids.
  - intros props st r0 c0 ev Hallow Hinput. unfold handleCellMouseDown.
    rewrite Hallow, Hinput. cbn [negb].
    destruct (shiftKey ev); cbn; (split_and!; [done..|]);
      intros r1 c1 i; apply elem_of_add_all.
  - intros props st ev Hallow Hinput Hsel. unfold handleCellMouseDown.
    rewrite Hallow, Hinput. cbn [negb].
    destruct (shiftKey ev); cbn; rewrite Hsel; reflexivity.
Qed.

(** ** Bounding rectangle of a selection *)

Lemma fold_min_le l a :
  fold_left Z.min l a ≤ a ∧ ∀ x, x ∈ l → fold_left Z.min l a ≤ x.
Proof.
  revert a. induction l as [|y l IH]; intros a; cbn.
  - split; [lia|]. by intros x ?%elem_of_nil.
  - destruct (IH (Z.min a y)) as [IH1 IH2]. split; [lia|].
    intros x [->|Hx]%elem_of_cons; [lia|by apply IH2].
Qed.

Lemma fold_max_ge l a :
  a ≤ fold_left Z.max l a ∧ ∀ x, x ∈ l → x ≤ fold_left Z.max l a.
Proof.
  revert a. induction l as [|y l IH]; intros a; cbn.
  - split; [lia|]. by intros x ?%elem_of_nil.
  - destruct (IH (Z.max a y)) as [IH1 IH2]. split; [lia|].
    intros x [->|Hx]%elem_of_cons; [lia|by apply IH2].
Qed.

Lemma Math_min_le l x : x ∈ l → Math_min l ≤ x.
Proof.
  destruct l as [|a l]; [by intros ?%elem_of_nil|].
  unfold Math_min. destruct (fold_min_le l a) as [H1 H2].
  intros [->|H]%elem_of_cons; [done|by apply H2].
Qed.

Lemma Math_max_ge l x : x ∈ l → x ≤ Math_max l.
Proof.
  destruct l as [|a l]; [by intros ?%elem_of_nil|].
  unfold Math_max. destruct (fold_max_ge l a) as [H1 H2].
  intros [->|H]%elem_of_cons; [done|by apply H2].
Qed.

Lemma selection_in_bounding_rectangle sel i :
  i ∈ sel →
  bounding_minRow sel ≤ id_row i ≤ bounding_maxRow sel
  ∧ bounding_minCol sel ≤ id_col i ≤ bounding_maxCol sel.
Proof.
  intros Hi. unfold bounding_minRow, bounding_maxRow, bounding_minCol, bounding_maxCol.
  split_and!; (apply Math_min_le || apply Math_max_ge); by apply list_elem_of_fmap_2.
Qed.

Lemma positions_rows (sel : list CellId) :
  fst <$> ((λ i, (id_row i, id_col i)) <$> sel) = id_row <$> sel.
Proof. rewrite <-list_fmap_compose. done. Qed.

Lemma positions_cols (sel : list CellId) :
  snd <$> ((λ i, (id_row i, id_col i)) <$> sel) = id_col <$> sel.
Proof. rewrite <-list_fmap_compose. done. Qed.

Lemma bounding_rectangle_nonempty sel :
  sel ≠ [] →
  bounding_minRow sel ≤ bounding_maxRow sel ∧ bounding_minCol sel ≤ bounding_maxCol sel.
Proof.
  destruct sel as [|i sel]; [done|]. intros _.
  destruct (selection_in_bounding_rectangle (i :: sel) i) as [? ?]; [by left|]. lia.
Qed.

(** *** The size guard of [mergeCells] singles out the rectangles *)

Lemma fold_min_elem l a : fold_left Z.min l a ∈ a :: l.
Proof.
  revert a. induction l as [|y l IH]; intros a; cbn; [by left|].
  specialize (IH (Z.min a y)). apply elem_of_cons in IH as [->|IH].
  - destruct (Z.min_spec a y) as [[_ ->]|[_ ->]]; [by left|right; by left].
  - right. by right.
Qed.

Lemma fold_max_elem l a : fold_left Z.max l a ∈ a :: l.
Proof.
  revert a. induction l as [|y l IH]; intros a; cbn; [by left|].
  specialize (IH (Z.max a y)). apply elem_of_cons in IH as [->|IH].
  - destruct (Z.max_spec a y) as [[_ ->]|[_ ->]]; [right; by left|by left].
  - right. by right.
Qed.

Lemma Math_min_is l m : m ∈ l → (∀ x, x ∈ l → m ≤ x) → Math_min l = m.
Proof.
  intros Hm Hlow. destruct l as [|a l]; [by apply elem_of_nil in Hm|].
  pose proof (fold_min_elem l a) as Hin. pose proof (Math_min_le (a :: l) m Hm) as Hle.
  unfold Math_min in *. specialize (Hlow _ Hin). lia.
Qed.

Lemma Math_max_is l m : m ∈ l → (∀ x, x ∈ l → x ≤ m) → Math_max l = m.
Proof.
  intros Hm Hup. destruct l as [|a l]; [by apply elem_of_nil in Hm|].
  pose proof (fold_max_elem l a) as Hin. pose proof (Math_max_ge (a :: l) m Hm) as Hle.
  unfold Math_max in *. specialize (Hup _ Hin). lia.
Qed.

Lemma length_bind_const {A B : Type} (f : A → list B) (l : list A) (n : nat) :
  (∀ x, length (f x) = n) → length (l ≫= f) = (length l * n)%nat.
Proof.
  intros Hf. induction l as [|x l IH]; [done|].
  cbn [mbind list_bind]. rewrite length_app. fold (l ≫= f). rewrite IH, Hf. cbn. lia.
Qed.

Lemma length_rect_ids minRow maxRow minCol maxCol :
  length (rect_ids minRow maxRow minCol maxCol)
  = (Z.to_nat (maxRow - minRow + 1) * Z.to_nat (maxCol - minCol + 1))%nat.
Proof.
  unfold rect_ids.
  rewrite (length_bind_const _ _ (Z.to_nat (maxCol - minCol + 1))).
  - by rewrite length_seqZ.
  - intros r. rewrite (length_bind_const _ _ 1%nat) by done. rewrite length_seqZ. lia.
Qed.

Lemma rectangle_passes_size_guard sel minRow maxRow minCol maxCol :
  minRow ≤ maxRow → minCol ≤ maxCol →
  sel ≡ₚ rect_ids minRow maxRow minCol maxCol →
  bounding_minRow sel = minRow ∧ bounding_maxRow sel = maxRow
  ∧ bounding_minCol sel = minCol ∧ bounding_maxCol sel = maxCol
  ∧ Z.of_nat (length sel) = bounding_count sel.
Proof.
  intros Hr Hc Hperm.
  assert (∀ r c, cell_ r c ∈ sel ↔ minRow ≤ r ≤ maxRow ∧ minCol ≤ c ≤ maxCol) as Hin.
  { intros r c. rewrite Hperm. apply elem_of_rect_ids. }
  assert (∀ x, x ∈ id_row <$> sel → minRow ≤ x ≤ maxRow) as Hrows.
  { intros x ([r c] & -> & Hi%Hin)%list_elem_of_fmap. cbn. lia. }
  assert (∀ x, x ∈ id_col <$> sel → minCol ≤ x ≤ maxCol) as Hcols.
  { intros x ([r c] & -> & Hi%Hin)%list_elem_of_fmap. cbn. lia. }
  assert (bounding_minRow sel = minRow) as E1.
  { apply Math_min_is; [|intros x Hx; apply Hrows in Hx; lia].
    apply list_elem_of_fmap. exists (cell_ minRow minCol). split; [done|]. apply Hin. lia. }
  assert (bounding_maxRow sel = maxRow) as E2.
  { apply Math_max_is; [|intros x Hx; apply Hrows in Hx; lia].
    apply list_elem_of_fmap. exists (cell_ maxRow minCol). split; [done|]. apply Hin. lia. }
  assert (bounding_minCol sel = minCol) as E3.
  { apply Math_min_is; [|intros x Hx; apply Hcols in Hx; lia].
    apply list_elem_of_fmap. exists (cell_ minRow minCol). split; [done|]. apply Hin. lia. }
  assert (bounding_maxCol sel = maxCol) as E4.
  { apply Math_max_is; [|intros x Hx; apply Hcols in Hx; lia].
    apply list_elem_of_fmap. exists (cell_ minRow maxCol). split; [done|]. apply Hin. lia. }
  split_and!; try done.
  unfold bounding_count. rewrite E1, E2, E3, E4, Hperm, length_rect_ids. lia.
Qed.

Lemma size_guard_means_rectangle sel :
  NoDup sel → sel ≠ [] →
  Z.of_nat (length sel) = bounding_count sel →
  sel ≡ₚ rect_ids (bounding_minRow sel) (bounding_maxRow sel)
                  (bounding_minCol sel) (bounding_maxCol sel).
Proof.
  intros Hnd Hne Hcount.
  destruct (bounding_rectangle_nonempty sel Hne) as [Hr Hc].
  apply submseteq_length_Permutation.
  - apply NoDup_submseteq; [done|]. intros [r c] Hi. apply elem_of_rect_ids.
    by apply (selection_in_bounding_rectangle sel (cell_ r c)).
  - rewrite length_rect_ids. unfold bounding_count in Hcount. nia.
Qed.

(** ** Merge guards *)

(** C10.  With fewer than two cells selected [mergeCells] returns the state
    unchanged and makes no call on the host. *)
Theorem merge_below_two_is_silent now st :
  (length (selectedCells st) < 2)%nat → mergeCells now st = (st, []).
Proof. intros H. unfold mergeCells. by rewrite decide_True. Qed.

(** C3.  A selection of at least two cells whose size differs from the cell
    count of its bounding rectangle makes [mergeCells] raise the alert and
    return the state as it was: no cell, no selection member and no mode
    changes. *)
Theorem merge_rejects_non_rectangle now st :
  (2 ≤ length (selectedCells st))%nat →
  Z.of_nat (length (selectedCells st)) ≠ bounding_count (selectedCells st) →
  mergeCells now st = (st, [alert "Please select a rectangular area to merge"]).
Proof.
  intros H2 Hne. unfold mergeCells.
  rewrite decide_False by lia. rewrite positions_rows, positions_cols.
  by rewrite decide_True.
Qed.

(** ** Blank and unblank *)

Lemma blank_at_map_at v rows i :
  blank_at v rows i
  = map_at (λ q x, if blank_hits rows i q x then set_isBlank v x else x) rows.
Proof.
  unfold blank_at, blank_hits.
  destruct (find_cell _ _ _) as [[p o]|]; [|by rewrite map_at_id].
  destruct (isHidden o); cbn [negb andb]; [by rewrite map_at_id|].
  unfold in_group_of.
  destruct (truthy_string (mergeId o)); cbn [andb].
  - rewrite forEach_cell_map_at, alter_cell_map_at, map_at_map_at.
    apply map_at_ext. intros q x _.
    repeat (case_decide || case_bool_decide); subst; cbn in *;
      try done; destruct x; cbn in *; done.
  - rewrite alter_cell_map_at. apply map_at_ext. intros q x _.
    rewrite orb_false_r. repeat (case_decide || case_bool_decide); congruence.
Qed.

Lemma blank_hits_stable v rows i j q x :
  blank_hits (blank_at v rows i) j q
             (if blank_hits rows i q x then set_isBlank v x else x)
  = blank_hits rows j q x.
Proof.
  rewrite blank_at_map_at.
  set (F := λ q x, if blank_hits rows i q x then set_isBlank v x else x).
  change (blank_hits (map_at F rows) j q (F q x) = blank_hits rows j q x).
  assert (∀ q y, columnIndex (F q y) = columnIndex y ∧ isHidden (F q y) = isHidden y
                 ∧ mergeId (F q y) = mergeId y) as HF.
  { intros q' y. unfold F. by destruct (blank_hits _ _ _ _), y. }
  unfold blank_hits. rewrite find_cell_map_at by apply HF.
  destruct (find_cell rows (id_row j) (id_col j)) as [[p o]|]; cbn; [|done].
  unfold in_group_of.
  destruct (HF p o) as (_ & -> & ->). destruct (HF q x) as (_ & _ & ->). done.
Qed.

Lemma blank_reaches_stable v rows i sel q x :
  blank_reaches (blank_at v rows i) sel q
                (if blank_hits rows i q x then set_isBlank v x else x)
  = blank_reaches rows sel q x.
Proof.
  unfold blank_reaches. induction sel as [|j sel IH]; [done|].
  cbn [existsb]. by rewrite blank_hits_stable, IH.
Qed.

Lemma fold_blank_at_map_at v sel rows :
  fold_left (blank_at v) sel rows
  = map_at (λ q x, if blank_reaches rows sel q x then set_isBlank v x else x) rows.
Proof.
  revert rows. induction sel as [|i sel IH]; intros rows; cbn [fold_left].
  - by rewrite map_at_id.
  - rewrite IH.
    trans (map_at (λ q x, if blank_reaches (blank_at v rows i) sel q x
                          then set_isBlank v x else x)
                  (map_at (λ q x, if blank_hits rows i q x then set_isBlank v x else x) rows)).
    { f_equal. apply blank_at_map_at. }
    rewrite map_at_map_at. apply map_at_ext. intros q x _.
    rewrite blank_reaches_stable.
    change (blank_reaches rows (i :: sel) q x)
      with (blank_hits rows i q x || blank_reaches rows sel q x).
    destruct (blank_hits rows i q x), (blank_reaches rows sel q x); cbn; try done.
Qed.

Lemma blank_reaches_spec rows sel q x :
  blank_reaches rows sel q x = true
  ↔ ∃ i p o, i ∈ sel ∧ find_cell rows (id_row i) (id_col i) = Some (p, o)
             ∧ isHidden o = false
             ∧ (q = p ∨ (mergeId o ≠ EmptyString ∧ mergeId x = mergeId o)).
Proof.
  assert (∀ i, blank_hits rows i q x = true
               ↔ ∃ p o, find_cell rows (id_row i) (id_col i) = Some (p, o)
                        ∧ isHidden o = false
                        ∧ (q = p ∨ (mergeId o ≠ EmptyString ∧ mergeId x = mergeId o))) as Hhit.
  { intros i. unfold blank_hits, in_group_of.
    destruct (find_cell rows (id_row i) (id_col i)) as [[p o]|].
    - rewrite andb_true_iff, negb_true_iff, orb_true_iff, andb_true_iff,
        !bool_decide_eq_true, truthy_string_spec.
      split.
      + intros [? ?]. by exists p, o.
      + by intros (? & ? & [= <- <-] & ? & ?).
    - split; [done|]. by intros (? & ? & ? & _). }
  unfold blank_reaches. induction sel as [|j sel IH]; cbn [existsb].
  - split; [done|]. by intros (i & ? & ? & ?%elem_of_nil & _).
  - rewrite orb_true_iff, Hhit, IH. split.
    + intros [(p & o & ?)|(i & p & o & ? & ?)].
      * exists j, p, o. split; [by left|done].
      * exists i, p, o. split; [by right|done].
    + intros (i & p & o & [->|?]%elem_of_cons & ?).
      * left. by exists p, o.
      * right. by exists i, p, o.
Qed.

(** C8.  With a non-empty selection, [blankSelectedCells] ([v = true]) and
    [unblankSelectedCells] ([v = false]) empty the selection and leave
    selection mode.  Every cell stays at its position; its [isBlank] is [v]
    when the cell is reached by some selected id, and is what it was
    otherwise; each of its twelve other fields is what it was.  A cell is
    reached when some selected id names a cell that exists and is not hidden,
    and the cell is that one or shares its non-empty [mergeId].  Ids of
    hidden or missing cells contribute nothing. *)
Theorem blank_unblank_selected now (v : bool) st :
  selectedCells st ≠ [] →
  let st' := ((if v then blankSelectedCells now else unblankSelectedCells now) st).1 in
  selectedCells st' = [] ∧ isSelectionMode st' = false
  ∧ (∀ q x, cell_at (tableRows st) q = Some x →
       ∃ x', cell_at (tableRows st') q = Some x'
             ∧ isBlank x' = (if blank_reaches (tableRows st) (selectedCells st) q x
                             then v else isBlank x)
             ∧ id x' = id x ∧ sequenceNumber x' = sequenceNumber x
             ∧ isBlocked x' = isBlocked x ∧ isMerged x' = isMerged x
             ∧ mergeId x' = mergeId x ∧ rowIndex x' = rowIndex x
             ∧ columnIndex x' = columnIndex x ∧ checked x' = checked x
             ∧ isSelected x' = isSelected x ∧ rowSpan x' = rowSpan x
             ∧ colSpan x' = colSpan x ∧ isHidden x' = isHidden x)
  ∧ (∀ q, cell_at (tableRows st) q = None → cell_at (tableRows st') q = None)
  ∧ (∀ q x, blank_reaches (tableRows st) (selectedCells st) q x = true
            ↔ ∃ i p o, i ∈ selectedCells st
                       ∧ find_cell (tableRows st) (id_row i) (id_col i) = Some (p, o)
                       ∧ isHidden o = false
                       ∧ (q = p ∨ (mergeId o ≠ EmptyString ∧ mergeId x = mergeId o))).
Proof.
  intros Hsel.
  assert ((if v then blankSelectedCells now else unblankSelectedCells now)
          = write_blank now v) as -> by by destruct v.
  unfold write_blank. destruct (selectedCells st) as [|i sel] eqn:E; [done|].
  cbn -[fold_left blank_reaches]. split_and!; [done..| | |].
  - intros q x Hq. rewrite fold_blank_at_map_at, cell_at_map_at, Hq. cbn -[blank_reaches].
    eexists; split; [done|].
    by destruct (blank_reaches (tableRows st) (i :: sel) q x), x.
  - intros q Hq. by rewrite fold_blank_at_map_at, cell_at_map_at, Hq.
  - intros q x. apply blank_reaches_spec.
Qed.

(** ** Merge *)

Lemma alter_cell_ext f g p rows :
  (∀ x, cell_at rows p = Some x → f x = g x) → alter_cell f p rows = alter_cell g p rows.
Proof.
  intros H. rewrite !alter_cell_map_at. apply map_at_ext. intros q x Hx.
  case_decide; [subst; by apply H|done].
Qed.

Lemma alter_cell_alter_cell f g p rows :
  alter_cell f p (alter_cell g p rows) = alter_cell (λ x, f (g x)) p rows.
Proof.
  rewrite !alter_cell_map_at, map_at_map_at. apply map_at_ext. intros q x _.
  by case_decide.
Qed.

Lemma assign_from_after {A} src (get : CellObject → A) set dst g rows t :
  cell_at rows src = Some t →
  assign_from src get set dst (alter_cell g dst rows)
  = alter_cell (λ x, set (get (if decide (src = dst) then g t else t)) (g x)) dst rows.
Proof.
  intros Ht. unfold assign_from. rewrite cell_at_alter_cell, Ht. cbn.
  by rewrite alter_cell_alter_cell.
Qed.

Lemma alter_cell_id p rows : alter_cell (λ x, x) p rows = rows.
Proof.
  rewrite alter_cell_map_at. rewrite <-(map_at_id rows) at 2. apply map_at_ext.
  intros q x _. by case_decide.
Qed.

Lemma merge_at_effect tl mergeId minRow maxRow minCol maxCol r c rows p x0 t :
  find_cell rows r c = Some (p, x0) → cell_at rows tl = Some t →
  merge_at tl mergeId minRow maxRow minCol maxCol r c rows
  = alter_cell (merge_write t mergeId ((r =? minRow)%Z && (c =? minCol)%Z)
                            (maxRow - minRow + 1) (maxCol - minCol + 1)) p rows.
Proof.
  intros Hfind Ht. unfold merge_at. rewrite Hfind.
  apply find_cell_Some in Hfind as [Hp _].
  replace (assign_from tl sequenceNumber set_sequenceNumber p rows)
    with (alter_cell (set_sequenceNumber (sequenceNumber t)) p rows)
    by (unfold assign_from; by rewrite Ht).
  repeat match goal with
         | |- context [assign_from tl ?get ?set p (alter_cell ?g p rows)] =>
             rewrite (assign_from_after tl get set p g rows t Ht)
         end.
  destruct ((r =? minRow)%Z && (c =? minCol)%Z);
    rewrite !alter_cell_alter_cell; apply alter_cell_ext; intros x Hx;
    (case_decide; [subst; assert (t = x) as -> by congruence|]);
    destruct x; try destruct t; reflexivity.
Qed.

Lemma keeps_content_unmerge_group oldId : keeps_content (unmerge_group oldId).
Proof. intros x. unfold unmerge_group. case_decide; by destruct x. Qed.

Lemma forEach_cell_forEach_cell f g rows :
  forEach_cell f (forEach_cell g rows) = forEach_cell (λ x, f (g x)) rows.
Proof. rewrite !forEach_cell_map_at, map_at_map_at. done. Qed.

Lemma forEach_cell_id rows : forEach_cell (λ x, x) rows = rows.
Proof. rewrite forEach_cell_map_at. apply map_at_id. Qed.

Lemma find_cell_forEach_cell D rows r c :
  (∀ x, columnIndex (D x) = columnIndex x) →
  find_cell (forEach_cell D rows) r c = (λ qx, (qx.1, D qx.2)) <$> find_cell rows r c.
Proof. intros HD. rewrite forEach_cell_map_at. by rewrite find_cell_map_at. Qed.

Lemma dissolve_loop ids rows :
  ∃ D, fold_left (λ acc i, dissolve_at (id_row i) (id_col i) acc) ids rows
       = forEach_cell D rows ∧ keeps_content D.
Proof.
  revert rows. induction ids as [|i ids IH]; intros rows; cbn [fold_left].
  - exists (λ x, x). by rewrite forEach_cell_id.
  - assert (∃ D1, dissolve_at (id_row i) (id_col i) rows = forEach_cell D1 rows
                  ∧ keeps_content D1) as (D1 & -> & H1).
    { unfold dissolve_at. destruct (find_cell _ _ _) as [[p cell]|].
      - destruct (_ && _).
        + eexists; split; [done|]. apply keeps_content_unmerge_group.
        + exists (λ x, x). by rewrite forEach_cell_id.
      - exists (λ x, x). by rewrite forEach_cell_id. }
    destruct (IH (forEach_cell D1 rows)) as (D2 & -> & H2).
    exists (λ x, D2 (D1 x)). rewrite forEach_cell_forEach_cell. split; [done|].
    intros x. destruct (H1 x) as (?&?&?&?&?&?&?&?), (H2 (D1 x)) as (?&?&?&?&?&?&?&?).
    split_and!; congruence.
Qed.

Lemma dissolve_loop_unmerged ids rows :
  (∀ q x, cell_at rows q = Some x → isMerged x = false) →
  fold_left (λ acc i, dissolve_at (id_row i) (id_col i) acc) ids rows = rows.
Proof.
  intros Hun. induction ids as [|i ids IH]; cbn [fold_left]; [done|].
  assert (dissolve_at (id_row i) (id_col i) rows = rows) as ->; [|done].
  unfold dissolve_at. destruct (find_cell _ _ _) as [[p cell]|] eqn:E; [|done].
  apply find_cell_Some in E as [E _]. by rewrite (Hun _ _ E).
Qed.

Lemma merge_loop tl mergeId' minRow maxRow minCol maxCol ids rows t :
  cell_at rows tl = Some t →
  ∃ F, fold_left (λ acc i, merge_at tl mergeId' minRow maxRow minCol maxCol
                                     (id_row i) (id_col i) acc) ids rows
       = map_at F rows
     ∧ (∀ q x, columnIndex (F q x) = columnIndex x)
     ∧ same_source t (F tl t)
     ∧ (∀ i q x0 x, i ∈ ids → find_cell rows (id_row i) (id_col i) = Some (q, x0) →
          merged_from t mergeId' (F q x))
     ∧ (∀ q x, (∀ i x0, i ∈ ids → find_cell rows (id_row i) (id_col i) ≠ Some (q, x0)) →
          F q x = x).
Proof.
  intros Ht. induction ids as [|i ids IH] using rev_ind.
  - exists (λ _ x, x). rewrite map_at_id. split_and!; try done.
    intros i q x0 x Hi. by apply elem_of_nil in Hi.
  - destruct IH as (F & HF & Hcol & Hsrc & Hhit & Hmiss).
    rewrite fold_left_app. cbn [fold_left]. rewrite HF.
    destruct (find_cell rows (id_row i) (id_col i)) as [[p x0]|] eqn:Hfind.
    + assert (find_cell (map_at F rows) (id_row i) (id_col i) = Some (p, F p x0)) as Hfind'.
      { rewrite find_cell_map_at by done. by rewrite Hfind. }
      assert (cell_at (map_at F rows) tl = Some (F tl t)) as Ht'.
      { by rewrite cell_at_map_at, Ht. }
      rewrite (merge_at_effect _ _ _ _ _ _ _ _ _ _ _ _ Hfind' Ht').
      set (W := merge_write (F tl t) mergeId' _ _ _).
      exists (λ q x, if decide (q = p) then W (F q x) else F q x).
      assert (∀ y, merged_from t mergeId' (W y)) as HW.
      { intros y. destruct Hsrc as (?&?&?&?). unfold W, merged_from. cbn. done. }
      split_and!.
      * rewrite alter_cell_map_at, map_at_map_at. done.
      * intros q x. case_decide; [|done]. unfold W. cbn. apply Hcol.
      * case_decide; [|done]. destruct (HW (F tl t)) as (?&?&?&?&?&?&?). done.
      * intros j q y0 x [Hj| ->%list_elem_of_singleton]%elem_of_app Hq.
        -- case_decide; [apply HW|]. by eapply Hhit.
        -- rewrite Hfind in Hq. injection Hq as <- <-. by rewrite decide_True.
      * intros q x Hq. rewrite decide_False.
        -- apply Hmiss. intros j y0 Hj. apply Hq. apply elem_of_app. by left.
        -- intros ->. apply (Hq i x0); [|done]. apply elem_of_app. right. by left.
    + assert (find_cell (map_at F rows) (id_row i) (id_col i) = None) as Hfind'.
      { rewrite find_cell_map_at by done. by rewrite Hfind. }
      unfold merge_at at 1. rewrite Hfind'.
      exists F. split_and!; try done.
      * intros j q y0 x [Hj| ->%list_elem_of_singleton]%elem_of_app Hq.
        -- by eapply Hhit.
        -- congruence.
      * intros q x Hq. apply Hmiss. intros j y0 Hj. apply Hq. apply elem_of_app. by left.
Qed.

Lemma mergeCells_success now st tl t0 :
  let sel := selectedCells st in
  (2 ≤ length sel)%nat →
  Z.of_nat (length sel) = bounding_count sel →
  find_cell (tableRows st) (bounding_minRow sel) (bounding_minCol sel) = Some (tl, t0) →
  ∃ D F,
    keeps_content D
    ∧ tableRows (mergeCells now st).1 = map_at F (forEach_cell D (tableRows st))
    ∧ selectedCells (mergeCells now st).1 = [cell_ (bounding_minRow sel) (bounding_minCol sel)]
    ∧ (∀ q x, columnIndex (F q x) = columnIndex x)
    ∧ (∀ r c q x0 x,
         bounding_minRow sel ≤ r ≤ bounding_maxRow sel →
         bounding_minCol sel ≤ c ≤ bounding_maxCol sel →
         find_cell (tableRows st) r c = Some (q, x0) →
         merged_from t0 (createMergeId (bounding_minRow sel) (bounding_minCol sel)
                                       (bounding_maxRow sel) (bounding_maxCol sel))
                     (F q x)).
Proof.
  intros sel Hlen Hcount Htl. unfold mergeCells. fold sel.
  rewrite decide_False by lia. rewrite positions_rows, positions_cols.
  fold (bounding_minRow sel) (bounding_maxRow sel) (bounding_minCol sel) (bounding_maxCol sel).
  rewrite decide_False by (intros Hne; by apply Hne).
  rewrite (for_range_nested dissolve_at).
  destruct (dissolve_loop
              (rect_ids (bounding_minRow sel) (bounding_maxRow sel)
                        (bounding_minCol sel) (bounding_maxCol sel)) (tableRows st))
    as (D & -> & HD).
  assert (∀ x, columnIndex (D x) = columnIndex x) as HDcol by (intros x; apply HD).
  rewrite find_cell_forEach_cell, Htl by done. cbn [fmap option_fmap option_map fst snd].
  rewrite (for_range_nested (merge_at tl _ _ _ _ _)).
  assert (cell_at (forEach_cell D (tableRows st)) tl = Some (D t0)) as Ht1.
  { apply find_cell_Some in Htl as [Htl _]. by rewrite cell_at_forEach_cell, Htl. }
  destruct (merge_loop tl
              (createMergeId (bounding_minRow sel) (bounding_minCol sel)
                             (bounding_maxRow sel) (bounding_maxCol sel))
              (bounding_minRow sel) (bounding_maxRow sel)
              (bounding_minCol sel) (bounding_maxCol sel)
              (rect_ids (bounding_minRow sel) (bounding_maxRow sel)
                        (bounding_minCol sel) (bounding_maxCol sel))
              _ _ Ht1) as (F & -> & Hcol & _ & Hhit & _).
  exists D, F. split_and!; [done..|].
  intros r c q x0 x Hr Hc Hfind.
  assert (merged_from (D t0)
            (createMergeId (bounding_minRow sel) (bounding_minCol sel)
                           (bounding_maxRow sel) (bounding_maxCol sel)) (F q x)) as Hm.
  { apply (Hhit (cell_ r c) q (D x0) x).
    - by apply elem_of_rect_ids.
    - cbn. rewrite find_cell_forEach_cell by done. by rewrite Hfind. }
  destruct (HD t0) as (_&?&?&?&_&_&?&_), Hm as (?&?&?&?&?&?&?).
  unfold merged_from. split_and!; congruence.
Qed.

(** C9.  After a merge that passes both guards and finds its top-left cell
    [t0], every cell of the rectangle, anchor or hidden member, has
    [isSelected] equal to the pre-merge [isBlocked] of [t0], and [checked] and
    [isBlocked] equal to those of [t0]; so [isSelected] equals [checked] there
    exactly when [t0] had [isBlocked] equal to [checked]. *)
Theorem merge_copies_top_left_state now st tl t0 :
  let sel := selectedCells st in
  (2 ≤ length sel)%nat →
  Z.of_nat (length sel) = bounding_count sel →
  find_cell (tableRows st) (bounding_minRow sel) (bounding_minCol sel) = Some (tl, t0) →
  ∀ r c q x,
    bounding_minRow sel ≤ r ≤ bounding_maxRow sel →
    bounding_minCol sel ≤ c ≤ bounding_maxCol sel →
    find_cell (tableRows st) r c = Some (q, x) →
    ∃ x', cell_at (tableRows (mergeCells now st).1) q = Some x'
          ∧ isSelected x' = isBlocked t0
          ∧ checked x' = checked t0
          ∧ isBlocked x' = isBlocked t0
          ∧ (isSelected x' = checked x' ↔ isBlocked t0 = checked t0).
Proof.
  intros sel Hlen Hcount Htl r c q x Hr Hc Hfind.
  destruct (mergeCells_success now st tl t0 Hlen Hcount Htl)
    as (D & F & HD & -> & _ & _ & Hhit).
  apply find_cell_Some in Hfind as Hq. destruct Hq as [Hq _].
  rewrite cell_at_map_at, cell_at_forEach_cell, Hq. cbn.
  eexists; split; [done|].
  destruct (Hhit r c q x (D x) Hr Hc Hfind) as (_ & Hc' & Hb & Hs & _).
  rewrite Hc', Hb, Hs. done.
Qed.

Lemma mergeCells_no_top_left now st :
  let sel := selectedCells st in
  (2 ≤ length sel)%nat →
  Z.of_nat (length sel) = bounding_count sel →
  find_cell (tableRows st) (bounding_minRow sel) (bounding_minCol sel) = None →
  tableRows (mergeCells now st).1 = tableRows st
  ∧ selectedCells (mergeCells now st).1
    = [cell_ (bounding_minRow sel) (bounding_minCol sel)].
Proof.
  intros sel Hlen Hcount Htl. subst sel. unfold mergeCells.
  rewrite decide_False by lia. rewrite positions_rows, positions_cols.
  fold (bounding_minRow (selectedCells st)) (bounding_maxRow (selectedCells st))
       (bounding_minCol (selectedCells st)) (bounding_maxCol (selectedCells st)).
  rewrite decide_False by (intros Hne; by apply Hne).
  rewrite (for_range_nested dissolve_at).
  destruct (dissolve_loop
              (rect_ids (bounding_minRow (selectedCells st)) (bounding_maxRow (selectedCells st))
                        (bounding_minCol (selectedCells st)) (bounding_maxCol (selectedCells st)))
              (tableRows st)) as (D & -> & HD).
  rewrite find_cell_forEach_cell, Htl by (intros x; apply HD). done.
Qed.

(** C2 (amended).  On a grid whose cells all have the unmerged shape, for a
    selection of at least two cells that fills its bounding rectangle, merging
    and then unmerging the resulting anchor leaves every selected cell with
    [isMerged = false], [isHidden = false], [rowSpan = colSpan = 1], and with
    the [sequenceNumber] and [checked] that the rectangle's top-left cell had
    before the merge: the members' own former values are not restored. *)
Theorem merge_then_unmerge_resets_shape now st :
  let sel := selectedCells st in
  (∀ q x, cell_at (tableRows st) q = Some x → unmerged_shape x) →
  (2 ≤ length sel)%nat →
  Z.of_nat (length sel) = bounding_count sel →
  ∀ i q x,
    i ∈ sel →
    find_cell (tableRows st) (id_row i) (id_col i) = Some (q, x) →
    ∃ x', cell_at (tableRows (unmergeCells now (mergeCells now st).1).1) q = Some x'
          ∧ unmerged_shape x'
          ∧ ∀ tl t0,
              find_cell (tableRows st) (bounding_minRow sel) (bounding_minCol sel)
              = Some (tl, t0) →
              sequenceNumber x' = sequenceNumber t0 ∧ checked x' = checked t0.
Proof.
  intros sel Hshape Hlen Hcount i q x Hi Hfind. subst sel.
  destruct (selection_in_bounding_rectangle _ _ Hi) as [Hr Hc].
  destruct (find_cell (tableRows st) (bounding_minRow (selectedCells st))
                      (bounding_minCol (selectedCells st))) as [[tl t0]|] eqn:Htl.
  - destruct (mergeCells_success now st tl t0 Hlen Hcount Htl)
      as (D & F & HD & Hrows & Hsel & Hcol & Hhit).
    assert (∀ x, columnIndex (D x) = columnIndex x) as HDcol by (intros y; apply HD).
    destruct (bounding_rectangle_nonempty (selectedCells st)) as [Hrow Hcol'].
    { intros E. rewrite E in Hi. by apply elem_of_nil in Hi. }
    unfold unmergeCells. rewrite Hsel, Hrows. cbn [id_row id_col].
    rewrite find_cell_map_at, find_cell_forEach_cell, Htl by done.
    cbn [fmap option_fmap option_map fst snd].
    destruct (Hhit (bounding_minRow (selectedCells st)) (bounding_minCol (selectedCells st))
                   tl t0 (D t0) ltac:(lia) ltac:(lia) Htl) as (_&_&_&_&_& -> & ->).
    cbn [negb].
    set (mid := createMergeId _ _ _ _) in *.
    cbn -[mid]. rewrite cell_at_forEach_cell, cell_at_map_at, cell_at_forEach_cell.
    apply find_cell_Some in Hfind as Hq. destruct Hq as [-> _]. cbn -[mid].
    eexists; split; [done|].
    destruct (Hhit (id_row i) (id_col i) q x (D x) Hr Hc Hfind)
      as (Hs & Hch & _ & _ & _ & _ & Hm).
    unfold unmerge_group. rewrite decide_True by done.
    split.
    + by destruct (F q (D x)).
    + intros tl' t0' [= <- <-]. rewrite <-Hs, <-Hch. by destruct (F q (D x)).
  - destruct (mergeCells_no_top_left now st Hlen Hcount Htl) as [Hrows Hsel].
    unfold unmergeCells. rewrite Hsel, Hrows. cbn [id_row id_col]. rewrite Htl.
    cbn. rewrite Hrows.
    apply find_cell_Some in Hfind as [Hq _].
    exists x. split_and!; [done|by eapply Hshape|done].
Qed.

(** ** Snapshot codec *)

Lemma decode_cell_encode_cell rowIndex cIdx x :
  decoded_from x (decode_cell rowIndex cIdx (encode_cell x)).
Proof.
  unfold decoded_from, decode_cell, encode_cell, js_or, truthy_bool, truthy_number; cbn.
  split_and!; try by destruct x as [? ? ? [] ? [] ? ? [] ? ? ? []].
  - by destruct (mergeId x).
  - case_decide as E; [by rewrite E|]. by destruct (sequenceNumber x).
  - case_decide as E; [by rewrite E|]. by destruct (Z.eqb_spec (rowSpan x) 0).
  - case_decide as E; [by rewrite E|]. by destruct (Z.eqb_spec (colSpan x) 0).
Qed.

Lemma decode_rows_encode idx trs :
  ∃ trs', decode_rows idx (encode_row <$> trs) = Some trs'
          ∧ Forall2 (λ row row', Forall2 decoded_from (cells row) (cells row')) trs trs'.
Proof.
  revert idx. induction trs as [|row trs IH]; intros idx; cbn.
  - eexists; split; [done|constructor].
  - destruct (IH (S idx)) as (trs' & -> & Htrs).
    eexists; split; [done|]. constructor; [|done]. cbn.
    apply Forall2_same_length_lookup_2.
    + by rewrite length_imap, length_fmap.
    + intros j x y Hx. rewrite list_lookup_imap, list_lookup_fmap, Hx. cbn.
      intros [= <-]. apply decode_cell_encode_cell.
Qed.

(** C1 (amended).  For every grid with positive [rows] and [columns], decoding
    the encoded snapshot succeeds and reproduces [rows], [columns] and, cell by
    cell, [checked], [isBlocked], [isMerged], [mergeId], [isBlank] and
    [isHidden] exactly; [sequenceNumber], [rowSpan] and [colSpan] come back
    unchanged unless they are falsy, an empty [sequenceNumber] being decoded as
    the dash placeholder and a zero span as 1; [isSelected] is reset to false. *)
Theorem decode_encode_round_trip now G :
  0 < rows G → 0 < columns G → round_trip decoded_from now G.
Proof.
  intros Hr Hc. unfold round_trip, decode, encode. cbn.
  destruct (Z.ltb_spec 0 (rows G)); [|lia]. destruct (Z.ltb_spec 0 (columns G)); [|lia].
  cbn. destruct (decode_rows_encode 0 (tableRows_ G)) as (trs' & -> & Htrs).
  by eexists.
Qed.

(** ** The code at concrete inputs *)

Lemma cleared_cell_is_reachable :
  tableRows (handleCellValueChange props_all clock 1 1 EmptyString
               (createNewTable clock 1 1 st_initial).1).1
  = tableRows_ grid_cleared_cell.
Proof. reflexivity. Qed.

(** C1, counterexample.  A 1 x 1 grid whose cell text was cleared does not come
    back with its persisted fields intact: the empty [sequenceNumber] is
    decoded as the dash placeholder. *)
Lemma round_trip_loses_cleared_text : ¬ round_trip same_persisted clock grid_cleared_cell.
Proof.
  intros (G' & Hdec & _ & _ & Hrows). vm_compute in Hdec. injection Hdec as <-.
  cbn in Hrows. apply Forall2_cons_1 in Hrows as [Hcells _].
  cbn in Hcells. apply Forall2_cons_1 in Hcells as [(Hseq & _) _].
  discriminate Hseq.
Qed.

(** C2, counterexample.  Merging and unmerging the two cells holding "a" and
    "b" leaves "a" in both: the bag of values over the region is not what
    it was. *)
Lemma merge_unmerge_changes_values :
  ¬ (region_values (tableRows (unmergeCells clock (mergeCells clock st_a_b).1).1)
                   (selectedCells st_a_b)
     ≡ₚ region_values (tableRows st_a_b) (selectedCells st_a_b)).
Proof.
  vm_compute. intros H.
  assert (("b", false) ∈ [("a", false); ("a", false)]) as Hin.
  { rewrite H. right. left. }
  apply elem_of_cons in Hin as [Hin|Hin]; [discriminate|].
  apply elem_of_cons in Hin as [Hin|Hin]; [discriminate|].
  by apply elem_of_nil in Hin.
Qed.

(** C5, failing input.  Loading a well-formed snapshot of 101 rows into the
    initial state succeeds and sets [rowCount] to 101: the load effect only
    checks that the dimensions are positive. *)
Theorem load_accepts_snapshot_of_101_rows :
  let st' := (loadData (text_json snapshot_101_rows) st_initial).1 in
  rowCount st' = 101 ∧ columnCount st' = 1 ∧ length (tableRows st') = 101%nat.
Proof. vm_compute. done. Qed.

(** ** Instances of the theorems *)

Lemma decode_encode_round_trip_witness :
  0 < rows grid_cleared_cell ∧ 0 < columns grid_cleared_cell
  ∧ round_trip decoded_from clock grid_cleared_cell.
Proof.
  split_and!; [reflexivity | reflexivity |].
  apply decode_encode_round_trip; reflexivity.
Defined.

Lemma merge_below_two_is_silent_witness :
  (length (selectedCells st_2x2) < 2)%nat ∧ mergeCells clock st_2x2 = (st_2x2, []).
Proof.
  assert (length (selectedCells st_2x2) < 2)%nat as H by (cbn; lia).
  exact (conj H (merge_below_two_is_silent clock st_2x2 H)).
Defined.

Lemma merge_rejects_non_rectangle_witness :
  (2 ≤ length (selectedCells st_L_shape))%nat
  ∧ Z.of_nat (length (selectedCells st_L_shape)) ≠ bounding_count (selectedCells st_L_shape)
  ∧ mergeCells clock st_L_shape
    = (st_L_shape, [alert "Please select a rectangular area to merge"]).
Proof.
  assert (2 ≤ length (selectedCells st_L_shape))%nat as H1 by (cbn; lia).
  assert (Z.of_nat (length (selectedCells st_L_shape))
          ≠ bounding_count (selectedCells st_L_shape)) as H2 by (vm_compute; discriminate).
  exact (conj H1 (conj H2 (merge_rejects_non_rectangle clock st_L_shape H1 H2))).
Defined.

Lemma blank_unblank_selected_witness :
  selectedCells st_row_pair ≠ []
  ∧ selectedCells (blankSelectedCells clock st_row_pair).1 = []
  ∧ isSelectionMode (blankSelectedCells clock st_row_pair).1 = false
  ∧ (∃ x', cell_at (tableRows (blankSelectedCells clock st_row_pair).1) (0, 1)%nat = Some x'
           ∧ isBlank x' = true ∧ sequenceNumber x' = "-")
  ∧ (∃ x', cell_at (tableRows (blankSelectedCells clock st_row_pair).1) (1, 0)%nat = Some x'
           ∧ isBlank x' = false).
Proof.
  assert (selectedCells st_row_pair ≠ []) as H by discriminate.
  destruct (blank_unblank_selected clock true st_row_pair H) as (H1 & H2 & Hcells & _).
  destruct (Hcells (0, 1)%nat (default_cell 1 2) eq_refl) as (x1 & Hx1 & Hb1 & _ & Hs1 & _).
  destruct (Hcells (1, 0)%nat (default_cell 2 1) eq_refl) as (x2 & Hx2 & Hb2 & _).
  refine (conj H (conj H1 (conj H2 (conj _ _)))).
  - exists x1. exact (conj Hx1 (conj Hb1 Hs1)).
  - exists x2. exact (conj Hx2 Hb2).
Defined.

Lemma drag_selects_rectangle_over_restore_point_witness :
  isSelectionAllowed props_all = true ∧ target_is_input plain_mouse_down = false
  ∧ selectedCells st_2x2 = []
  ∧ selectedCells (handleCellMouseEnter 4 1
                     (handleCellMouseDown props_all 2 2 plain_mouse_down st_2x2).1).1
    = [cell_ 2 1; cell_ 2 2; cell_ 3 1; cell_ 3 2; cell_ 4 1; cell_ 4 2].
Proof.
  split_and!; [reflexivity..|].
  apply (proj2 (proj2 drag_selects_rectangle_over_restore_point)); reflexivity.
Defined.

Lemma checkbox_sets_blocked_edit_keeps_it_witness :
  find_cell (tableRows st_2x2) 1 1 = Some ((0, 0)%nat, default_cell 1 1)
  ∧ (∃ x', cell_at (tableRows (handleCheckboxChange props_all clock 1 1 st_2x2).1)
                   (0, 0)%nat = Some x'
           ∧ checked x' = true ∧ isBlocked x' = true ∧ isSelected x' = true)
  ∧ (∃ x', cell_at (tableRows (handleCellValueChange props_all clock 1 1 "7" st_2x2).1)
                   (0, 0)%nat = Some x'
           ∧ isBlocked x' = false ∧ sequenceNumber x' = "7").
Proof.
  assert (find_cell (tableRows st_2x2) 1 1 = Some ((0, 0)%nat, default_cell 1 1)) as H
    by reflexivity.
  destruct (checkbox_sets_blocked_edit_keeps_it props_all clock 1 1 st_2x2 _ _ H)
    as [Hbox Hedit].
  split_and!; [exact H | |].
  - destruct (Hbox (0, 0)%nat (default_cell 1 1) eq_refl) as (x' & Hx' & Hc & Hb & Hs & _).
    exists x'. split_and!; [exact Hx'|exact Hc|exact Hb|exact Hs].
  - destruct (Hedit "7" (0, 0)%nat (default_cell 1 1) eq_refl) as (x' & Hx' & Hb & _ & Hv).
    exists x'. split_and!; [exact Hx'|exact Hb|exact Hv].
Defined.

Lemma merge_copies_top_left_state_witness :
  (2 ≤ length (selectedCells st_row_pair))%nat
  ∧ Z.of_nat (length (selectedCells st_row_pair)) = bounding_count (selectedCells st_row_pair)
  ∧ find_cell (tableRows st_row_pair) 1 1 = Some ((0, 0)%nat, default_cell 1 1)
  ∧ find_cell (tableRows st_row_pair) 1 2 = Some ((0, 1)%nat, default_cell 1 2)
  ∧ ∃ x', cell_at (tableRows (mergeCells clock st_row_pair).1) (0, 1)%nat = Some x'
          ∧ isSelected x' = false ∧ checked x' = false ∧ isBlocked x' = false.
Proof.
  assert (2 ≤ length (selectedCells st_row_pair))%nat as H1 by (cbn; lia).
  assert (Z.of_nat (length (selectedCells st_row_pair))
          = bounding_count (selectedCells st_row_pair)) as H2 by reflexivity.
  assert (find_cell (tableRows st_row_pair) 1 1 = Some ((0, 0)%nat, default_cell 1 1)) as H3
    by reflexivity.
  assert (find_cell (tableRows st_row_pair) 1 2 = Some ((0, 1)%nat, default_cell 1 2)) as H4
    by reflexivity.
  split_and!; [exact H1|exact H2|exact H3|exact H4|].
  destruct (merge_copies_top_left_state clock st_row_pair _ _ H1 H2 H3 1 2 _ _
              ltac:(vm_compute; split; discriminate) ltac:(vm_compute; split; discriminate) H4)
    as (x' & Hx' & Hs & Hc & Hb & _).
  exists x'. split_and!; [exact Hx'|exact Hs|exact Hc|exact Hb].
Defined.

Lemma st_a_b_unmerged q x : cell_at (tableRows st_a_b) q = Some x → unmerged_shape x.
Proof.
  destruct q as [[|i] [|[|j]]]; cbn; intros H; try discriminate; by injection H as <-.
Qed.

Lemma merge_then_unmerge_resets_shape_witness :
  (∀ q x, cell_at (tableRows st_a_b) q = Some x → unmerged_shape x)
  ∧ (2 ≤ length (selectedCells st_a_b))%nat
  ∧ Z.of_nat (length (selectedCells st_a_b)) = bounding_count (selectedCells st_a_b)
  ∧ ∃ x', cell_at (tableRows (unmergeCells clock (mergeCells clock st_a_b).1).1)
                  (0, 1)%nat = Some x'
          ∧ unmerged_shape x' ∧ sequenceNumber x' = "a" ∧ checked x' = false.
Proof.
  assert (2 ≤ length (selectedCells st_a_b))%nat as H1 by (cbn; lia).
  assert (Z.of_nat (length (selectedCells st_a_b)) = bounding_count (selectedCells st_a_b))
    as H2 by reflexivity.
  split_and!; [exact st_a_b_unmerged|exact H1|exact H2|].
  destruct (merge_then_unmerge_resets_shape clock st_a_b st_a_b_unmerged H1 H2
              (cell_ 1 2) (0, 1)%nat (set_sequenceNumber "b" (default_cell 1 2))
              ltac:(right; left) eq_refl) as (x' & Hx' & Hshape & Hval).
  destruct (Hval (0, 0)%nat (set_sequenceNumber "a" (default_cell 1 1)) eq_refl) as [Hs Hc].
  exists x'. split_and!; [exact Hx'|exact Hshape|exact Hs|exact Hc].
Defined.

(** ** Dimension guards *)

Lemma applyDimensions_rejects_out_of_range now st :
  100 < rowCount st ∨ columnCount st ≤ 0 →
  ∃ msg, applyDimensions now st = (st, [alert msg]).
Proof.
  intros H. unfold applyDimensions.
  destruct (Z.leb_spec (rowCount st) 0), (Z.leb_spec (columnCount st) 0); cbn;
    try by eexists.
  destruct (Z.ltb_spec 100 (rowCount st)); cbn; [by eexists|lia].
Qed.

Lemma applyDimensions_builds_bounded_table now st :
  tableRows (applyDimensions now st).1 ≠ tableRows st →
  in_bounds st
  ∧ length (tableRows (applyDimensions now st).1) = Z.to_nat (rowCount st)
  ∧ Forall (λ row, length (cells row) = Z.to_nat (columnCount st))
           (tableRows (applyDimensions now st).1).
Proof.
  unfold applyDimensions, createNewTable, in_bounds.
  destruct (Z.leb_spec (rowCount st) 0), (Z.leb_spec (columnCount st) 0); cbn; try done.
  destruct (Z.ltb_spec 100 (rowCount st)), (Z.ltb_spec 100 (columnCount st)); cbn; try done.
  intros _. split_and!; try lia.
  - by rewrite length_fmap, length_seq.
  - apply Forall_fmap, Forall_forall. intros idx _. cbn.
    by rewrite length_fmap, length_seq.
Qed.

Lemma guarded_entry_points_keep_bounds props now e st :
  match e with
  | GenerateTable | AddRow | AddColumn
  | RowCountAttributeChanged _ | ColumnCountAttributeChanged _ => True
  | _ => False
  end →
  in_bounds st → in_bounds (handle props now e st).1.
Proof.
  unfold in_bounds. destruct e; try done; intros _ Hb; cbn [handle].
  - unfold syncRowCountAttribute. destruct (ignoreAttributeUpdateRef st); [done|].
    destruct value as [v|]; [|done].
    destruct (Z.ltb_spec 0 v), (Z.leb_spec v 100); cbn; try done.
    repeat case_match; cbn; try done. lia.
  - unfold syncColumnCountAttribute. destruct (ignoreAttributeUpdateRef st); [done|].
    destruct value as [v|]; [|done].
    destruct (Z.ltb_spec 0 v), (Z.leb_spec v 100); cbn; try done.
    repeat case_match; cbn; try done. lia.
  - unfold applyDimensions, createNewTable. repeat case_match; done.
  - unfold addRow. destruct (Z.ltb_spec 100 (rowCount st + 1)); cbn; [done|lia].
  - unfold addColumn. destruct (Z.ltb_spec 100 (columnCount st + 1)); cbn; [done|lia].
Qed.

(** C6.  For the state reached by any event, the statistics computed from its
    rows are: the number of cells; the number of cells with [isBlocked]; the
    number with [isMerged] and not [isHidden]; the number with [isBlank] and
    not [isHidden].  Whenever the event changed the rows, these statistics of
    the new rows are among the calls made on the host. *)
Theorem statistics_after_every_mutation props now e st :
  let st' := (handle props now e st).1 in
  updateCellStatistics (tableRows st')
  = mkStats (length (all_cells (tableRows st')))
            (count_where (λ c, isBlocked c = true) (tableRows st'))
            (count_where (λ c, isMerged c = true ∧ isHidden c = false) (tableRows st'))
            (count_where (λ c, isBlank c = true ∧ isHidden c = false) (tableRows st'))
  ∧ (tableRows st' ≠ tableRows st →
     setStatistics (updateCellStatistics (tableRows st')) ∈ (handle props now e st).2).
Proof.
  split; [apply statistics_counts|apply mutation_reports_statistics].
Qed.

Lemma statistics_after_every_mutation_witness :
  tableRows (handle props_all clock (CheckboxChange 1 1) st_2x2).1 ≠ tableRows st_2x2
  ∧ setStatistics (mkStats 4 1 0 0)
      ∈ (handle props_all clock (CheckboxChange 1 1) st_2x2).2.
Proof.
  assert (tableRows (handle props_all clock (CheckboxChange 1 1) st_2x2).1
          ≠ tableRows st_2x2) as H by discriminate.
  exact (conj H (proj2 (statistics_after_every_mutation props_all clock
                          (CheckboxChange 1 1) st_2x2) H)).
Defined.

(** ** Well-formed grids *)

Lemma cell_at_Some rows i j x :
  cell_at rows (i, j) = Some x ↔ ∃ row, rows !! i = Some row ∧ cells row !! j = Some x.
Proof.
  unfold cell_at; cbn. destruct (rows !! i) as [row|].
  - split; [by exists row|]. by intros (? & [= <-] & ?).
  - split; [done|]. by intros (? & ? & _).
Qed.

Lemma list_find_unique {A} (P : A → Prop) `{!∀ x, Decision (P x)} (l : list A) i x :
  l !! i = Some x → P x → (∀ j y, l !! j = Some y → P y → j = i) →
  list_find P l = Some (i, x).
Proof.
  intros Hi HP Huniq. apply list_find_Some. split_and!; [done..|].
  intros j y Hj Hlt HPy. specialize (Huniq j y Hj HPy). lia.
Qed.

(** X1.  On a positioned grid [find_cell r c] is the lookup at position
    [(r - 1, c - 1)]: it finds exactly the cell stored there, and on a
    well-formed grid it succeeds exactly for the coordinates inside the
    grid. *)
Theorem find_cell_is_positional rows R C :
  well_formed rows R C →
  (∀ r c q x, find_cell rows r c = Some (q, x)
              ↔ cell_at rows q = Some x ∧ r = Z.of_nat q.1 + 1 ∧ c = Z.of_nat q.2 + 1)
  ∧ (∀ r c, is_Some (find_cell rows r c) ↔ 1 ≤ r ≤ R ∧ 1 ≤ c ≤ C).
Proof.
  intros [Hpos (Hlen & HC & Hcols)].
  assert (∀ r c q x, find_cell rows r c = Some (q, x)
              ↔ cell_at rows q = Some x ∧ r = Z.of_nat q.1 + 1 ∧ c = Z.of_nat q.2 + 1) as Hfind.
  { intros r c [i j] x. cbn [fst snd]. split.
    - intros Hf. pose proof (find_cell_Some _ _ _ _ _ Hf) as [Hq Hc].
      split; [done|]. apply cell_at_Some in Hq as (row & Hrow & Hx).
      destruct (Hpos i row Hrow) as (Hri & _ & Hcells).
      destruct (Hcells j x Hx) as (_ & Hcj & _).
      unfold find_cell in Hf.
      destruct (list_find _ rows) as [[i' row']|] eqn:E; [|done].
      destruct (list_find _ (cells row')) as [[j' x']|]; [|done].
      injection Hf as -> -> ->. apply list_find_Some in E as (E1 & E2 & _).
      rewrite Hrow in E1. injection E1 as <-. lia.
    - intros (Hq & -> & ->). apply cell_at_Some in Hq as (row & Hrow & Hx).
      destruct (Hpos i row Hrow) as (Hri & _ & Hcells).
      unfold find_cell.
      rewrite (list_find_unique (λ row, row_rowIndex row = Z.of_nat i + 1) rows i row);
        [|done|done|].
      + rewrite (list_find_unique (λ cell, columnIndex cell = Z.of_nat j + 1) (cells row) j x);
          [done|done| |].
        * by destruct (Hcells j x Hx) as (_ & ? & _).
        * intros j' y Hy Hcy. destruct (Hcells j' y Hy) as (_ & ? & _). lia.
      + intros i' row' Hrow' Hri'. destruct (Hpos i' row' Hrow') as (? & _). lia. }
  split; [done|]. intros r c. split.
  - intros [[[i j] x] Hf]. apply Hfind in Hf as (Hq & -> & ->). cbn.
    apply cell_at_Some in Hq as (row & Hrow & Hx).
    specialize (Hcols i row Hrow).
    apply lookup_lt_Some in Hrow, Hx. lia.
  - intros [Hr Hc].
    destruct (lookup_lt_is_Some_2 rows (Z.to_nat (r - 1))) as [row Hrow]; [lia|].
    specialize (Hcols _ row Hrow).
    destruct (lookup_lt_is_Some_2 (cells row) (Z.to_nat (c - 1))) as [x Hx]; [lia|].
    exists ((Z.to_nat (r - 1), Z.to_nat (c - 1)), x). apply Hfind. cbn.
    split_and!; [|lia..]. apply cell_at_Some. eauto.
Qed.

Lemma find_cell_is_positional_witness :
  well_formed (tableRows st_2x2) 2 2
  ∧ find_cell (tableRows st_2x2) 2 1 = Some ((1, 0)%nat, default_cell 2 1)
  ∧ ¬ is_Some (find_cell (tableRows st_2x2) 3 1).
Proof.
  assert (well_formed (tableRows st_2x2) 2 2) as H.
  { split.
    - intros [|[|i]] row Hrow; cbn in Hrow; try discriminate;
        injection Hrow as <-; (split_and!; [done..|]);
        intros [|[|j]] x Hx; cbn in Hx; try discriminate; by injection Hx as <-.
    - split_and!; [done|done|].
      intros [|[|i]] row Hrow; cbn in Hrow; try discriminate; by injection Hrow as <-. }
  destruct (find_cell_is_positional _ _ _ H) as [Hf Hs].
  split_and!; [exact H| |].
  - apply Hf. by split_and!.
  - intros Hsome. apply Hs in Hsome. lia.
Defined.

Lemma well_formed_map_at F rows R C :
  keeps_position F → well_formed rows R C → well_formed (map_at F rows) R C.
Proof.
  intros HF [Hpos (Hlen & HC & Hcols)]. unfold map_at. split; [|split_and!].
  - intros i row'. rewrite list_lookup_imap.
    destruct (rows !! i) as [row|] eqn:Hrow; [|done]. intros [= <-]. cbn.
    destruct (Hpos i row Hrow) as (? & ? & Hcells). split_and!; [done..|].
    intros j x'. rewrite list_lookup_imap.
    destruct (cells row !! j) as [x|] eqn:Hx; [|done]. intros [= <-].
    destruct (HF (i, j) x) as (-> & -> & ->). by apply Hcells.
  - by rewrite length_imap.
  - done.
  - intros i row'. rewrite list_lookup_imap.
    destruct (rows !! i) as [row|] eqn:Hrow; [|done]. intros [= <-]. cbn.
    rewrite length_imap. by eapply Hcols.
Qed.

Lemma find_cell_inj rows r c r' c' q x y :
  find_cell rows r c = Some (q, x) → find_cell rows r' c' = Some (q, y) →
  r = r' ∧ c = c'.
Proof.
  unfold find_cell. intros H1 H2.
  destruct (list_find (λ row, row_rowIndex row = r) rows) as [[i row]|] eqn:E1; [|done].
  destruct (list_find (λ cell, columnIndex cell = c) (cells row)) as [[j a]|] eqn:E2; [|done].
  destruct (list_find (λ row, row_rowIndex row = r') rows) as [[i' row']|] eqn:E3; [|done].
  destruct (list_find (λ cell, columnIndex cell = c') (cells row')) as [[j' a']|] eqn:E4;
    [|done].
  simplify_eq.
  apply list_find_Some in E1 as (L1 & <- & _), E3 as (L3 & <- & _).
  rewrite L1 in L3. injection L3 as <-.
  apply list_find_Some in E2 as (L2 & <- & _), E4 as (L4 & <- & _).
  rewrite L2 in L4. by injection L4 as <-.
Qed.

Lemma merge_loop_shape tl mergeId' minRow maxRow minCol maxCol ids rows t :
  cell_at rows tl = Some t → NoDup ids →
  ∃ F, fold_left (λ acc i, merge_at tl mergeId' minRow maxRow minCol maxCol
                                     (id_row i) (id_col i) acc) ids rows
       = map_at F rows
     ∧ keeps_position F
     ∧ same_source t (F tl t)
     ∧ (∀ i q x0 x, i ∈ ids → find_cell rows (id_row i) (id_col i) = Some (q, x0) →
          F q x = merge_write t mergeId'
                    ((id_row i =? minRow)%Z && (id_col i =? minCol)%Z)
                    (maxRow - minRow + 1) (maxCol - minCol + 1) x)
     ∧ (∀ q x, (∀ i x0, i ∈ ids → find_cell rows (id_row i) (id_col i) ≠ Some (q, x0)) →
          F q x = x).
Proof.
  intros Ht. induction ids as [|i ids IH] using rev_ind; intros Hnd.
  - exists (λ _ x, x). rewrite map_at_id. split_and!; try done.
    intros i q x0 x Hi. by apply elem_of_nil in Hi.
  - apply NoDup_app in Hnd as (Hnd & Hfresh & _).
    destruct (IH Hnd) as (F & HF & Hpos & Hsrc & Hhit & Hmiss).
    assert (∀ q x, columnIndex (F q x) = columnIndex x) as Hcol by (intros; apply Hpos).
    rewrite fold_left_app. cbn [fold_left]. rewrite HF.
    destruct (find_cell rows (id_row i) (id_col i)) as [[p x0]|] eqn:Hfind.
    + assert (find_cell (map_at F rows) (id_row i) (id_col i) = Some (p, F p x0)) as Hfind'.
      { rewrite find_cell_map_at by done. by rewrite Hfind. }
      assert (cell_at (map_at F rows) tl = Some (F tl t)) as Ht'.
      { by rewrite cell_at_map_at, Ht. }
      rewrite (merge_at_effect _ _ _ _ _ _ _ _ _ _ _ _ Hfind' Ht').
      set (W := merge_write (F tl t) mergeId' _ _ _).
      set (W0 := merge_write t mergeId' ((id_row i =? minRow)%Z && (id_col i =? minCol)%Z)
                             (maxRow - minRow + 1) (maxCol - minCol + 1)).
      assert (∀ q y, W (F q y) = W0 y) as HW.
      { intros q y. destruct Hsrc as (E1 & E2 & E3 & E4), (Hpos q y) as (E5 & E6 & E7).
        unfold W, W0, merge_write. by rewrite E1, E2, E3, E4, E5, E6, E7. }
      exists (λ q x, if decide (q = p) then W (F q x) else F q x).
      split_and!.
      * rewrite alter_cell_map_at, map_at_map_at. done.
      * intros q x. case_decide; [|apply Hpos]. rewrite HW. destruct x; done.
      * case_decide; [|done]. rewrite HW. by destruct t.
      * intros j q y0 x [Hj| ->%list_elem_of_singleton]%elem_of_app Hq.
        -- rewrite decide_False; [by eapply Hhit|].
           intros ->. destruct (find_cell_inj _ _ _ _ _ _ _ _ Hq Hfind) as [E1 E2].
           apply (Hfresh j Hj). destruct i, j. cbn in E1, E2. subst. by left.
        -- rewrite Hfind in Hq. injection Hq as <- <-. rewrite decide_True by done.
           apply HW.
      * intros q x Hq. rewrite decide_False.
        -- apply Hmiss. intros j y0 Hj. apply Hq. apply elem_of_app. by left.
        -- intros ->. apply (Hq i x0); [|done]. apply elem_of_app. right. by left.
    + assert (find_cell (map_at F rows) (id_row i) (id_col i) = None) as Hfind'.
      { rewrite find_cell_map_at by done. by rewrite Hfind. }
      unfold merge_at at 1. rewrite Hfind'.
      exists F. split_and!; try done.
      * intros j q y0 x [Hj| ->%list_elem_of_singleton]%elem_of_app Hq.
        -- by eapply Hhit.
        -- congruence.
      * intros q x Hq. apply Hmiss. intros j y0 Hj. apply Hq. apply elem_of_app. by left.
Qed.

Lemma dissolve_loop_untouched ids rows :
  (∀ i q x, i ∈ ids → find_cell rows (id_row i) (id_col i) = Some (q, x) →
            isMerged x = false) →
  fold_left (λ acc i, dissolve_at (id_row i) (id_col i) acc) ids rows = rows.
Proof.
  intros Hun. induction ids as [|i ids IH]; cbn [fold_left]; [done|].
  assert (dissolve_at (id_row i) (id_col i) rows = rows) as ->.
  { unfold dissolve_at. destruct (find_cell _ _ _) as [[p cell]|] eqn:E; [|done].
    rewrite (Hun i p cell); [done|by left|done]. }
  apply IH. intros j q x Hj. apply Hun. by right.
Qed.

(** ** Merge, in full *)

Lemma mergeCells_effect now st tl t0 :
  let sel := selectedCells st in
  let minRow := bounding_minRow sel in
  let maxRow := bounding_maxRow sel in
  let minCol := bounding_minCol sel in
  let maxCol := bounding_maxCol sel in
  let st' := (mergeCells now st).1 in
  (2 ≤ length sel)%nat →
  Z.of_nat (length sel) = bounding_count sel →
  find_cell (tableRows st) minRow minCol = Some (tl, t0) →
  ∃ G, keeps_position G
    ∧ tableRows st' = map_at G (tableRows st)
    ∧ selectedCells st' = [cell_ minRow minCol]
    ∧ isSelectionMode st' = isSelectionMode st
    ∧ rowCount st' = rowCount st ∧ columnCount st' = columnCount st
    ∧ (∀ r c q x0 x,
         minRow ≤ r ≤ maxRow → minCol ≤ c ≤ maxCol →
         find_cell (tableRows st) r c = Some (q, x0) →
         G q x = merge_write t0 (createMergeId minRow minCol maxRow maxCol)
                   ((r =? minRow)%Z && (c =? minCol)%Z)
                   (maxRow - minRow + 1) (maxCol - minCol + 1) x)
    ∧ (∀ q x,
         cell_at (tableRows st) q = Some x →
         (∀ r c y, minRow ≤ r ≤ maxRow → minCol ≤ c ≤ maxCol →
                   find_cell (tableRows st) r c ≠ Some (q, y)) →
         sequenceNumber (G q x) = sequenceNumber x
         ∧ checked (G q x) = checked x ∧ isBlocked (G q x) = isBlocked x
         ∧ isBlank (G q x) = isBlank x ∧ isSelected (G q x) = isSelected x
         ∧ ((∀ r c p y, minRow ≤ r ≤ maxRow → minCol ≤ c ≤ maxCol →
                        find_cell (tableRows st) r c = Some (p, y) →
                        isMerged y = false) → G q x = x)).
Proof.
  intros sel minRow maxRow minCol maxCol st' Hlen Hcount Htl.
  assert (∃ D F,
    keeps_content D
    ∧ fold_left (λ acc i, dissolve_at (id_row i) (id_col i) acc)
                (rect_ids minRow maxRow minCol maxCol) (tableRows st)
      = forEach_cell D (tableRows st)
    ∧ keeps_position F
    ∧ tableRows st' = map_at F (forEach_cell D (tableRows st))
    ∧ selectedCells st' = [cell_ minRow minCol]
    ∧ isSelectionMode st' = isSelectionMode st
    ∧ rowCount st' = rowCount st ∧ columnCount st' = columnCount st
    ∧ (∀ i q x0 x, i ∈ rect_ids minRow maxRow minCol maxCol →
         find_cell (forEach_cell D (tableRows st)) (id_row i) (id_col i) = Some (q, x0) →
         F q x = merge_write (D t0) (createMergeId minRow minCol maxRow maxCol)
                   ((id_row i =? minRow)%Z && (id_col i =? minCol)%Z)
                   (maxRow - minRow + 1) (maxCol - minCol + 1) x)
    ∧ (∀ q x, (∀ i x0, i ∈ rect_ids minRow maxRow minCol maxCol →
                 find_cell (forEach_cell D (tableRows st)) (id_row i) (id_col i)
                 ≠ Some (q, x0)) → F q x = x))
    as (D & F & HD & Hdis & HF & Hrows & Hsel & Hmode & Hrc & Hcc & Hhit & Hmiss).
  { subst st'. unfold mergeCells. fold sel.
    rewrite decide_False by lia. rewrite positions_rows, positions_cols.
    fold (bounding_minRow sel) (bounding_maxRow sel) (bounding_minCol sel)
         (bounding_maxCol sel).
    fold minRow maxRow minCol maxCol.
    rewrite decide_False by (intros Hne; by apply Hne).
    rewrite (for_range_nested dissolve_at).
    destruct (dissolve_loop (rect_ids minRow maxRow minCol maxCol) (tableRows st))
      as (D & HDeq & HD).
    rewrite HDeq.
    assert (∀ x, columnIndex (D x) = columnIndex x) as HDcol by (intros x; apply HD).
    rewrite find_cell_forEach_cell, Htl by done. cbn [fmap option_fmap option_map fst snd].
    rewrite (for_range_nested (merge_at tl _ _ _ _ _)).
    assert (cell_at (forEach_cell D (tableRows st)) tl = Some (D t0)) as Ht1.
    { apply find_cell_Some in Htl as [Htl _]. by rewrite cell_at_forEach_cell, Htl. }
    destruct (merge_loop_shape tl (createMergeId minRow minCol maxRow maxCol)
                minRow maxRow minCol maxCol (rect_ids minRow maxRow minCol maxCol)
                _ _ Ht1 (NoDup_rect_ids _ _ _ _)) as (F & -> & HF & _ & Hhit & Hmiss).
    exists D, F. split_and!; done. }
  assert (∀ x, columnIndex (D x) = columnIndex x) as HDcol by (intros x; apply HD).
  exists (λ q x, F q (D x)). split_and!; try done.
  - intros q x. destruct (HF q (D x)) as (-> & -> & ->), (HD x) as (?&_&_&_&?&?&_). done.
  - by rewrite Hrows, forEach_cell_map_at, map_at_map_at.
  - intros r c q x0 x Hr Hc Hfind. cbn.
    rewrite (Hhit (cell_ r c) q (D x0) (D x)).
    + cbn [id_row id_col].
      destruct (HD t0) as (_&E1&E2&E3&_&_&E4&_), (HD x) as (E5&_&_&_&E6&E7&_).
      unfold merge_write. by rewrite E1, E2, E3, E4, E5, E6, E7.
    + by apply elem_of_rect_ids.
    + cbn. rewrite find_cell_forEach_cell by done. by rewrite Hfind.
  - intros q x Hq Hout. cbn. rewrite Hmiss.
    + destruct (HD x) as (?&?&?&?&?&?&?&?). split_and!; try done.
      intros Hun.
      assert (forEach_cell D (tableRows st) = tableRows st) as Hid.
      { rewrite <-Hdis. apply dissolve_loop_untouched. intros [r c] p y Hi Hf.
        apply elem_of_rect_ids in Hi as [? ?]. by eapply (Hun r c). }
      apply (f_equal (λ rows, cell_at rows q)) in Hid.
      rewrite cell_at_forEach_cell, Hq in Hid. by injection Hid.
    + intros [r c] y Hi. apply elem_of_rect_ids in Hi as [Hr Hc]. cbn.
      rewrite find_cell_forEach_cell by done.
      destruct (find_cell (tableRows st) r c) as [[p z]|] eqn:E; [|done]. cbn.
      intros [= -> _]. by apply (Hout r c z Hr Hc).
Qed.

(** X2.  A merge that passes both guards and finds its top-left cell [t0]
    rewrites every cell of the rectangle to [merge_write]: value, checked,
    blocked and blank state of [t0], the new merge id, [isMerged]; the
    top-left cell stays visible with the rectangle's height and width as
    spans, every other cell is hidden with spans 1.  Cells outside the
    rectangle keep their content, and are not changed at all when no cell of
    the rectangle was merged before.  The selection collapses to the
    top-left id and selection mode is kept. *)
Theorem merge_forms_group now st tl t0 :
  let sel := selectedCells st in
  let minRow := bounding_minRow sel in
  let maxRow := bounding_maxRow sel in
  let minCol := bounding_minCol sel in
  let maxCol := bounding_maxCol sel in
  let st' := (mergeCells now st).1 in
  (2 ≤ length sel)%nat →
  Z.of_nat (length sel) = bounding_count sel →
  find_cell (tableRows st) minRow minCol = Some (tl, t0) →
  selectedCells st' = [cell_ minRow minCol]
  ∧ isSelectionMode st' = isSelectionMode st
  ∧ (∀ r c q x,
       minRow ≤ r ≤ maxRow → minCol ≤ c ≤ maxCol →
       find_cell (tableRows st) r c = Some (q, x) →
       cell_at (tableRows st') q
       = Some (merge_write t0 (createMergeId minRow minCol maxRow maxCol)
                           ((r =? minRow)%Z && (c =? minCol)%Z)
                           (maxRow - minRow + 1) (maxCol - minCol + 1) x))
  ∧ (∀ q x,
       cell_at (tableRows st) q = Some x →
       (∀ r c y, minRow ≤ r ≤ maxRow → minCol ≤ c ≤ maxCol →
                 find_cell (tableRows st) r c ≠ Some (q, y)) →
       ∃ x', cell_at (tableRows st') q = Some x'
             ∧ id x' = id x ∧ sequenceNumber x' = sequenceNumber x
             ∧ checked x' = checked x ∧ isBlocked x' = isBlocked x
             ∧ isBlank x' = isBlank x ∧ isSelected x' = isSelected x
             ∧ ((∀ r c p y, minRow ≤ r ≤ maxRow → minCol ≤ c ≤ maxCol →
                            find_cell (tableRows st) r c = Some (p, y) →
                            isMerged y = false) → x' = x)).
Proof.
  intros sel minRow maxRow minCol maxCol st' Hlen Hcount Htl.
  destruct (mergeCells_effect now st tl t0 Hlen Hcount Htl)
    as (G & HG & Hrows & Hsel & Hmode & _ & _ & Hhit & Hmiss).
  fold sel minRow maxRow minCol maxCol st' in Hrows, Hsel, Hmode, Hhit, Hmiss.
  split_and!; [done|done| |].
  - intros r c q x Hr Hc Hfind. rewrite Hrows, cell_at_map_at.
    apply find_cell_Some in Hfind as Hq. destruct Hq as [-> _]. cbn. f_equal.
    by eapply Hhit.
  - intros q x Hq Hout. rewrite Hrows, cell_at_map_at, Hq. cbn.
    eexists; split; [done|].
    destruct (Hmiss q x Hq Hout) as (? & ? & ? & ? & ? & ?).
    destruct (HG q x) as (? & _). split_and!; done.
Qed.

Lemma merge_forms_group_witness :
  (2 ≤ length (selectedCells st_row_pair))%nat
  ∧ Z.of_nat (length (selectedCells st_row_pair)) = bounding_count (selectedCells st_row_pair)
  ∧ cell_at (tableRows (mergeCells clock st_row_pair).1) (0, 1)%nat
    = Some (merge_write (default_cell 1 1) "1112" false 1 2 (default_cell 1 2)).
Proof.
  assert (2 ≤ length (selectedCells st_row_pair))%nat as H1 by (cbn; lia).
  assert (Z.of_nat (length (selectedCells st_row_pair))
          = bounding_count (selectedCells st_row_pair)) as H2 by reflexivity.
  split_and!; [exact H1|exact H2|].
  destruct (merge_forms_group clock st_row_pair (0, 0)%nat (default_cell 1 1) H1 H2 eq_refl)
    as (_ & _ & Hin & _).
  exact (Hin 1 2 (0, 1)%nat (default_cell 1 2)
           ltac:(vm_compute; split; discriminate) ltac:(vm_compute; split; discriminate)
           eq_refl).
Defined.

(** ** Tables built by the component *)

Lemma lookup_fmap_seq {A} (f : nat → A) (n i : nat) (y : A) :
  (f <$> seq 0 n) !! i = Some y ↔ (i < n)%nat ∧ y = f i.
Proof.
  rewrite list_lookup_fmap. destruct (decide (i < n)%nat) as [Hi|Hi].
  - rewrite lookup_seq_lt by done. cbn. split; [by intros [= <-]|by intros [_ ->]].
  - rewrite lookup_seq_ge by lia. cbn. split; [done|]. by intros [? _].
Qed.

Lemma new_row_lookup rowIndex cols j x :
  cells (new_row rowIndex cols) !! j = Some x
  ↔ (j < Z.to_nat cols)%nat ∧ x = default_cell rowIndex (Z.of_nat j + 1).
Proof.
  unfold new_row; cbn.
  apply (lookup_fmap_seq (λ cIdx, default_cell rowIndex (Z.of_nat cIdx + 1))).
Qed.

Lemma new_table_well_formed r c :
  0 ≤ r → 0 ≤ c →
  well_formed ((λ idx, new_row (Z.of_nat idx + 1) c) <$> seq 0 (Z.to_nat r)) r c.
Proof.
  intros Hr Hc. split; [|split_and!].
  - intros i row [Hi ->]%lookup_fmap_seq. split_and!; [done..|].
    intros j x [Hj ->]%new_row_lookup. done.
  - rewrite length_fmap, length_seq. lia.
  - done.
  - intros i row [Hi ->]%lookup_fmap_seq. unfold new_row; cbn.
    rewrite length_fmap, length_seq. lia.
Qed.

Lemma length_all_cells_rectangular rows r c :
  rectangular rows r c → Z.of_nat (length (all_cells rows)) = r * c.
Proof.
  intros (Hlen & Hc & Hcols). subst r.
  induction rows as [|row rows IH]; [done|].
  rewrite all_cells_cons, length_app. cbn [length].
  pose proof (Hcols 0%nat row eq_refl) as H0.
  rewrite Nat2Z.inj_add, IH, H0; [lia|].
  intros i row' Hi. by apply (Hcols (S i)).
Qed.

Lemma elem_of_all_cells rows x :
  x ∈ all_cells rows ↔ ∃ q, cell_at rows q = Some x.
Proof.
  induction rows as [|row rows IH].
  - split; [by intros ?%elem_of_nil|]. by intros [[i j] (? & ? & _)%cell_at_Some].
  - rewrite all_cells_cons, elem_of_app, IH. split.
    + intros [[j Hj]%list_elem_of_lookup|[[i j] Hq]].
      * exists (0%nat, j). apply cell_at_Some. eauto.
      * exists (S i, j). apply cell_at_Some in Hq as (r & ? & ?). apply cell_at_Some. eauto.
    + intros [[[|i] j] (r & Hr & Hx)%cell_at_Some].
      * injection Hr as <-. left. by eapply list_elem_of_lookup_2.
      * right. exists (i, j). apply cell_at_Some. eauto.
Qed.

Lemma count_where_none (P : CellObject → Prop) `{!∀ c, Decision (P c)} rows :
  (∀ q x, cell_at rows q = Some x → ¬ P x) → count_where P rows = 0%nat.
Proof.
  intros Hno. unfold count_where.
  assert (∀ x, x ∈ all_cells rows → ¬ P x) as H'.
  { intros x [q Hq]%elem_of_all_cells. by eapply Hno. }
  clear Hno.
  induction (all_cells rows) as [|x l IH]; [done|].
  rewrite filter_cons, decide_False by (apply H'; by left).
  apply IH. intros y Hy. apply H'. by right.
Qed.

(** X3.  [createNewTable] does nothing for a non-positive dimension.
    Otherwise it installs a well-formed grid of [rows] by [cols] cells, each
    the default cell of its position, empties the selection, leaves selection
    mode, and the reported statistics are [rows * cols] cells in total and no
    blocked, merged or blank cell. *)
Theorem createNewTable_builds_default_grid now r c st :
  (r ≤ 0 ∨ c ≤ 0 → createNewTable now r c st = (st, []))
  ∧ (0 < r → 0 < c →
     let st' := (createNewTable now r c st).1 in
     well_formed (tableRows st') r c
     ∧ (∀ q x, cell_at (tableRows st') q = Some x
               → x = default_cell (Z.of_nat q.1 + 1) (Z.of_nat q.2 + 1))
     ∧ selectedCells st' = [] ∧ isSelectionMode st' = false
     ∧ setStatistics (mkStats (Z.to_nat (r * c)) 0 0 0) ∈ (createNewTable now r c st).2).
Proof.
  unfold createNewTable. split.
  - intros H. destruct (Z.leb_spec r 0), (Z.leb_spec c 0); cbn; try done. lia.
  - intros Hr Hc. destruct (Z.leb_spec r 0), (Z.leb_spec c 0); try lia. cbn.
    set (rows := (λ idx, new_row (Z.of_nat idx + 1) c) <$> seq 0 (Z.to_nat r)).
    assert (well_formed rows r c) as Hwf by (apply new_table_well_formed; lia).
    assert (∀ q x, cell_at rows q = Some x
                   → x = default_cell (Z.of_nat q.1 + 1) (Z.of_nat q.2 + 1)) as Hdef.
    { intros [i j] x (row & [Hi ->]%lookup_fmap_seq & [Hj ->]%new_row_lookup)%cell_at_Some.
      done. }
    split_and!; [done..|].
    rewrite statistics_counts.
    rewrite !count_where_none by (intros q x ->%Hdef; cbn; intuition congruence).
    replace (length (all_cells rows)) with (Z.to_nat (r * c)).
    + repeat constructor.
    + rewrite <-(length_all_cells_rectangular rows r c) by apply Hwf. lia.
Qed.

Lemma createNewTable_builds_default_grid_witness :
  0 < 2 ∧ 0 < 3
  ∧ well_formed (tableRows (createNewTable clock 2 3 st_initial).1) 2 3
  ∧ setStatistics (mkStats 6 0 0 0) ∈ (createNewTable clock 2 3 st_initial).2.
Proof.
  assert (0 < 2) as H1 by lia. assert (0 < 3) as H2 by lia.
  destruct (proj2 (createNewTable_builds_default_grid clock 2 3 st_initial) H1 H2)
    as (Hwf & _ & _ & _ & Hstat).
  exact (conj H1 (conj H2 (conj Hwf Hstat))).
Defined.

(** ** The grid stays well-formed under user actions *)

Lemma keeps_position_id : keeps_position (λ _ x, x).
Proof. done. Qed.

Lemma wf_state_map_at F st st' :
  keeps_position F → tableRows st' = map_at F (tableRows st) →
  rowCount st' = rowCount st → columnCount st' = columnCount st →
  wf_state st → wf_state st'.
Proof.
  unfold wf_state. intros HF -> -> ->. by apply well_formed_map_at.
Qed.

Lemma wf_state_same_rows st st' :
  tableRows st' = tableRows st →
  rowCount st' = rowCount st → columnCount st' = columnCount st →
  wf_state st → wf_state st'.
Proof. unfold wf_state. by intros -> -> ->. Qed.

Lemma mergeCells_rows now st :
  ∃ F, keeps_position F
       ∧ tableRows (mergeCells now st).1 = map_at F (tableRows st)
       ∧ rowCount (mergeCells now st).1 = rowCount st
       ∧ columnCount (mergeCells now st).1 = columnCount st.
Proof.
  unfold mergeCells.
  destruct (decide (length (selectedCells st) < 2)%nat).
  { exists (λ _ x, x). by rewrite map_at_id. }
  destruct (decide (_ ≠ _)).
  { exists (λ _ x, x). by rewrite map_at_id. }
  rewrite (for_range_nested dissolve_at).
  match goal with
  | |- context [fold_left _ ?ids (tableRows st)] =>
      destruct (dissolve_loop ids (tableRows st)) as (D & -> & HD)
  end.
  destruct (find_cell (forEach_cell D (tableRows st)) _ _) as [[tl t1]|] eqn:Htl.
  - rewrite (for_range_nested (merge_at tl _ _ _ _ _)).
    apply find_cell_Some in Htl as [Ht1 _].
    match goal with
    | |- context [fold_left (λ acc i, merge_at tl ?mid ?a ?b ?c ?d _ _ acc) ?ids _] =>
        destruct (merge_loop_shape tl mid a b c d ids _ _ Ht1 (NoDup_rect_ids _ _ _ _))
          as (F & -> & HF & _)
    end.
    exists (λ q x, F q (D x)). split_and!; [|by rewrite forEach_cell_map_at, map_at_map_at|done..].
    intros q x. destruct (HF q (D x)) as (-> & -> & ->), (HD x) as (?&_&_&_&?&?&_). done.
  - exists (λ _ x, x). by rewrite map_at_id.
Qed.

Lemma write_group_rows (f : CellObject → CellObject) (b : bool) (P : CellObject → Prop)
    `{!∀ c, Decision (P c)} p rows :
  (∀ x, id (f x) = id x ∧ rowIndex (f x) = rowIndex x ∧ columnIndex (f x) = columnIndex x) →
  ∃ F, keeps_position F
       ∧ (if b then forEach_cell (λ cell, if decide (P cell) then f cell else cell)
                                 (alter_cell f p rows)
          else alter_cell f p rows) = map_at F rows.
Proof.
  intros Hf. destruct b.
  - rewrite forEach_cell_map_at, alter_cell_map_at, map_at_map_at. eexists. split; [|done].
    intros q x. cbn. repeat case_decide; try done; try apply Hf.
    destruct (Hf (f x)) as (-> & -> & ->). apply Hf.
  - rewrite alter_cell_map_at. eexists. split; [|done].
    intros q x. cbn. case_decide; [apply Hf|done].
Qed.

Lemma blank_rows v sel rows :
  ∃ F, keeps_position F ∧ fold_left (blank_at v) sel rows = map_at F rows.
Proof.
  rewrite fold_blank_at_map_at. eexists. split; [|done].
  intros q x. cbn. by destruct (blank_reaches _ _ _ _), x.
Qed.

Lemma addRow_well_formed rows r c :
  well_formed rows r c → well_formed (rows ++ [new_row (r + 1) c]) (r + 1) c.
Proof.
  intros [Hpos (Hlen & Hc & Hcols)]. split; [|split_and!].
  - intros i row Hi. apply lookup_app_Some in Hi as [Hi|[Hge Hi]]; [by apply Hpos|].
    apply list_lookup_singleton_Some in Hi as [Hi <-].
    assert (Z.of_nat i = r) as Hir by lia. cbn. rewrite Hir. split_and!; [done..|].
    intros j x [Hj ->]%new_row_lookup. done.
  - rewrite length_app. cbn. lia.
  - done.
  - intros i row Hi. apply lookup_app_Some in Hi as [Hi|[Hge Hi]]; [by eapply Hcols|].
    apply list_lookup_singleton_Some in Hi as [Hi <-]. unfold new_row; cbn.
    rewrite length_fmap, length_seq. lia.
Qed.

Lemma addColumn_well_formed rows r c :
  well_formed rows r c →
  well_formed ((λ row, set_cells (cells row ++ [default_cell (row_rowIndex row) (c + 1)]) row)
                 <$> rows) r (c + 1).
Proof.
  intros [Hpos (Hlen & Hc & Hcols)]. split; [|split_and!].
  - intros i row'. rewrite list_lookup_fmap.
    destruct (rows !! i) as [row|] eqn:Hrow; [|done]. intros [= <-]. cbn.
    destruct (Hpos i row Hrow) as (Hri & ? & Hcells). split_and!; [done..|].
    intros j x Hj. apply lookup_app_Some in Hj as [Hj|[Hge Hj]]; [by apply Hcells|].
    apply list_lookup_singleton_Some in Hj as [Hj <-].
    specialize (Hcols i row Hrow). cbn. rewrite Hri.
    assert (Z.of_nat j = c) as -> by lia. done.
  - by rewrite length_fmap.
  - lia.
  - intros i row'. rewrite list_lookup_fmap.
    destruct (rows !! i) as [row|] eqn:Hrow; [|done]. intros [= <-]. cbn.
    rewrite length_app. cbn. specialize (Hcols i row Hrow). lia.
Qed.

(** X4.  Every event raised by the user keeps the grid well-formed: as many
    rows as [rowCount], [columnCount] cells in each, and every row and cell
    carrying the id and indices of its position. *)
Theorem user_events_keep_grid_well_formed props now e st :
  user_event e → wf_state st → wf_state (handle props now e st).1.
Proof.
  intros He Hwf. destruct e; try done; cbn [handle].
  - (* InitTimer *)
    unfold initTable. destruct (_ && _); [|done].
    unfold createNewTable.
    destruct (Z.leb_spec (rowCount st) 0), (Z.leb_spec (columnCount st) 0); cbn; try done.
    unfold wf_state; cbn. apply new_table_well_formed; lia.
  - (* GenerateTable *)
    unfold applyDimensions, createNewTable.
    destruct (Z.leb_spec (rowCount st) 0), (Z.leb_spec (columnCount st) 0); cbn; try done.
    destruct (_ || _); cbn; [done|].
    unfold wf_state; cbn. apply new_table_well_formed; lia.
  - (* AddRow *)
    unfold addRow. destruct (100 <? _)%Z; [done|].
    unfold wf_state; cbn. by apply addRow_well_formed.
  - (* AddColumn *)
    unfold addColumn. destruct (100 <? _)%Z; [done|].
    unfold wf_state; cbn. by apply addColumn_well_formed.
  - (* CellValueChange *)
    unfold handleCellValueChange. destruct (find_cell _ _ _) as [[p t]|]; [|done].
    destruct (write_group_rows (set_sequenceNumber newValue) (truthy_string (mergeId t))
                (λ cell, mergeId cell = mergeId t) p (tableRows st)) as (F & HF & HE).
    { by intros []. }
    eapply (wf_state_map_at F); [done| | | |done]; by destruct (autoSave props).
  - (* CheckboxChange *)
    unfold handleCheckboxChange. destruct (find_cell _ _ _) as [[p t]|]; [|done].
    destruct (write_group_rows
                (λ cell, set_isSelected (negb (checked t))
                           (set_isBlocked (negb (checked t))
                              (set_checked (negb (checked t)) cell)))
                (truthy_string (mergeId t))
                (λ cell, mergeId cell = mergeId t) p (tableRows st)) as (F & HF & HE).
    { by intros []. }
    eapply (wf_state_map_at F); [done| | | |done]; by destruct (autoSave props).
  - (* CellClick *)
    apply (wf_state_same_rows st); [| | |done];
      unfold handleCellClick; repeat case_match; cbn; repeat case_match; done.
  - (* CellMouseDown *)
    apply (wf_state_same_rows st); [| | |done];
      unfold handleCellMouseDown; repeat case_match; done.
  - (* CellMouseEnter *)
    apply (wf_state_same_rows st); [| | |done];
      unfold handleCellMouseEnter; repeat case_match; done.
  - (* MouseUp *)
    apply (wf_state_same_rows st); [| | |done]; unfold onUp; repeat case_match; done.
  - (* SelectAll *)
    apply (wf_state_same_rows st); [| | |done];
      unfold selectAllCells; repeat case_match; done.
  - (* MergeSelected *)
    destruct (mergeCells_rows now st) as (F & HF & Hrows & Hr & Hc).
    by eapply (wf_state_map_at F).
  - (* Unmerge *)
    unfold unmergeCells. destruct (selectedCells st) as [|cellId ?]; [done|].
    destruct (find_cell _ _ _) as [[p t]|]; [|done].
    destruct (isMerged t); [|done]. cbn.
    eapply (wf_state_map_at (λ _, unmerge_group (mergeId t))); [| | | |done]; try done.
    + intros q x. destruct (keeps_content_unmerge_group (mergeId t) x) as (?&_&_&_&?&?&_).
      done.
    + cbn. apply forEach_cell_map_at.
  - (* Blank *)
    unfold blankSelectedCells, write_blank. destruct (selectedCells st) as [|i sel]; [done|].
    destruct (blank_rows true (i :: sel) (tableRows st)) as (F & HF & HE).
    by eapply (wf_state_map_at F).
  - (* Unblank *)
    unfold unblankSelectedCells, write_blank. destruct (selectedCells st) as [|i sel]; [done|].
    destruct (blank_rows false (i :: sel) (tableRows st)) as (F & HF & HE).
    by eapply (wf_state_map_at F).
Qed.

Lemma st_3x3_well_formed : wf_state st_3x3.
Proof. apply (new_table_well_formed 3 3); lia. Qed.

Lemma user_events_keep_grid_well_formed_witness :
  user_event AddColumn ∧ wf_state st_3x3
  ∧ wf_state (handle props_all clock AddColumn st_3x3).1.
Proof.
  exact (conj I (conj st_3x3_well_formed
           (user_events_keep_grid_well_formed props_all clock AddColumn
              st_3x3 I st_3x3_well_formed))).
Defined.

(** ** Snapshot codec, beyond the round trip *)

Lemma decode_cell_shape rowIndex' cIdx raw :
  normal_cell (decode_cell rowIndex' cIdx raw)
  ∧ rowIndex (decode_cell rowIndex' cIdx raw) = rowIndex'
  ∧ columnIndex (decode_cell rowIndex' cIdx raw) = Z.of_nat cIdx + 1
  ∧ id (decode_cell rowIndex' cIdx raw) = cell_ rowIndex' (Z.of_nat cIdx + 1).
Proof.
  unfold normal_cell, decode_cell, js_or, truthy_number; cbn. split_and!; try done.
  - destruct (raw_sequenceNumber raw) as [[|a s]|]; done.
  - destruct (raw_rowSpan raw) as [n|]; [|done].
    destruct (Z.eqb_spec n 0); cbn; [done|lia].
  - destruct (raw_colSpan raw) as [n|]; [|done].
    destruct (Z.eqb_spec n 0); cbn; [done|lia].
Qed.

Lemma decode_rows_lookup idx trs rows :
  decode_rows idx trs = Some rows →
  length rows = length trs
  ∧ ∀ i row, rows !! i = Some row →
      ∃ raw cs, trs !! i = Some raw ∧ raw_cells raw = Some cs
                ∧ row = mkRow (row_ (Z.of_nat (idx + i) + 1)) (Z.of_nat (idx + i) + 1)
                              (imap (decode_cell (Z.of_nat (idx + i) + 1)) cs).
Proof.
  revert idx rows. induction trs as [|raw trs IH]; intros idx rows; cbn.
  - intros [= <-]. split; [done|]. intros i row Hi. by rewrite lookup_nil in Hi.
  - unfold decode_row. destruct (raw_cells raw) as [cs|] eqn:Hcs; [|done].
    destruct (decode_rows (S idx) trs) as [rs|] eqn:Hrs; [|done]. intros [= <-].
    destruct (IH _ _ Hrs) as [Hlen Hrows]. split; [cbn; lia|].
    intros [|i] row Hi; cbn in Hi.
    + injection Hi as <-. exists raw, cs. rewrite Nat.add_0_r. done.
    + destruct (Hrows i row Hi) as (raw' & cs' & ? & ? & ->).
      exists raw', cs'. replace (idx + S i)%nat with (S idx + i)%nat by lia. done.
Qed.

Lemma decode_rows_Some idx trs :
  is_Some (decode_rows idx trs) ↔ ∀ raw, raw ∈ trs → is_Some (raw_cells raw).
Proof.
  revert idx. induction trs as [|raw trs IH]; intros idx; cbn.
  - split; [|done]. by intros _ raw ?%elem_of_nil.
  - unfold decode_row. split.
    + destruct (raw_cells raw) as [cs|] eqn:Hcs; [|by intros [? ?]].
      destruct (decode_rows (S idx) trs) as [rs|] eqn:Hrs; [|by intros [? ?]].
      intros _ raw' [->|Hin]%elem_of_cons; [by rewrite Hcs|].
      eapply IH; [by rewrite Hrs|done].
    + intros H. destruct (H raw) as [cs ->]; [by left|].
      destruct (proj2 (IH (S idx))) as [rs ->]; [|done].
      intros raw' Hin. apply H. by right.
Qed.

(** X5.  The load effect accepts a parsed snapshot exactly when [tableRows]
    is present, [rows] and [columns] are present and positive, and every row
    has a [cells] list; nothing else is checked (no upper bound, no
    comparison of [rows] with the number of rows).  Any other attribute value
    (empty, unparseable, or rejected) leaves the state as it is and makes no
    call on the host. *)
Theorem load_accepts_exactly :
  (∀ d, is_Some (decode d)
        ↔ ∃ trs r c, raw_tableRows d = Some trs ∧ raw_rows d = Some r
                     ∧ raw_columns d = Some c ∧ 0 < r ∧ 0 < c
                     ∧ ∀ raw, raw ∈ trs → is_Some (raw_cells raw))
  ∧ (∀ incomingData st,
       (∀ d, incomingData = text_json d → decode d = None) →
       loadData incomingData st = (st, [])).
Proof.
  split.
  - intros d. unfold decode.
    destruct (raw_tableRows d) as [trs|]; [|split; [by intros [? ?]|by intros (?&?&?&?&_)]].
    destruct (raw_rows d) as [r|]; [|split; [by intros [? ?]|by intros (?&?&?&?&?&_)]].
    destruct (raw_columns d) as [c|]; [|split; [by intros [? ?]|by intros (?&?&?&?&?&?&_)]].
    destruct (Z.ltb_spec 0 r), (Z.ltb_spec 0 c); cbn;
      try (split; [by intros [? ?]|intros (?&?&?&?&?&?&?&?&_); simplify_eq; lia]).
    split.
    + intros Hsome. exists trs, r, c. split_and!; try done.
      apply (decode_rows_Some 0). by destruct (decode_rows 0 trs).
    + intros (?&?&?&?&?&?&_&_&Hcells). simplify_eq.
      apply (decode_rows_Some 0) in Hcells as [rs ->]. done.
  - intros incomingData st Hbad. unfold loadData.
    destruct (isSaving st); [done|]. case_decide; [done|].
    destruct incomingData as [| |d]; [done..|]. by rewrite (Hbad d eq_refl).
Qed.

Lemma load_accepts_exactly_witness :
  (∀ d, text_malformed = text_json d → decode d = None)
  ∧ loadData text_malformed st_3x3 = (st_3x3, []).
Proof.
  assert (∀ d, text_malformed = text_json d → decode d = None) as H by (intros d [=]).
  exact (conj H (proj2 load_accepts_exactly text_malformed st_3x3 H)).
Defined.

Lemma decode_loadable d G :
  decode d = Some G →
  loadable G
  ∧ raw_rows d = Some (rows G) ∧ raw_columns d = Some (columns G)
  ∧ ∃ trs, raw_tableRows d = Some trs ∧ length (tableRows_ G) = length trs.
Proof.
  unfold decode. intros Hd.
  destruct (raw_tableRows d) as [trs|]; [|done].
  destruct (raw_rows d) as [r|]; [|done]. destruct (raw_columns d) as [c|]; [|done].
  destruct (Z.ltb_spec 0 r), (Z.ltb_spec 0 c); cbn in Hd; try done.
  destruct (decode_rows 0 trs) as [rs|] eqn:Hrs; [|done]. injection Hd as <-. cbn.
  destruct (decode_rows_lookup _ _ _ Hrs) as [Hlen Hrows].
  split_and!; [|done|done|by exists trs].
  unfold loadable; cbn. split_and!; [done|done| |].
  - intros i row Hi. destruct (Hrows i row Hi) as (raw & cs & _ & _ & ->). cbn.
    split_and!; [done..|]. intros j x. rewrite list_lookup_imap.
    destruct (cs !! j) as [rc|]; [|done]. intros [= <-]. apply decode_cell_shape.
  - intros [i j] x (row & Hi & Hj)%cell_at_Some.
    destruct (Hrows i row Hi) as (raw & cs & _ & _ & ->). cbn in Hj.
    rewrite list_lookup_imap in Hj. destruct (cs !! j) as [rc|]; [|done].
    injection Hj as <-. apply decode_cell_shape.
Qed.

(** X6.  Whatever snapshot is loaded, the grid that results is in normal
    form: every row and cell carries the id and indices of its position,
    whatever the snapshot said, no cell is selected, no value is empty and no
    span is zero; and the number of rows of the grid is the number of rows of
    the snapshot. *)
Theorem decode_yields_loadable d G :
  decode d = Some G →
  loadable G
  ∧ raw_rows d = Some (rows G) ∧ raw_columns d = Some (columns G)
  ∧ ∃ trs, raw_tableRows d = Some trs ∧ length (tableRows_ G) = length trs.
Proof. apply decode_loadable. Qed.

Lemma decode_yields_loadable_witness :
  decode snapshot_101_rows
  = Some (mkTableData 101 1 ((λ idx, new_row (Z.of_nat idx + 1) 1) <$> seq 0 101))
  ∧ loadable (mkTableData 101 1 ((λ idx, new_row (Z.of_nat idx + 1) 1) <$> seq 0 101)).
Proof.
  assert (decode snapshot_101_rows
          = Some (mkTableData 101 1 ((λ idx, new_row (Z.of_nat idx + 1) 1) <$> seq 0 101)))
    as H by (vm_compute; reflexivity).
  exact (conj H (proj1 (decode_yields_loadable _ _ H))).
Defined.

Lemma decode_cell_encode_cell_normal x j :
  normal_cell x → columnIndex x = Z.of_nat j + 1 → id x = cell_ (rowIndex x) (columnIndex x) →
  decode_cell (rowIndex x) j (encode_cell x) = x.
Proof.
  intros (Hs & Hr & Hc & Hsel) Hcol Hid.
  unfold decode_cell, encode_cell, js_or, truthy_bool, truthy_number. cbn.
  destruct x as [i s b m mid bl ri ci ch sel rs cs h]; cbn in *. subst.
  destruct s; [done|]. destruct (Z.eqb_spec rs 0); [done|].
  destruct (Z.eqb_spec cs 0); [done|]. cbn.
  by destruct m, mid, bl, ch, h.
Qed.

Lemma decode_rows_encode_positioned k rows :
  positioned_from k rows →
  (∀ q x, cell_at rows q = Some x → normal_cell x) →
  decode_rows k (encode_row <$> rows) = Some rows.
Proof.
  revert k. induction rows as [|row rows IH]; intros k Hpos Hnorm; [done|].
  cbn. rewrite (IH (S k)).
  - f_equal. f_equal. destruct (Hpos 0%nat row eq_refl) as (Hri & Hid & Hcells).
    rewrite Nat.add_0_r in *.
    assert (imap (decode_cell (Z.of_nat k + 1)) (encode_cell <$> cells row) = cells row)
      as ->.
    { apply list_eq. intros j. rewrite list_lookup_imap, list_lookup_fmap.
      destruct (cells row !! j) as [x|] eqn:Hx; [|done]. cbn. f_equal.
      destruct (Hcells j x Hx) as (E1 & E2 & E3). rewrite <-E1.
      apply decode_cell_encode_cell_normal; [|done|by rewrite E1, E2].
      apply (Hnorm (0%nat, j)). apply cell_at_Some. by exists row. }
    destruct row; cbn in *. congruence.
  - intros i row' Hi. specialize (Hpos (S i) row' Hi).
    by replace (k + S i)%nat with (S k + i)%nat in Hpos by lia.
  - intros [i j] x Hq. apply (Hnorm (S i, j)). apply cell_at_Some in Hq as (r & ? & ?).
    apply cell_at_Some. eauto.
Qed.

(** X7.  A grid in normal form is reproduced exactly, ids and indices
    included, by saving and loading it; in particular every grid that was
    itself loaded from a snapshot survives a further save and load
    unchanged. *)
Theorem normal_grid_round_trips_exactly now :
  (∀ G, loadable G → decode (encode now (tableRows_ G) (rows G) (columns G)) = Some G)
  ∧ (∀ d G, decode d = Some G →
            decode (encode now (tableRows_ G) (rows G) (columns G)) = Some G).
Proof.
  assert (∀ G, loadable G → decode (encode now (tableRows_ G) (rows G) (columns G)) = Some G)
    as Hload.
  { intros G (Hr & Hc & Hpos & Hnorm). unfold decode, encode. cbn.
    destruct (Z.ltb_spec 0 (rows G)); [|lia]. destruct (Z.ltb_spec 0 (columns G)); [|lia].
    cbn. rewrite (decode_rows_encode_positioned 0); [by destruct G|done|done]. }
  split; [done|]. intros d G Hd. apply Hload. by apply (decode_loadable d).
Qed.

Lemma normal_grid_round_trips_exactly_witness :
  decode snapshot_101_rows
  = Some (mkTableData 101 1 ((λ idx, new_row (Z.of_nat idx + 1) 1) <$> seq 0 101))
  ∧ decode (encode clock ((λ idx, new_row (Z.of_nat idx + 1) 1) <$> seq 0 101) 101 1)
    = Some (mkTableData 101 1 ((λ idx, new_row (Z.of_nat idx + 1) 1) <$> seq 0 101)).
Proof.
  assert (decode snapshot_101_rows
          = Some (mkTableData 101 1 ((λ idx, new_row (Z.of_nat idx + 1) 1) <$> seq 0 101)))
    as H by (vm_compute; reflexivity).
  exact (conj H (proj2 (normal_grid_round_trips_exactly clock) _ _ H)).
Defined.

(** ** Loading, saving and the host attributes *)

(** X8.  Loading is idempotent and never re-imports the component's own
    save: presenting the same attribute value a second time changes nothing
    and makes no call, and the snapshot just handed to the host by
    [saveToBackend] is ignored when it comes back, both while the save is
    still settling and after [isSaving] has been cleared. *)
Theorem load_ignores_echo now :
  (∀ incomingData st,
     loadData incomingData (loadData incomingData st).1
     = ((loadData incomingData st).1, []))
  ∧ (∀ rows' rowCnt colCnt st (settled : bool),
       let st1 := setIsSaving (negb settled) (saveToBackend now rows' rowCnt colCnt st).1 in
       loadData (text_json (encode now rows' rowCnt colCnt)) st1 = (st1, [])).
Proof.
  split.
  - intros incomingData st. unfold loadData at 2 3.
    destruct (isSaving st) eqn:Hsaving.
    { cbn. unfold loadData. by rewrite Hsaving. }
    case_decide as Hecho.
    { cbn. unfold loadData. rewrite Hsaving. by rewrite decide_True. }
    destruct incomingData as [| |d].
    + cbn. unfold loadData. rewrite Hsaving. by case_decide.
    + cbn. unfold loadData. rewrite Hsaving. by case_decide.
    + destruct (decode d) as [G|] eqn:Hd.
      * cbn. unfold loadData. cbn. rewrite Hsaving. by rewrite decide_True.
      * cbn. unfold loadData. rewrite Hsaving, Hd. by case_decide.
  - intros rows' rowCnt colCnt st settled st1. subst st1. unfold loadData. cbn.
    destruct settled; cbn; [|done]. by rewrite decide_True.
Qed.

(** X9.  The row-count effect writes nothing but [rowCount] and the
    suppression flag.  When the flag is set it only clears it; otherwise it
    adopts the host value exactly when that value lies in 1..100, differs
    from the current count and no user input is in flight.  After a save, the
    first notification is therefore swallowed and the second one is applied;
    the grid itself is never rebuilt by this effect. *)
Theorem row_count_attribute_effect value st :
  let st' := (syncRowCountAttribute value st).1 in
  (syncRowCountAttribute value st).2 = []
  ∧ st' = set_ignoreAttributeUpdateRef (ignoreAttributeUpdateRef st') (setRowCount (rowCount st') st)
  ∧ (ignoreAttributeUpdateRef st = true →
     rowCount st' = rowCount st ∧ ignoreAttributeUpdateRef st' = false)
  ∧ (ignoreAttributeUpdateRef st = false →
     ignoreAttributeUpdateRef st' = false
     ∧ ∀ v, value = Some v →
       rowCount st' = (if decide (1 ≤ v ≤ 100 ∧ isUserInputRef st = false) then v
                       else rowCount st))
  ∧ (∀ now rows' rowCnt colCnt v,
       1 ≤ v ≤ 100 → isUserInputRef st = false →
       let saved := (saveToBackend now rows' rowCnt colCnt st).1 in
       let once := (syncRowCountAttribute (Some v) saved).1 in
       rowCount once = rowCount st
       ∧ rowCount (syncRowCountAttribute (Some v) once).1 = v).
Proof.
  unfold syncRowCountAttribute. split_and!.
  - destruct (ignoreAttributeUpdateRef st); [done|]. destruct value as [v|]; [|done].
    by destruct (_ && _).
  - destruct (ignoreAttributeUpdateRef st) eqn:E; [by destruct st|].
    destruct value as [v|]; [|destruct st; cbn in *; by subst].
    destruct (_ && _); destruct st; cbn in *; by subst.
  - by intros ->.
  - intros E. rewrite E. split.
    + destruct value as [v|]; [|done]. by destruct (_ && _).
    + intros v ->.
      destruct (Z.ltb_spec 0 v), (Z.leb_spec v 100), (Z.eqb_spec v (rowCount st)),
        (isUserInputRef st); cbn; case_decide; try done; try lia;
        exfalso; intuition (try lia; try congruence).
  - intros now rows' rowCnt colCnt v Hv Huser. cbn. rewrite Huser.
    destruct (Z.ltb_spec 0 v), (Z.leb_spec v 100); try lia. cbn.
    by destruct (Z.eqb_spec v (rowCount st)).
Qed.

Lemma row_count_attribute_effect_witness :
  1 ≤ 7 ≤ 100 ∧ isUserInputRef st_initial = false
  ∧ let saved := (saveToBackend clock [] 3 3 st_initial).1 in
    let once := (syncRowCountAttribute (Some 7) saved).1 in
    rowCount once = rowCount st_initial
    ∧ rowCount (syncRowCountAttribute (Some 7) once).1 = 7.
Proof.
  assert (1 ≤ 7 ≤ 100) as H1 by lia.
  assert (isUserInputRef st_initial = false) as H2 by reflexivity.
  destruct (row_count_attribute_effect (Some 7) st_initial) as (_ & _ & _ & _ & Hsave).
  exact (conj H1 (conj H2 (Hsave clock [] 3 3 7 H1 H2))).
Defined.

(** X10.  The column-count effect mirrors the row-count effect, and the two
    share one suppression flag: after a save, whichever effect runs first
    consumes the flag, so a column value delivered right after the row
    notification is applied when it lies in 1..100 and no user input is in
    flight. *)
Theorem column_count_attribute_effect value st :
  let st' := (syncColumnCountAttribute value st).1 in
  (syncColumnCountAttribute value st).2 = []
  ∧ tableRows st' = tableRows st ∧ rowCount st' = rowCount st
  ∧ (ignoreAttributeUpdateRef st = true →
     columnCount st' = columnCount st ∧ ignoreAttributeUpdateRef st' = false)
  ∧ (ignoreAttributeUpdateRef st = false →
     ∀ v, value = Some v →
       columnCount st' = (if decide (1 ≤ v ≤ 100 ∧ isUserInputRef st = false) then v
                          else columnCount st))
  ∧ (∀ now rows' rowCnt colCnt rowValue v,
       1 ≤ v ≤ 100 → isUserInputRef st = false →
       let saved := (saveToBackend now rows' rowCnt colCnt st).1 in
       columnCount (syncColumnCountAttribute (Some v)
                      (syncRowCountAttribute rowValue saved).1).1 = v).
Proof.
  unfold syncColumnCountAttribute. split_and!.
  - destruct (ignoreAttributeUpdateRef st); [done|]. destruct value as [v|]; [|done].
    by destruct (_ && _).
  - destruct (ignoreAttributeUpdateRef st); [done|]. destruct value as [v|]; [|done].
    by destruct (_ && _).
  - destruct (ignoreAttributeUpdateRef st); [done|]. destruct value as [v|]; [|done].
    by destruct (_ && _).
  - by intros ->.
  - intros E v ->. rewrite E.
    destruct (Z.ltb_spec 0 v), (Z.leb_spec v 100), (Z.eqb_spec v (columnCount st)),
      (isUserInputRef st); cbn; case_decide; try done; try lia;
      exfalso; intuition (try lia; try congruence).
  - intros now rows' rowCnt colCnt rowValue v Hv Huser. cbn. rewrite Huser.
    destruct (Z.ltb_spec 0 v), (Z.leb_spec v 100); try lia. cbn.
    by destruct (Z.eqb_spec v (columnCount st)).
Qed.

Lemma column_count_attribute_effect_witness :
  1 ≤ 5 ≤ 100 ∧ isUserInputRef st_initial = false
  ∧ let saved := (saveToBackend clock [] 3 3 st_initial).1 in
    columnCount (syncColumnCountAttribute (Some 5)
                   (syncRowCountAttribute (Some 9) saved).1).1 = 5.
Proof.
  assert (1 ≤ 5 ≤ 100) as H1 by lia.
  assert (isUserInputRef st_initial = false) as H2 by reflexivity.
  destruct (column_count_attribute_effect (Some 5) st_initial) as (_ & _ & _ & _ & _ & Hsave).
  exact (conj H1 (conj H2 (Hsave clock [] 3 3 (Some 9) 5 H1 H2))).
Defined.

Lemma initTable_is_fresh_callback now st :
  initTable now st = initTimerCallback now (capture st) st.
Proof. done. Qed.

(** X11.  For every event other than the initialisation timer, every
    snapshot handed to the host is the encoding of the state the event leads
    to: the rows, [rowCount] and [columnCount] of that state; the state then
    records that snapshot as last saved and has [isSaving] set; and the
    statistics of the same rows are reported with it.  The initialisation
    timer saves the rows it installs together with the counts its callback
    captured, and leaves [rowCount] and [columnCount] as they are: its
    snapshot is the encoding of the state reached exactly when the captured
    counts are the current ones. *)
Theorem persisted_snapshot_vs_reached_state props now :
  (∀ e st jsonData,
     e ≠ InitTimer →
     setTableData jsonData ∈ (handle props now e st).2 →
     let st' := (handle props now e st).1 in
     jsonData = encode now (tableRows st') (rowCount st') (columnCount st')
     ∧ lastSavedDataRef st' = text_json jsonData
     ∧ isSaving st' = true
     ∧ setStatistics (updateCellStatistics (tableRows st')) ∈ (handle props now e st).2)
  ∧ (∀ k st jsonData,
       setTableData jsonData ∈ (initTimerCallback now k st).2 →
       let st' := (initTimerCallback now k st).1 in
       jsonData = encode now (tableRows st') (captured_rowCount k) (captured_columnCount k)
       ∧ lastSavedDataRef st' = text_json jsonData
       ∧ isSaving st' = true
       ∧ setStatistics (updateCellStatistics (tableRows st')) ∈ (initTimerCallback now k st).2
       ∧ rowCount st' = rowCount st ∧ columnCount st' = columnCount st
       ∧ (jsonData = encode now (tableRows st') (rowCount st') (columnCount st')
          ↔ captured_rowCount k = rowCount st ∧ captured_columnCount k = columnCount st)).
Proof.
  split.
  - intros e st jsonData Hne. destruct e; cbn [handle]; try done.
    + unfold loadData. repeat case_match; cbn; intros Hin;
        repeat (apply elem_of_cons in Hin as [Hin|Hin]; try done); by apply elem_of_nil in Hin.
    + unfold syncRowCountAttribute. repeat case_match; cbn; intros Hin;
        by apply elem_of_nil in Hin.
    + unfold syncColumnCountAttribute. repeat case_match; cbn; intros Hin;
        by apply elem_of_nil in Hin.
    + unfold applyDimensions, createNewTable. repeat case_match; cbn; intros Hin;
        repeat (apply elem_of_cons in Hin as [Hin|Hin]; simplify_eq; try done);
        try (by apply elem_of_nil in Hin); split_and!; try done; repeat constructor.
    + unfold addRow. repeat case_match; cbn; intros Hin;
        repeat (apply elem_of_cons in Hin as [Hin|Hin]; simplify_eq; try done);
        try (by apply elem_of_nil in Hin); split_and!; try done; repeat constructor.
    + unfold addColumn. repeat case_match; cbn; intros Hin;
        repeat (apply elem_of_cons in Hin as [Hin|Hin]; simplify_eq; try done);
        try (by apply elem_of_nil in Hin); split_and!; try done; repeat constructor.
    + unfold handleCellValueChange. destruct (find_cell _ _ _) as [[p t]|].
      * destruct (autoSave props); cbn; intros Hin;
          repeat (apply elem_of_cons in Hin as [Hin|Hin]; simplify_eq; try done);
          try (by apply elem_of_nil in Hin); split_and!; try done; repeat constructor.
      * cbn. intros Hin. apply elem_of_cons in Hin as [Hin|Hin]; [done|].
        by apply elem_of_nil in Hin.
    + unfold handleCheckboxChange. destruct (find_cell _ _ _) as [[p t]|].
      * destruct (autoSave props); cbn; intros Hin;
          repeat (apply elem_of_cons in Hin as [Hin|Hin]; simplify_eq; try done);
          try (by apply elem_of_nil in Hin); split_and!; try done; repeat constructor.
      * cbn. intros Hin. apply elem_of_cons in Hin as [Hin|Hin]; [done|].
        by apply elem_of_nil in Hin.
    + unfold handleCellClick. repeat case_match; cbn; intros Hin;
        repeat (apply elem_of_cons in Hin as [Hin|Hin]; try done); by apply elem_of_nil in Hin.
    + unfold handleCellMouseDown. repeat case_match; cbn; intros Hin;
        by apply elem_of_nil in Hin.
    + unfold handleCellMouseEnter. repeat case_match; cbn; intros Hin;
        by apply elem_of_nil in Hin.
    + unfold onUp. repeat case_match; cbn; intros Hin; by apply elem_of_nil in Hin.
    + unfold selectAllCells. repeat case_match; cbn; intros Hin; by apply elem_of_nil in Hin.
    + cbn. intros Hin. by apply elem_of_nil in Hin.
    + unfold mergeCells. repeat case_match; cbn; intros Hin;
        repeat (apply elem_of_cons in Hin as [Hin|Hin]; simplify_eq; try done);
        try (by apply elem_of_nil in Hin); split_and!; try done; repeat constructor.
    + unfold unmergeCells. repeat case_match; cbn; intros Hin;
        repeat (apply elem_of_cons in Hin as [Hin|Hin]; simplify_eq; try done);
        try (by apply elem_of_nil in Hin); split_and!; try done; repeat constructor.
    + unfold blankSelectedCells, write_blank. repeat case_match; cbn; intros Hin;
        repeat (apply elem_of_cons in Hin as [Hin|Hin]; simplify_eq; try done);
        try (by apply elem_of_nil in Hin); split_and!; try done; repeat constructor.
    + unfold unblankSelectedCells, write_blank. repeat case_match; cbn; intros Hin;
        repeat (apply elem_of_cons in Hin as [Hin|Hin]; simplify_eq; try done);
        try (by apply elem_of_nil in Hin); split_and!; try done; repeat constructor.
  - intros k st jsonData. unfold initTimerCallback, createNewTable.
    destruct (negb (captured_dataLoaded k) && bool_decide (captured_tableRows k = []));
      [|by intros ?%elem_of_nil].
    destruct ((captured_rowCount k <=? 0) || (captured_columnCount k <=? 0));
      [by intros ?%elem_of_nil|].
    cbn. intros Hin.
    repeat (apply elem_of_cons in Hin as [Hin|Hin]; simplify_eq; try done);
      try (by apply elem_of_nil in Hin).
    split_and!; try done.
    + repeat constructor.
    + unfold encode. split.
      * by intros [= -> ->].
      * by intros [-> ->].
Qed.

Lemma persisted_snapshot_vs_reached_state_witness :
  (let out := handle props_all clock AddRow st_3x3 in
   AddRow ≠ InitTimer
   ∧ setTableData (encode clock (tableRows out.1) 4 3) ∈ out.2
   ∧ lastSavedDataRef out.1 = text_json (encode clock (tableRows out.1) 4 3))
  ∧ (let out := initTimerCallback clock (capture st_initial) st_count_raised in
     setTableData (encode clock (tableRows out.1) 3 3) ∈ out.2
     ∧ rowCount out.1 = 7
     ∧ encode clock (tableRows out.1) 3 3
       ≠ encode clock (tableRows out.1) (rowCount out.1) (columnCount out.1)).
Proof.
  destruct (persisted_snapshot_vs_reached_state props_all clock) as [Hevent Htimer].
  split.
  - intros out.
    assert (AddRow ≠ InitTimer) as Hne by discriminate.
    assert (setTableData (encode clock (tableRows out.1) 4 3) ∈ out.2) as Hin.
    { apply list_elem_of_further, list_elem_of_here. }
    refine (conj Hne (conj Hin _)).
    exact (proj1 (proj2 (Hevent AddRow st_3x3 _ Hne Hin))).
  - intros out.
    assert (setTableData (encode clock (tableRows out.1) 3 3) ∈ out.2) as Hin.
    { apply list_elem_of_here. }
    refine (conj Hin (conj eq_refl _)).
    destruct (Htimer (capture st_initial) st_count_raised _ Hin)
      as (_ & _ & _ & _ & _ & _ & Hiff).
    intros Heq. apply Hiff in Heq as [Heq _]. discriminate Heq.
Defined.

(** ** Writes to a merged group *)

Lemma pretty_N_go_nonempty x s : s ≠ EmptyString → pretty_N_go x s ≠ EmptyString.
Proof.
  revert s. induction (N.lt_wf_0 x) as [x _ IH]; intros s Hs.
  assert (x = 0 ∨ 0 < x)%N as [->|Hx] by lia.
  - by rewrite pretty_N_go_0.
  - rewrite pretty_N_go_step by done. apply IH; [by apply N.div_lt|done].
Qed.

Lemma pretty_Z_nonempty (z : Z) : pretty z ≠ EmptyString.
Proof.
  destruct z as [|p|p]; [done| |done].
  unfold pretty, pretty_Z, pretty, pretty_positive, pretty, pretty_N.
  rewrite decide_False by done. rewrite pretty_N_go_step by lia.
  by apply pretty_N_go_nonempty.
Qed.

Lemma createMergeId_truthy r1 c1 r2 c2 : truthy_string (createMergeId r1 c1 r2 c2) = true.
Proof.
  unfold createMergeId. pose proof (pretty_Z_nonempty r1) as H.
  destruct (pretty r1); [done|]. done.
Qed.

Lemma tableRows_after_write props now rows' st :
  tableRows
    (( call (setStatistics (updateCellStatistics rows'))
      ⨾ (if autoSave props then saveToBackend now rows' (rowCount st) (columnCount st)
         else skip)
      ⨾ modify (setTableRows rows') ⨾ call onCellClick ) st).1 = rows'.
Proof. by destruct (autoSave props). Qed.

(** X12.  After a successful merge the rectangle behaves as one cell: a text
    edit addressed to any of its cells puts the new value in every cell of
    the rectangle and leaves their checked and blocked state alone, and a
    checkbox toggle addressed to any of its cells sets checked and blocked of
    every cell of the rectangle to the negation of the top-left cell's
    pre-merge checked state. *)
Theorem merged_rectangle_is_written_as_one props now st tl t0 r c q x0 :
  let sel := selectedCells st in
  let st1 := (mergeCells now st).1 in
  (2 ≤ length sel)%nat →
  Z.of_nat (length sel) = bounding_count sel →
  find_cell (tableRows st) (bounding_minRow sel) (bounding_minCol sel) = Some (tl, t0) →
  bounding_minRow sel ≤ r ≤ bounding_maxRow sel →
  bounding_minCol sel ≤ c ≤ bounding_maxCol sel →
  find_cell (tableRows st) r c = Some (q, x0) →
  ∀ r' c' q' x',
    bounding_minRow sel ≤ r' ≤ bounding_maxRow sel →
    bounding_minCol sel ≤ c' ≤ bounding_maxCol sel →
    find_cell (tableRows st) r' c' = Some (q', x') →
    (∀ v, ∃ y, cell_at (tableRows (handleCellValueChange props now r c v st1).1) q' = Some y
               ∧ sequenceNumber y = v
               ∧ checked y = checked t0 ∧ isBlocked y = isBlocked t0)
    ∧ (∃ y, cell_at (tableRows (handleCheckboxChange props now r c st1).1) q' = Some y
            ∧ checked y = negb (checked t0) ∧ isBlocked y = negb (checked t0)
            ∧ isSelected y = negb (checked t0)
            ∧ sequenceNumber y = sequenceNumber t0).
Proof.
  intros sel st1 Hlen Hcount Htl Hr Hc Hfind r' c' q' x' Hr' Hc' Hfind'.
  destruct (mergeCells_effect now st tl t0 Hlen Hcount Htl)
    as (G & HG & Hrows & _ & _ & _ & _ & Hhit & _).
  fold sel st1 in Hrows, Hhit.
  assert (∀ q y, columnIndex (G q y) = columnIndex y) as Hcol by (intros; apply HG).
  set (mid := createMergeId _ _ _ _) in *.
  assert (find_cell (tableRows st1) r c = Some (q, G q x0)) as Hf1.
  { rewrite Hrows, find_cell_map_at by done. by rewrite Hfind. }
  assert (cell_at (tableRows st1) q' = Some (G q' x')) as Hq1.
  { apply find_cell_Some in Hfind' as [Hq' _]. by rewrite Hrows, cell_at_map_at, Hq'. }
  pose proof (Hhit r c q x0 x0 Hr Hc Hfind) as E.
  pose proof (Hhit r' c' q' x' x' Hr' Hc' Hfind') as E'.
  assert (mergeId (G q x0) = mid) as Hm by (by rewrite E).
  assert (mergeId (G q' x') = mid) as Hm' by (by rewrite E').
  assert (truthy_string mid = true) as Htruthy by apply createMergeId_truthy.
  split.
  - intros v. unfold handleCellValueChange. rewrite Hf1, tableRows_after_write, Hm, Htruthy.
    rewrite cell_at_forEach_cell, cell_at_alter_cell, Hq1. cbn -[mid].
    eexists; split; [done|].
    rewrite !E'. destruct (decide (q' = q)); cbn; (rewrite decide_True by done); done.
  - unfold handleCheckboxChange. rewrite Hf1, tableRows_after_write, Hm, Htruthy.
    rewrite cell_at_forEach_cell, cell_at_alter_cell, Hq1. cbn -[mid].
    eexists; split; [done|].
    assert (checked (G q x0) = checked t0) as -> by (by rewrite E).
    rewrite !E'. destruct (decide (q' = q)); cbn; (rewrite decide_True by done); done.
Qed.

Lemma merged_rectangle_is_written_as_one_witness :
  (2 ≤ length (selectedCells st_row_pair))%nat
  ∧ Z.of_nat (length (selectedCells st_row_pair)) = bounding_count (selectedCells st_row_pair)
  ∧ ∃ y, cell_at (tableRows (handleCellValueChange props_all clock 1 1 "9"
                               (mergeCells clock st_row_pair).1).1) (0, 1)%nat = Some y
         ∧ sequenceNumber y = "9".
Proof.
  assert (2 ≤ length (selectedCells st_row_pair))%nat as H1 by (cbn; lia).
  assert (Z.of_nat (length (selectedCells st_row_pair))
          = bounding_count (selectedCells st_row_pair)) as H2 by reflexivity.
  split_and!; [exact H1|exact H2|].
  destruct (merged_rectangle_is_written_as_one props_all clock st_row_pair
              (0, 0)%nat (default_cell 1 1) 1 1 (0, 0)%nat (default_cell 1 1) H1 H2 eq_refl
              ltac:(vm_compute; split; discriminate) ltac:(vm_compute; split; discriminate)
              eq_refl
              1 2 (0, 1)%nat (default_cell 1 2)
              ltac:(vm_compute; split; discriminate) ltac:(vm_compute; split; discriminate)
              eq_refl) as [Hedit _].
  destruct (Hedit "9") as (y & Hy & Hv & _).
  exists y. split; [exact Hy|exact Hv].
Defined.

(** ** Selection by click, drag and Select All *)

Lemma elem_of_delete_id (i : CellId) (prev : list CellId) (j : CellId) :
  j ∈ List.filter (λ k, negb (bool_decide (k = i))) prev ↔ j ∈ prev ∧ j ≠ i.
Proof.
  induction prev as [|a prev IH]; cbn.
  - rewrite elem_of_nil. tauto.
  - case_bool_decide as Ha; cbn; rewrite ?elem_of_cons, IH, ?elem_of_cons.
    + subst a. split; [tauto|]. intros [[->|?] ?]; tauto.
    + split; [|tauto]. intros [->|?]; tauto.
Qed.

Lemma NoDup_delete_id (i : CellId) (prev : list CellId) :
  NoDup prev → NoDup (List.filter (λ k, negb (bool_decide (k = i))) prev).
Proof.
  induction 1 as [|a prev Ha _ IH]; cbn; [constructor|].
  case_bool_decide; cbn; [done|]. constructor; [|done].
  rewrite elem_of_delete_id. tauto.
Qed.

Lemma delete_id_leaves_one (i : CellId) (prev : list CellId) :
  NoDup prev → (1 < length prev)%nat →
  List.filter (λ k, negb (bool_decide (k = i))) prev ≠ [].
Proof.
  intros Hnd Hlen.
  destruct prev as [|a [|b l]]; cbn in Hlen; [lia..|].
  assert (a ≠ b) as Hab.
  { apply NoDup_cons in Hnd as [Ha _]. intros ->. apply Ha. by left. }
  assert (∃ j, j ∈ a :: b :: l ∧ j ≠ i) as (j & Hj & Hji).
  { destruct (decide (a = i)) as [->|Ha].
    - exists b. split; [by right; left|]. congruence.
    - exists a. split; [by left|done]. }
  intros Hnil. assert (j ∈ List.filter (λ k, negb (bool_decide (k = i))) (a :: b :: l)) as Hin
    by (by apply elem_of_delete_id).
  rewrite Hnil in Hin. by apply elem_of_nil in Hin.
Qed.

Lemma set_add_nonempty x s : set_add x s ≠ [].
Proof.
  unfold set_add. case_decide as Hx.
  - intros ->. by apply elem_of_nil in Hx.
  - by destruct s.
Qed.

(** X13.  A click that is processed (selection enabled, no drag in progress)
    notifies the host once, leaves the grid alone, always ends in selection
    mode with a non-empty duplicate-free selection.  Outside selection mode
    the clicked cell becomes the whole selection.  In selection mode a click
    with Ctrl or Cmd on a selected cell removes exactly that cell provided
    another cell stays selected; every other click adds the clicked cell and
    keeps all the others. *)
Theorem click_updates_selection props r c ev st :
  isSelectionAllowed props = true → isDragging st = false → NoDup (selectedCells st) →
  let prev := selectedCells st in
  let st' := (handleCellClick props r c ev st).1 in
  let removes := (ctrlKey ev || metaKey ev) && bool_decide (cell_ r c ∈ prev)
                 && (1 <? length prev)%nat in
  (handleCellClick props r c ev st).2 = [onCellClick]
  ∧ tableRows st' = tableRows st
  ∧ isSelectionMode st' = true
  ∧ selectedCells st' ≠ []
  ∧ NoDup (selectedCells st')
  ∧ (isSelectionMode st = false → selectedCells st' = [cell_ r c])
  ∧ (isSelectionMode st = true →
     ∀ j, j ∈ selectedCells st'
          ↔ if removes then j ∈ prev ∧ j ≠ cell_ r c else j ∈ prev ∨ j = cell_ r c).
Proof.
  intros Hallow Hdrag Hnd prev st' removes. subst st' removes.
  unfold handleCellClick. rewrite Hallow, Hdrag. cbn [negb].
  destruct (isSelectionMode st) eqn:Hmode; cbn -[Nat.ltb Nat.eqb]; fold prev.
  - destruct (ctrlKey ev || metaKey ev); cbn [andb].
    + destruct (bool_decide (cell_ r c ∈ prev)) eqn:Hin; cbn [andb].
      * destruct (1 <? length prev)%nat eqn:Hlen; cbn -[Nat.ltb Nat.eqb].
        -- apply Nat.ltb_lt in Hlen. split_and!; try done.
           ++ by apply delete_id_leaves_one.
           ++ by apply NoDup_delete_id.
           ++ intros _ j. apply elem_of_delete_id.
        -- split_and!; try done.
           ++ apply set_add_nonempty.
           ++ by apply NoDup_set_add.
           ++ intros _ j. rewrite elem_of_set_add. tauto.
      * cbn -[Nat.ltb Nat.eqb]. split_and!; try done.
        -- apply set_add_nonempty.
        -- by apply NoDup_set_add.
        -- intros _ j. rewrite elem_of_set_add. tauto.
    + destruct (bool_decide (cell_ r c ∈ prev)) eqn:Hin; cbn [andb].
      * apply bool_decide_eq_true in Hin.
        destruct (length prev =? 1)%nat eqn:Hlen; cbn -[Nat.ltb Nat.eqb].
        -- split_and!; try done.
           ++ fold prev. intros E. rewrite E in Hin. by apply elem_of_nil in Hin.
           ++ intros _ j. fold prev. split; [tauto|]. by intros [?| ->].
        -- split_and!; try done.
           ++ apply set_add_nonempty.
           ++ by apply NoDup_set_add.
           ++ intros _ j. rewrite elem_of_set_add. tauto.
      * cbn -[Nat.ltb Nat.eqb]. split_and!; try done.
        -- apply set_add_nonempty.
        -- by apply NoDup_set_add.
        -- intros _ j. rewrite elem_of_set_add. tauto.
  - split_and!; try done. apply NoDup_singleton.
Qed.

Lemma click_updates_selection_witness :
  isSelectionAllowed props_all = true ∧ isDragging st_row_pair = false
  ∧ NoDup (selectedCells st_row_pair)
  ∧ selectedCells (handleCellClick props_all 1 2 plain_mouse_down st_row_pair).1 ≠ [].
Proof.
  assert (NoDup (selectedCells st_row_pair)) as Hnd.
  { cbn. apply NoDup_cons. split; [|apply NoDup_singleton].
    intros [=]%list_elem_of_singleton. }
  split_and!; [reflexivity|reflexivity|exact Hnd|].
  exact (proj1 (proj2 (proj2 (proj2
           (click_updates_selection props_all 1 2 plain_mouse_down st_row_pair
              eq_refl eq_refl Hnd))))).
Defined.

Lemma select_all_fold rows acc :
  let all :=
    fold_left (λ acc row,
                 fold_left (λ acc cell, if isHidden cell then acc
                                        else set_add (id cell) acc)
                           (cells row) acc)
              rows acc in
  (NoDup acc → NoDup all)
  ∧ ∀ i, i ∈ all ↔ i ∈ acc ∨ ∃ x, x ∈ all_cells rows ∧ isHidden x = false ∧ id x = i.
Proof.
  revert acc. induction rows as [|row rows IH]; intros acc; cbn [fold_left].
  - split; [done|]. intros i. split; [tauto|]. intros [?|(x & Hx & _)]; [done|].
    by apply elem_of_nil in Hx.
  - assert (∀ cs acc,
      let inner := fold_left (λ acc cell, if isHidden cell then acc
                                          else set_add (id cell) acc) cs acc in
      (NoDup acc → NoDup inner)
      ∧ ∀ i, i ∈ inner ↔ i ∈ acc ∨ ∃ x, x ∈ cs ∧ isHidden x = false ∧ id x = i) as Hinner.
    { clear. induction cs as [|x cs IHc]; intros acc; cbn [fold_left].
      - split; [done|]. intros i. split; [tauto|]. intros [?|(x & Hx & _)]; [done|].
        by apply elem_of_nil in Hx.
      - destruct (IHc (if isHidden x then acc else set_add (id x) acc)) as [Hn Hm].
        split.
        + intros Hacc. apply Hn. destruct (isHidden x); [done|]. by apply NoDup_set_add.
        + intros i. rewrite Hm. destruct (isHidden x) eqn:Hx.
          * split.
            -- intros [?|(y & Hy & ? & ?)]; [tauto|]. right. exists y. split; [by right|done].
            -- intros [?|(y & Hy & Hh & ?)]; [tauto|].
               apply elem_of_cons in Hy as [->|Hy]; [congruence|]. right. by exists y.
          * rewrite elem_of_set_add. split.
            -- intros [[->|?]|(y & Hy & ? & ?)]; [|tauto|].
               ++ right. exists x. split; [by left|done].
               ++ right. exists y. split; [by right|done].
            -- intros [?|(y & Hy & Hh & Hid)]; [tauto|].
               apply elem_of_cons in Hy as [->|Hy]; [by left; left|]. right. by exists y. }
    destruct (Hinner (cells row) acc) as [Hn Hm].
    destruct (IH (fold_left (λ acc cell, if isHidden cell then acc
                                         else set_add (id cell) acc) (cells row) acc))
      as [Hn' Hm'].
    split; [by intros; apply Hn', Hn|].
    intros i. rewrite Hm', Hm, all_cells_cons. split.
    + intros [[?|(x & Hx & ?)]|(x & Hx & ?)]; [tauto| |].
      * right. exists x. rewrite elem_of_app. tauto.
      * right. exists x. rewrite elem_of_app. tauto.
    + intros [?|(x & Hx & ?)]; [tauto|]. apply elem_of_app in Hx as [Hx|Hx].
      * left. right. by exists x.
      * right. by exists x.
Qed.

(** X14.  Select All, when selection is enabled, selects exactly the ids of
    the cells that are not hidden, each once, turns selection mode on and
    touches neither the grid nor the host. *)
Theorem select_all_takes_visible_cells props st :
  isSelectionAllowed props = true →
  let st' := (selectAllCells props st).1 in
  (selectAllCells props st).2 = []
  ∧ tableRows st' = tableRows st
  ∧ isSelectionMode st' = true
  ∧ NoDup (selectedCells st')
  ∧ ∀ i, i ∈ selectedCells st'
         ↔ ∃ x, x ∈ all_cells (tableRows st) ∧ isHidden x = false ∧ id x = i.
Proof.
  intros Hallow. unfold selectAllCells. rewrite Hallow. cbn.
  destruct (select_all_fold (tableRows st) []) as [Hn Hm].
  split_and!; try done.
  - apply Hn. constructor.
  - intros i. rewrite Hm. split; [|tauto]. intros [Hi|?]; [|done].
    by apply elem_of_nil in Hi.
Qed.

Lemma select_all_takes_visible_cells_witness :
  isSelectionAllowed props_all = true
  ∧ isSelectionMode (selectAllCells props_all st_2x2).1 = true.
Proof.
  split; [reflexivity|].
  exact (proj1 (proj2 (proj2 (select_all_takes_visible_cells props_all st_2x2 eq_refl)))).
Defined.

Lemma enter_path_keeps_anchor r0 c0 path st :
  isDragging st = true → dragStartCell st = Some (r0, c0) →
  let st' := enter_path path st in
  isDragging st' = true ∧ dragStartCell st' = Some (r0, c0)
  ∧ preSelectionRef st' = preSelectionRef st ∧ tableRows st' = tableRows st.
Proof.
  revert st. induction path as [|[r c] path IH]; intros st Hd Hs; cbn; [done|].
  unfold enter_path in IH; cbn in IH.
  destruct (IH (handleCellMouseEnter r c st).1) as (H1 & H2 & H3 & H4).
  - unfold handleCellMouseEnter. by rewrite Hd, Hs.
  - unfold handleCellMouseEnter. by rewrite Hd, Hs.
  - unfold enter_path. cbn. rewrite H1, H2, H3, H4.
    unfold handleCellMouseEnter. by rewrite Hd, Hs.
Qed.

(** X15.  A drag depends only on where it started and on the cell entered
    last: whatever cells the pointer crossed on the way, the selection is the
    selection held at mouse-down extended, in order, by the rectangle between
    the anchor and the last cell, and the grid is untouched.  Releasing the
    button keeps that selection, ends the drag and empties the restore point,
    after which entering a cell does nothing. *)
Theorem drag_follows_last_cell props st r0 c0 ev path r c :
  isSelectionAllowed props = true → target_is_input ev = false →
  let st1 := (handleCellMouseDown props r0 c0 ev st).1 in
  let st2 := enter_path (path ++ [(r, c)]) st1 in
  let st3 := (onUp st2).1 in
  selectedCells st2 = add_all (getRectangularSelection r0 c0 r c) (selectedCells st)
  ∧ dragSelectionRef st2 = getRectangularSelection r0 c0 r c
  ∧ tableRows st2 = tableRows st
  ∧ selectedCells st3 = selectedCells st2
  ∧ isDragging st3 = false ∧ preSelectionRef st3 = []
  ∧ ∀ r' c', handleCellMouseEnter r' c' st3 = (st3, []).
Proof.
  intros Hallow Hinput st1 st2 st3.
  assert (isDragging st1 = true ∧ dragStartCell st1 = Some (r0, c0)
          ∧ preSelectionRef st1 = selectedCells st ∧ tableRows st1 = tableRows st)
    as (Hd1 & Hs1 & Hp1 & Hr1).
  { subst st1. unfold handleCellMouseDown. rewrite Hallow, Hinput. cbn [negb].
    by destruct (shiftKey ev). }
  destruct (enter_path_keeps_anchor r0 c0 path st1 Hd1 Hs1) as (Hd & Hs & Hp & Hr).
  assert (st2 = (handleCellMouseEnter r c (enter_path path st1)).1) as E2.
  { subst st2. unfold enter_path. by rewrite fold_left_app. }
  unfold handleCellMouseEnter in E2. rewrite Hd, Hs in E2. cbn in E2.
  rewrite Hp, Hp1 in E2.
  assert (isDragging st2 = true) as Hd2 by (by rewrite E2).
  subst st3. unfold onUp. rewrite Hd2. cbn.
  rewrite E2. cbn. split_and!; try done. congruence.
Qed.

Lemma drag_follows_last_cell_witness :
  isSelectionAllowed props_all = true ∧ target_is_input plain_mouse_down = false
  ∧ dragSelectionRef
      (enter_path ([(3, 3); (1, 2)] ++ [(2, 1)])
         (handleCellMouseDown props_all 1 1 plain_mouse_down st_3x3).1)
    = getRectangularSelection 1 1 2 1.
Proof.
  split_and!; [reflexivity|reflexivity|].
  exact (proj1 (proj2 (drag_follows_last_cell props_all st_3x3 1 1 plain_mouse_down
                         [(3, 3); (1, 2)] 2 1 eq_refl eq_refl))).
Defined.

Lemma NoDup_add_all_fold l s :
  NoDup s → NoDup (fold_left (λ acc c, set_add c acc) l s).
Proof. apply NoDup_add_all. Qed.

Ltac anchor_done :=
  first [ done
        | apply NoDup_singleton
        | by repeat match goal with
                    | H : isDragging _ = _ |- _ => rewrite H
                    | H : dragStartCell _ = _ |- _ => rewrite H
                    | H : selectedCells _ = _ |- _ => rewrite H
                    end ].

(** X16.  Every event keeps the selection state coherent: the selection, the
    restore point and the drag rectangle never hold an id twice, and
    [isDragging] is set exactly when [dragStartCell] is. *)
Theorem events_keep_selection_coherent props now e st :
  selection_inv st → selection_inv (handle props now e st).1.
Proof.
  unfold selection_inv. intros (Hsel & Hpre & Hdrag & Hanchor).
  assert (NoDup (@nil CellId)) as Hnil by constructor.
  assert (∀ i : CellId, NoDup [i]) as Hone by (intros; apply NoDup_singleton).
  destruct e; cbn [handle].
  - unfold loadData. repeat case_match; cbn; done.
  - unfold syncRowCountAttribute. repeat case_match; cbn; done.
  - unfold syncColumnCountAttribute. repeat case_match; cbn; done.
  - unfold initTable, createNewTable. repeat case_match; cbn; done.
  - unfold applyDimensions, createNewTable. repeat case_match; cbn; done.
  - unfold addRow. repeat case_match; cbn; done.
  - unfold addColumn. repeat case_match; cbn; done.
  - unfold handleCellValueChange. repeat case_match; cbn; done.
  - unfold handleCheckboxChange. repeat case_match; cbn; done.
  - unfold handleCellClick. repeat case_match; cbn -[Nat.ltb Nat.eqb]; try done;
      repeat case_match; cbn; split_and!; try anchor_done;
      auto using NoDup_set_add, NoDup_delete_id.
  - unfold handleCellMouseDown. repeat case_match; cbn; try (split_and!; anchor_done);
      (split_and!; [auto using NoDup_set_add..|]); split; eauto.
  - unfold handleCellMouseEnter. repeat case_match; cbn; try (split_and!; anchor_done).
    split_and!; try anchor_done.
    + by apply NoDup_add_all_fold.
    + rewrite getRectangularSelection_rect_ids. apply NoDup_rect_ids.
  - unfold onUp. repeat case_match; cbn; split_and!; anchor_done.
  - unfold selectAllCells. repeat case_match; cbn; split_and!; try anchor_done.
    by apply select_all_fold.
  - cbn. done.
  - unfold mergeCells. repeat case_match; cbn; split_and!; anchor_done.
  - unfold unmergeCells. repeat case_match; cbn; split_and!; anchor_done.
  - unfold blankSelectedCells, write_blank. repeat case_match; cbn; split_and!; anchor_done.
  - unfold unblankSelectedCells, write_blank. repeat case_match; cbn; split_and!; anchor_done.
Qed.

Lemma events_keep_selection_coherent_witness :
  selection_inv st_3x3
  ∧ selection_inv (handle props_all clock (CellMouseDown 2 2 plain_mouse_down) st_3x3).1.
Proof.
  assert (selection_inv st_3x3) as H.
  { split_and!; [constructor..|]. split; [done|]. by intros [? [=]]. }
  exact (conj H (events_keep_selection_coherent props_all clock
                   (CellMouseDown 2 2 plain_mouse_down) st_3x3 H)).
Defined.

(** X17.  With cell merging and cell blanking both disabled nothing can ever
    be selected: from a state with an empty selection and no drag, no
    sequence of events (host updates included) produces a selection or starts
    a drag, and in every state so reached mouse-down, mouse-enter, mouse-up,
    Select All, merge, unmerge, blank and unblank change nothing and call
    nothing. *)
Theorem selection_disabled_never_selects props now es st :
  isSelectionAllowed props = false → selectedCells st = [] → isDragging st = false →
  let st' := run props now es st in
  selectedCells st' = [] ∧ isDragging st' = false
  ∧ ∀ e, needs_selection e → handle props now e st' = (st', []).
Proof.
  intros Hallow Hsel Hdrag st'.
  assert (selectedCells st' = [] ∧ isDragging st' = false) as [Hsel' Hdrag'].
  { subst st'. revert st Hsel Hdrag. induction es as [|e es IH]; intros st Hsel Hdrag; [done|].
    unfold run. cbn [fold_left]. apply IH.
    - destruct e; cbn [handle].
      + unfold loadData. repeat case_match; cbn; done.
      + unfold syncRowCountAttribute. repeat case_match; cbn; done.
      + unfold syncColumnCountAttribute. repeat case_match; cbn; done.
      + unfold initTable, createNewTable. repeat case_match; cbn; done.
      + unfold applyDimensions, createNewTable. repeat case_match; cbn; done.
      + unfold addRow. repeat case_match; cbn; done.
      + unfold addColumn. repeat case_match; cbn; done.
      + unfold handleCellValueChange. repeat case_match; cbn; done.
      + unfold handleCheckboxChange. repeat case_match; cbn; done.
      + unfold handleCellClick. by rewrite Hallow.
      + unfold handleCellMouseDown. by rewrite Hallow.
      + unfold handleCellMouseEnter. by rewrite Hdrag.
      + unfold onUp. by rewrite Hdrag.
      + unfold selectAllCells. by rewrite Hallow.
      + done.
      + unfold mergeCells. by rewrite Hsel.
      + unfold unmergeCells. by rewrite Hsel.
      + unfold blankSelectedCells, write_blank. by rewrite Hsel.
      + unfold unblankSelectedCells, write_blank. by rewrite Hsel.
    - destruct e; cbn [handle].
      + unfold loadData. repeat case_match; cbn; done.
      + unfold syncRowCountAttribute. repeat case_match; cbn; done.
      + unfold syncColumnCountAttribute. repeat case_match; cbn; done.
      + unfold initTable, createNewTable. repeat case_match; cbn; done.
      + unfold applyDimensions, createNewTable. repeat case_match; cbn; done.
      + unfold addRow. repeat case_match; cbn; done.
      + unfold addColumn. repeat case_match; cbn; done.
      + unfold handleCellValueChange. repeat case_match; cbn; done.
      + unfold handleCheckboxChange. repeat case_match; cbn; done.
      + unfold handleCellClick. by rewrite Hallow.
      + unfold handleCellMouseDown. by rewrite Hallow.
      + unfold handleCellMouseEnter. by rewrite Hdrag.
      + unfold onUp. by rewrite Hdrag.
      + unfold selectAllCells. by rewrite Hallow.
      + done.
      + unfold mergeCells. by rewrite Hsel.
      + unfold unmergeCells. by rewrite Hsel.
      + unfold blankSelectedCells, write_blank. by rewrite Hsel.
      + unfold unblankSelectedCells, write_blank. by rewrite Hsel. }
  split_and!; [done..|].
  intros e He. destruct e; try done; cbn [handle].
  - unfold handleCellMouseDown. by rewrite Hallow.
  - unfold handleCellMouseEnter. by rewrite Hdrag'.
  - unfold onUp. by rewrite Hdrag'.
  - unfold selectAllCells. by rewrite Hallow.
  - unfold mergeCells. by rewrite Hsel'.
  - unfold unmergeCells. by rewrite Hsel'.
  - unfold blankSelectedCells, write_blank. by rewrite Hsel'.
  - unfold unblankSelectedCells, write_blank. by rewrite Hsel'.
Qed.

Lemma selection_disabled_never_selects_witness :
  isSelectionAllowed (mkProps true false false) = false
  ∧ selectedCells st_3x3 = [] ∧ isDragging st_3x3 = false
  ∧ selectedCells
      (run (mkProps true false false) clock
         [CellClick 1 1 plain_mouse_down; CellMouseDown 1 1 plain_mouse_down;
          CellMouseEnter 2 2; MouseUp; SelectAll; MergeSelected] st_3x3) = [].
Proof.
  split_and!; [reflexivity..|].
  exact (proj1 (selection_disabled_never_selects (mkProps true false false) clock
                  [CellClick 1 1 plain_mouse_down; CellMouseDown 1 1 plain_mouse_down;
                   CellMouseEnter 2 2; MouseUp; SelectAll; MergeSelected] st_3x3
                  eq_refl eq_refl eq_refl)).
Defined.

(** X18.  Once a table was loaded or built it is never rebuilt by the
    initialisation timer: [dataLoaded] stays set through every sequence of
    events, and the timer effect then changes nothing and calls nothing. *)
Theorem loaded_table_is_never_reinitialised props now es st :
  dataLoaded st = true →
  let st' := run props now es st in
  dataLoaded st' = true ∧ handle props now InitTimer st' = (st', []).
Proof.
  intros Hloaded st'.
  assert (dataLoaded st' = true) as H.
  { subst st'. revert st Hloaded. induction es as [|e es IH]; intros st Hloaded; [done|].
    unfold run. cbn [fold_left]. apply IH.
    destruct e; cbn [handle].
    - unfold loadData. repeat case_match; cbn; done.
    - unfold syncRowCountAttribute. repeat case_match; cbn; done.
    - unfold syncColumnCountAttribute. repeat case_match; cbn; done.
    - unfold initTable, createNewTable. repeat case_match; cbn; done.
    - unfold applyDimensions, createNewTable. repeat case_match; cbn; done.
    - unfold addRow. repeat case_match; cbn; done.
    - unfold addColumn. repeat case_match; cbn; done.
    - unfold handleCellValueChange. repeat case_match; cbn; done.
    - unfold handleCheckboxChange. repeat case_match; cbn; done.
    - unfold handleCellClick. repeat case_match; cbn; try done; repeat case_match; done.
    - unfold handleCellMouseDown. repeat case_match; cbn; done.
    - unfold handleCellMouseEnter. repeat case_match; cbn; done.
    - unfold onUp. repeat case_match; cbn; done.
    - unfold selectAllCells. repeat case_match; cbn; done.
    - done.
    - unfold mergeCells. repeat case_match; cbn; done.
    - unfold unmergeCells. repeat case_match; cbn; done.
    - unfold blankSelectedCells, write_blank. repeat case_match; cbn; done.
    - unfold unblankSelectedCells, write_blank. repeat case_match; cbn; done. }
  split; [done|]. cbn [handle]. unfold initTable. by rewrite H.
Qed.

Lemma loaded_table_is_never_reinitialised_witness :
  dataLoaded st_3x3 = true
  ∧ dataLoaded (run props_all clock [AddRow; ClearSelection] st_3x3) = true.
Proof.
  split; [reflexivity|].
  exact (proj1 (loaded_table_is_never_reinitialised props_all clock
                  [AddRow; ClearSelection] st_3x3 eq_refl)).
Defined.

(** ** Unmerge *)

Lemma unmerge_group_keeps_column m x : columnIndex (unmerge_group m x) = columnIndex x.
Proof. unfold unmerge_group. by case_decide. Qed.

(** X19.  Unmerge never touches the selection, the text, the checked,
    blocked and blank flags or the identity of any cell: a cell either keeps
    its merge state or is reset to the unmerged shape with an empty merge
    id.  Unmerging twice is the same as unmerging once: the second call
    changes nothing, saves nothing and reports nothing. *)
Theorem unmerge_is_idempotent now st :
  let st' := (unmergeCells now st).1 in
  selectedCells st' = selectedCells st
  ∧ rowCount st' = rowCount st ∧ columnCount st' = columnCount st
  ∧ (∀ q x, cell_at (tableRows st) q = Some x →
       ∃ x', cell_at (tableRows st') q = Some x'
             ∧ id x' = id x ∧ rowIndex x' = rowIndex x ∧ columnIndex x' = columnIndex x
             ∧ sequenceNumber x' = sequenceNumber x ∧ checked x' = checked x
             ∧ isBlocked x' = isBlocked x ∧ isBlank x' = isBlank x
             ∧ (x' = x ∨ (unmerged_shape x' ∧ mergeId x' = EmptyString)))
  ∧ unmergeCells now st' = (st', []).
Proof.
  unfold unmergeCells.
  destruct (selectedCells st) as [|i rest] eqn:Hsel.
  { cbn. rewrite Hsel. split_and!; try done. intros q x Hq. exists x. by split_and!; [..|left]. }
  destruct (find_cell (tableRows st) (id_row i) (id_col i)) as [[p t]|] eqn:Hfind.
  2:{ cbn. rewrite Hsel, Hfind. split_and!; try done.
      intros q x Hq. exists x. by split_and!; [..|left]. }
  destruct (isMerged t) eqn:Hm; cbn [negb].
  2:{ cbn. rewrite Hsel, Hfind, Hm. split_and!; try done.
      intros q x Hq. exists x. by split_and!; [..|left]. }
  cbn. rewrite Hsel. split_and!; try done.
  - intros q x Hq. rewrite cell_at_forEach_cell, Hq. cbn. eexists; split; [done|].
    unfold unmerge_group. case_decide; cbn.
    + split_and!; try done. by right.
    + split_and!; try done. by left.
  - rewrite find_cell_forEach_cell by apply unmerge_group_keeps_column.
    rewrite Hfind. cbn. unfold unmerge_group at 1. by rewrite decide_True.
Qed.

Lemma unmerge_is_idempotent_witness :
  let st := (mergeCells clock st_row_pair).1 in
  unmergeCells clock (unmergeCells clock st).1 = ((unmergeCells clock st).1, []).
Proof.
  exact (proj2 (proj2 (proj2 (proj2
           (unmerge_is_idempotent clock (mergeCells clock st_row_pair).1))))).
Defined.

(** ** Statistics *)

(** X20.  None of the blocked, merged and blank counts exceeds the total
    count, and on a rectangular grid of [R] rows and [C] columns the total is
    [R * C]. *)
Theorem statistics_are_bounded rows :
  let s := updateCellStatistics rows in
  (blockedCells s ≤ totalCells s)%nat
  ∧ (mergedCells s ≤ totalCells s)%nat
  ∧ (blankCells s ≤ totalCells s)%nat
  ∧ ∀ R C, rectangular rows R C → Z.of_nat (totalCells s) = R * C.
Proof.
  rewrite statistics_counts. cbn. unfold count_where. split_and!.
  - apply length_filter.
  - apply length_filter.
  - apply length_filter.
  - apply length_all_cells_rectangular.
Qed.

Lemma statistics_are_bounded_witness :
  rectangular (tableRows st_3x3) 3 3
  ∧ Z.of_nat (totalCells (updateCellStatistics (tableRows st_3x3))) = 3 * 3.
Proof.
  assert (rectangular (tableRows st_3x3) 3 3) as H by apply st_3x3_well_formed.
  split; [exact H|].
  exact (proj2 (proj2 (proj2 (statistics_are_bounded (tableRows st_3x3)))) 3 3 H).
Defined.

(** ** Growing the grid *)

Lemma find_cell_at_position rows i j x :
  positioned rows → cell_at rows (i, j) = Some x →
  find_cell rows (Z.of_nat i + 1) (Z.of_nat j + 1) = Some ((i, j), x).
Proof.
  intros Hpos Hq. apply cell_at_Some in Hq as (row & Hrow & Hx).
  destruct (Hpos i row Hrow) as (Hri & _ & Hcells).
  unfold find_cell.
  rewrite (list_find_unique (λ row, row_rowIndex row = Z.of_nat i + 1) rows i row);
    [|done|done|].
  - rewrite (list_find_unique (λ cell, columnIndex cell = Z.of_nat j + 1) (cells row) j x);
      [done|done| |].
    + by destruct (Hcells j x Hx) as (_ & ? & _).
    + intros j' y Hy Hcy. destruct (Hcells j' y Hy) as (_ & ? & _). lia.
  - intros i' row' Hrow' Hri'. destruct (Hpos i' row' Hrow') as (? & _). lia.
Qed.

(** X21.  Add Row on a well-formed grid below the limit appends one row of
    default cells: the counters become [rowCount + 1] by [columnCount], every
    existing cell stays where and as it was, each cell of the new row is
    found at its coordinates and is the default cell, the grid stays
    well-formed and the selection is kept.  At 100 rows the request is
    refused with an alert and nothing changes. *)
Theorem addRow_appends_default_row now st :
  wf_state st →
  (rowCount st < 100 →
   let st' := (addRow now st).1 in
   rowCount st' = rowCount st + 1 ∧ columnCount st' = columnCount st
   ∧ selectedCells st' = selectedCells st
   ∧ wf_state st'
   ∧ (∀ q x, cell_at (tableRows st) q = Some x → cell_at (tableRows st') q = Some x)
   ∧ (∀ c, 1 ≤ c ≤ columnCount st →
        find_cell (tableRows st') (rowCount st + 1) c
        = Some ((Z.to_nat (rowCount st), Z.to_nat (c - 1)),
                default_cell (rowCount st + 1) c)))
  ∧ (100 ≤ rowCount st → addRow now st = (st, [alert "Maximum 100 rows"])).
Proof.
  intros Hwf. unfold addRow. split.
  - intros Hlt. destruct (Z.ltb_spec 100 (rowCount st + 1)); [lia|]. cbn.
    pose proof (addRow_well_formed _ _ _ Hwf) as Hwf'.
    split_and!; try done.
    + intros [i j] x Hq. apply cell_at_Some in Hq as (row & Hrow & Hx).
      apply cell_at_Some. exists row. split; [|done]. by apply lookup_app_l_Some.
    + intros c Hc. destruct Hwf as [_ (Hlen & _ & _)].
      assert (cell_at (tableRows st ++ [new_row (rowCount st + 1) (columnCount st)])
                (Z.to_nat (rowCount st), Z.to_nat (c - 1))
              = Some (default_cell (rowCount st + 1) c)) as Hq.
      { apply cell_at_Some. exists (new_row (rowCount st + 1) (columnCount st)). split.
        - apply lookup_app_Some. right. split; [lia|].
          replace (Z.to_nat (rowCount st) - length (tableRows st))%nat with 0%nat by lia. done.
        - apply new_row_lookup. split; [lia|]. f_equal. lia. }
      pose proof (find_cell_at_position _ _ _ _ (proj1 Hwf') Hq) as Hf.
      by replace (Z.of_nat (Z.to_nat (rowCount st)) + 1) with (rowCount st + 1) in Hf by lia;
         replace (Z.of_nat (Z.to_nat (c - 1)) + 1) with c in Hf by lia.
  - intros Hge. by destruct (Z.ltb_spec 100 (rowCount st + 1)); [|lia].
Qed.

Lemma addRow_appends_default_row_witness :
  wf_state st_3x3 ∧ rowCount st_3x3 < 100
  ∧ find_cell (tableRows (addRow clock st_3x3).1) 4 2
    = Some ((3, 1)%nat, default_cell 4 2).
Proof.
  assert (rowCount st_3x3 < 100) as Hlt by (cbn; lia).
  split_and!; [exact st_3x3_well_formed|exact Hlt|].
  destruct (addRow_appends_default_row clock st_3x3 st_3x3_well_formed) as [Hadd _].
  destruct (Hadd Hlt) as (_ & _ & _ & _ & _ & Hnew).
  exact (Hnew 2 ltac:(cbn; lia)).
Defined.

(** X22.  Add Column on a well-formed grid below the limit appends one
    default cell to every row: the counters become [rowCount] by
    [columnCount + 1], every existing cell stays where and as it was, the
    new cell of each row is found at its coordinates and is the default cell,
    the grid stays well-formed and the selection is kept.  At 100 columns the
    request is refused with an alert and nothing changes. *)
Theorem addColumn_appends_default_cells now st :
  wf_state st →
  (columnCount st < 100 →
   let st' := (addColumn now st).1 in
   rowCount st' = rowCount st ∧ columnCount st' = columnCount st + 1
   ∧ selectedCells st' = selectedCells st
   ∧ wf_state st'
   ∧ (∀ q x, cell_at (tableRows st) q = Some x → cell_at (tableRows st') q = Some x)
   ∧ (∀ r, 1 ≤ r ≤ rowCount st →
        find_cell (tableRows st') r (columnCount st + 1)
        = Some ((Z.to_nat (r - 1), Z.to_nat (columnCount st)),
                default_cell r (columnCount st + 1))))
  ∧ (100 ≤ columnCount st → addColumn now st = (st, [alert "Maximum 100 columns"])).
Proof.
  intros Hwf. unfold addColumn. split.
  - intros Hlt. destruct (Z.ltb_spec 100 (columnCount st + 1)); [lia|]. cbn.
    pose proof (addColumn_well_formed _ _ _ Hwf) as Hwf'.
    split_and!; try done.
    + intros [i j] x Hq. apply cell_at_Some in Hq as (row & Hrow & Hx).
      apply cell_at_Some. eexists. split.
      * rewrite list_lookup_fmap, Hrow. done.
      * cbn. by apply lookup_app_l_Some.
    + intros r Hr. destruct Hwf as [Hpos (Hlen & _ & Hcols)].
      destruct (lookup_lt_is_Some_2 (tableRows st) (Z.to_nat (r - 1))) as [row Hrow]; [lia|].
      destruct (Hpos _ row Hrow) as (Hri & _ & _). specialize (Hcols _ row Hrow).
      match goal with
      | |- find_cell ?rows' _ _ = _ =>
          assert (cell_at rows' (Z.to_nat (r - 1), Z.to_nat (columnCount st))
                  = Some (default_cell r (columnCount st + 1))) as Hq
      end.
      { apply cell_at_Some. eexists. split.
        - rewrite list_lookup_fmap, Hrow. done.
        - cbn. apply lookup_app_Some. right. split; [lia|].
          replace (Z.to_nat (columnCount st) - length (cells row))%nat with 0%nat by lia.
          cbn. do 2 f_equal. lia. }
      pose proof (find_cell_at_position _ _ _ _ (proj1 Hwf') Hq) as Hf.
      by replace (Z.of_nat (Z.to_nat (r - 1)) + 1) with r in Hf by lia;
         replace (Z.of_nat (Z.to_nat (columnCount st)) + 1) with (columnCount st + 1)
           in Hf by lia.
  - intros Hge. by destruct (Z.ltb_spec 100 (columnCount st + 1)); [|lia].
Qed.

Lemma addColumn_appends_default_cells_witness :
  wf_state st_3x3 ∧ columnCount st_3x3 < 100
  ∧ find_cell (tableRows (addColumn clock st_3x3).1) 2 4
    = Some ((1, 3)%nat, default_cell 2 4).
Proof.
  assert (columnCount st_3x3 < 100) as Hlt by (cbn; lia).
  split_and!; [exact st_3x3_well_formed|exact Hlt|].
  destruct (addColumn_appends_default_cells clock st_3x3 st_3x3_well_formed) as [Hadd _].
  destruct (Hadd Hlt) as (_ & _ & _ & _ & _ & Hnew).
  exact (Hnew 2 ltac:(cbn; lia)).
Defined.

(** ** A row count lowered by the host *)

Lemma st_3x3_settled_well_formed : wf_state st_3x3_settled.
Proof. by apply (wf_state_same_rows st_3x3), st_3x3_well_formed. Qed.

(** X23.  The row-count effect does not rebuild the grid, so the counter can
    fall behind it.  When the host lowers [rowCount] of a well-formed table
    to [v] and the user then adds a row, the grid gets one row more than it
    had, the new row carries the index [v + 1] that an existing row already
    has, every lookup of that index still lands in the old row (the cells of
    the new row cannot be reached), and grid and counter disagree. *)
Theorem lowered_row_count_duplicates_row_index now v st :
  wf_state st → ignoreAttributeUpdateRef st = false → isUserInputRef st = false →
  1 ≤ v < rowCount st → v < 100 →
  let st1 := (syncRowCountAttribute (Some v) st).1 in
  let st2 := (addRow now st1).1 in
  rowCount st1 = v ∧ tableRows st1 = tableRows st
  ∧ rowCount st2 = v + 1
  ∧ Z.of_nat (length (tableRows st2)) = rowCount st + 1
  ∧ last (tableRows st2) = Some (new_row (v + 1) (columnCount st))
  ∧ (∃ row, tableRows st !! Z.to_nat v = Some row ∧ row_rowIndex row = v + 1
            ∧ tableRows st2 !! Z.to_nat v = Some row)
  ∧ (∀ c q x, find_cell (tableRows st2) (v + 1) c = Some (q, x) → q.1 = Z.to_nat v)
  ∧ ¬ wf_state st2.
Proof.
  intros Hwf Hflag Huser Hv Hv100 st1 st2.
  assert (st1 = setRowCount v st) as E1.
  { subst st1. unfold syncRowCountAttribute. rewrite Hflag, Huser.
    destruct (Z.ltb_spec 0 v), (Z.leb_spec v 100), (Z.eqb_spec v (rowCount st)); try lia.
    done. }
  assert (tableRows st2 = tableRows st ++ [new_row (v + 1) (columnCount st)]
          ∧ rowCount st2 = v + 1 ∧ columnCount st2 = columnCount st) as (E2 & E3 & E4).
  { subst st2. rewrite E1. unfold addRow. cbn.
    by destruct (Z.ltb_spec 100 (v + 1)); [lia|]. }
  destruct Hwf as [Hpos (Hlen & HC & Hcols)].
  destruct (lookup_lt_is_Some_2 (tableRows st) (Z.to_nat v)) as [row Hrow]; [lia|].
  destruct (Hpos _ row Hrow) as (Hri & _ & _).
  assert (tableRows st2 !! Z.to_nat v = Some row) as Hrow2.
  { rewrite E2. by apply lookup_app_l_Some. }
  split_and!.
  - by rewrite E1.
  - by rewrite E1.
  - done.
  - rewrite E2, length_app. cbn. lia.
  - rewrite E2. apply last_snoc.
  - exists row. split_and!; [done|lia|done].
  - intros c [i j] x Hf. cbn. unfold find_cell in Hf.
    destruct (list_find _ (tableRows st2)) as [[i' row']|] eqn:E; [|done].
    destruct (list_find _ (cells row')) as [[j' x']|]; [|done].
    injection Hf as -> -> ->.
    apply list_find_Some in E as (Hi & HP & Hmin).
    destruct (decide (i < Z.to_nat v)%nat) as [Hlt|Hge].
    + rewrite E2 in Hi. rewrite lookup_app_l in Hi by lia.
      destruct (Hpos _ _ Hi) as (? & _). lia.
    + destruct (decide (i = Z.to_nat v)) as [->|Hne]; [done|].
      exfalso. apply (Hmin (Z.to_nat v) row Hrow2); [lia|lia].
  - intros [_ (Hlen2 & _)]. rewrite E2, length_app, E3 in Hlen2. cbn in Hlen2. lia.
Qed.

Lemma lowered_row_count_duplicates_row_index_witness :
  wf_state st_3x3_settled ∧ ignoreAttributeUpdateRef st_3x3_settled = false
  ∧ isUserInputRef st_3x3_settled = false
  ∧ 1 ≤ 2 < rowCount st_3x3_settled ∧ 2 < 100
  ∧ ¬ wf_state (addRow clock (syncRowCountAttribute (Some 2) st_3x3_settled).1).1.
Proof.
  assert (1 ≤ 2 < rowCount st_3x3_settled) as Hv by (cbn; lia).
  assert (2 < 100) as Hv100 by lia.
  refine (conj st_3x3_settled_well_formed (conj eq_refl (conj eq_refl (conj Hv (conj Hv100 _))))).
  destruct (lowered_row_count_duplicates_row_index clock 2 st_3x3_settled
              st_3x3_settled_well_formed eq_refl eq_refl Hv Hv100)
    as (_ & _ & _ & _ & _ & _ & _ & Hnot).
  exact Hnot.
Defined.

(** ** The first table *)

(** X24.  The first table is built from the host's counts as they are.
    Without host values the component starts at 3 by 3.  With positive
    counts the initialisation timer builds a well-formed table of exactly
    that size, with no upper limit: the 100-row limit of the other entry
    points is not applied here.  With a count that is zero or negative the
    timer builds nothing and says nothing, and Generate Table answers with an
    alert. *)
Theorem first_table_uses_host_counts now rowAttr colAttr :
  let st0 := initial_state rowAttr colAttr in
  let st1 := (initTable now st0).1 in
  initial_state None None = st_initial
  ∧ (0 < rowCount st0 → 0 < columnCount st0 →
     wf_state st1 ∧ rowCount st1 = rowCount st0 ∧ columnCount st1 = columnCount st0
     ∧ Z.of_nat (length (tableRows st1)) = rowCount st0
     ∧ dataLoaded st1 = true)
  ∧ (rowCount st0 ≤ 0 ∨ columnCount st0 ≤ 0 →
     initTable now st0 = (st0, [])
     ∧ applyDimensions now st0
       = (st0, [alert "Rows and columns must be positive numbers"])).
Proof.
  cbn zeta. split_and!; [done| |].
  - intros Hr Hc. cbn in Hr, Hc. unfold initTable, createNewTable. cbn.
    destruct (Z.leb_spec (getInitialRows rowAttr) 0), (Z.leb_spec (getInitialColumns colAttr) 0);
      try lia. cbn.
    pose proof (new_table_well_formed (getInitialRows rowAttr) (getInitialColumns colAttr)
                  ltac:(lia) ltac:(lia)) as Hwf.
    split_and!; try done. apply Hwf.
  - intros Hneg. cbn in Hneg. unfold initTable, applyDimensions, createNewTable. cbn.
    destruct (Z.leb_spec (getInitialRows rowAttr) 0), (Z.leb_spec (getInitialColumns colAttr) 0);
      try lia; done.
Qed.

Lemma first_table_uses_host_counts_witness :
  0 < rowCount (initial_state (Some 150) (Some 2))
  ∧ 0 < columnCount (initial_state (Some 150) (Some 2))
  ∧ Z.of_nat (length (tableRows (initTable clock (initial_state (Some 150) (Some 2))).1))
    = 150.
Proof.
  assert (0 < rowCount (initial_state (Some 150) (Some 2))) as Hr by (cbn; lia).
  assert (0 < columnCount (initial_state (Some 150) (Some 2))) as Hc by (cbn; lia).
  destruct (first_table_uses_host_counts clock (Some 150) (Some 2)) as (_ & Hbuild & _).
  destruct (Hbuild Hr Hc) as (_ & _ & _ & Hlen & _).
  exact (conj Hr (conj Hc Hlen)).
Defined.

(** ** The auto-save effect *)

(** X25.  With auto-save on and a table present, the auto-save effect saves
    the current state as it is whenever no save is in flight; it changes
    neither the grid nor the counters nor the selection; while the save is in
    flight the effect is silent; and once the save timer has cleared
    [isSaving] the effect is enabled again and repeats the very same calls.
    The statistics effect reports the same figures as the save does. *)
Theorem autosave_effect_rearms props now st :
  autoSave props = true → tableRows st ≠ [] → isSaving st = false →
  let st1 := (autoSaveEffect props now st).1 in
  let st2 := (savingTimer st1).1 in
  setTableData (encode now (tableRows st) (rowCount st) (columnCount st))
    ∈ (autoSaveEffect props now st).2
  ∧ tableRows st1 = tableRows st ∧ rowCount st1 = rowCount st
  ∧ columnCount st1 = columnCount st ∧ selectedCells st1 = selectedCells st
  ∧ autoSaveEffect props now st1 = (st1, [])
  ∧ (autoSaveEffect props now st2).2 = (autoSaveEffect props now st).2
  ∧ (autoSaveEffect props now st2).1 = st1
  ∧ ∀ s, s ∈ (statisticsEffect st).2 → s ∈ (autoSaveEffect props now st).2.
Proof.
  intros Hauto Hrows Hsaving. unfold autoSaveEffect, statisticsEffect, savingTimer.
  rewrite Hauto. destruct st as [? ? rows0 ? ? ? ? ? ? saving ? ? ? ?]. cbn in *. subst saving.
  destruct rows0 as [|row rows]; [done|]. cbn.
  split_and!; try done.
  - apply list_elem_of_here.
  - intros s ->%list_elem_of_singleton. repeat constructor.
Qed.

Lemma autosave_effect_rearms_witness :
  autoSave props_all = true ∧ tableRows (savingTimer st_2x2).1 ≠ []
  ∧ isSaving (savingTimer st_2x2).1 = false
  ∧ tableRows (autoSaveEffect props_all clock (savingTimer st_2x2).1).1
    = tableRows (savingTimer st_2x2).1.
Proof.
  assert (tableRows (savingTimer st_2x2).1 ≠ []) as Hrows by discriminate.
  refine (conj eq_refl (conj Hrows (conj eq_refl _))).
  exact (proj1 (proj2 (autosave_effect_rearms props_all clock (savingTimer st_2x2).1
                         eq_refl Hrows eq_refl))).
Defined.
